(** * GSEApy: the ranking-metric engine and its data-loading front end

    A shallow embedding of [gseapy/gsea.py] (classes [GSEA] and [Prerank]):
    the constructors, [GSEA.load_data], [GSEA.calculate_metric],
    [GSEA.load_classes] and [GSEA.run], over IEEE binary64 values
    (the primitive floats of the kernel, which are numpy's [float64]).
    pandas and numpy calls are modelled by list functions that follow the
    vectorised operation they stand for. *)

From Stdlib Require Import List String Ascii Bool ZArith Lia Sorted Permutation.
From Stdlib Require Import Floats.
Import ListNotations.

Set Warnings "-inexact-float".

(** * Binary64 values *)
Module F64.

Local Open Scope float_scope.

(** The order numpy sorts floats by: [a < b], and every number before NaN
    (npy_sort's [FLOAT_LT]: [a < b || (b != b && a == a)]). *)
Definition np_lt (a b : float) : bool :=
  (a <? b) || (is_nan b && negb (is_nan a)).

(** pandas' [isna] on a float cell. *)
Definition isna (x : float) : bool := is_nan x.

(** A float that is neither NaN nor infinite, read off its decoding. *)
Definition finite (x : float) : bool :=
  match Prim2SF x with
  | S754_zero _ | S754_finite _ _ _ => true
  | _ => false
  end.

Definition of_nat (n : nat) : float := of_uint63 (Uint63.of_Z (Z.of_nat n)).

End F64.

(** * The Python layer: exceptions, dicts, [Counter], [sorted] *)
Module Py.

(** The exceptions the modelled code raises, one constructor per [raise]
    site or failing primitive. *)
Inductive exn : Type :=
| GroupTooSmall (c : string) (v : nat)
    (** [Exception(f"Number of {c}: {v}, it must be >= 3!")] *)
| MethodNotSupported (m : string)
    (** [Exception("Sorry, input method %s is not supported" % m)] *)
| LookupError (m : string)
    (** [LookupError("Input method: %s is not supported" % method)] *)
| KeyError (k : string)
| IndexError
| TypeError
| AssertionError
| ParserError.
    (** whatever [gsea_cls_parser] raises *)

Inductive result (A : Type) : Type :=
| Ok (a : A)
| Raise (e : exn).
Arguments Ok {A} a.
Arguments Raise {A} e.

Definition bind {A B : Type} (r : result A) (k : A -> result B) : result B :=
  match r with
  | Ok a => k a
  | Raise e => Raise e
  end.

Definition assert (b : bool) : result unit :=
  if b then Ok tt else Raise AssertionError.

(** A [dict] with string keys, as the list of its items in insertion
    order. *)
Definition dict (V : Type) : Type := list (string * V).

Fixpoint dict_get {V : Type} (d : dict V) (k : string) : option V :=
  match d with
  | [] => None
  | (k', v) :: d' => if String.eqb k' k then Some v else dict_get d' k
  end.

(** [d[k] = v]: an existing key keeps its place, a new one goes last. *)
Fixpoint dict_set {V : Type} (d : dict V) (k : string) (v : V) : dict V :=
  match d with
  | [] => [(k, v)]
  | (k', v') :: d' =>
      if String.eqb k' k then (k', v) :: d' else (k', v') :: dict_set d' k v
  end.

(** [{k: v for k, v in items}] *)
Definition dict_of {V : Type} (items : list (string * V)) : dict V :=
  fold_left (fun d kv => dict_set d (fst kv) (snd kv)) items [].

Definition dict_values {V : Type} (d : dict V) : list V := map snd d.

(** [Counter(xs)]: the count of every element, in order of first
    occurrence. *)
Definition count_step (c : dict nat) (x : string) : dict nat :=
  dict_set c x (S (match dict_get c x with Some n => n | None => 0 end)).

Definition Counter (xs : list string) : dict nat := fold_left count_step xs [].

(** [counter[k]], which is 0 for a key that is missing. *)
Definition counter_get (c : dict nat) (k : string) : nat :=
  match dict_get c k with Some n => n | None => 0 end.

(** Insertion into a sorted list, after every element that is not
    greater: the step of a stable sort. *)
Fixpoint insert {A : Type} (lt : A -> A -> bool) (x : A) (l : list A) : list A :=
  match l with
  | [] => [x]
  | y :: l' => if lt y x then y :: insert lt x l' else x :: y :: l'
  end.

(** A stable sort: [sorted(l, key=...)], where [lt a b] compares the
    keys. *)
Definition sorted {A : Type} (lt : A -> A -> bool) (l : list A) : list A :=
  fold_right (insert lt) [] l.

(** What [sorted] establishes: no element is less than the one before
    it. *)
Definition ascending_by {A : Type} (lt : A -> A -> bool) : A -> A -> Prop :=
  fun a b => lt b a = false.

(** What makes it stable: an element comes before another only if it is
    less, or came before it in the input. *)
Definition stably {A : Type} (lt : A -> A -> bool) (before : A -> A -> Prop)
  : A -> A -> Prop :=
  fun a b => lt a b = true \/ before a b.

(** The distinct elements of [xs] that are not in [seen], in order of
    first occurrence: the keys a [Counter] adds. *)
Fixpoint first_seen (seen xs : list string) : list string :=
  match xs with
  | [] => []
  | x :: xs' =>
      if in_dec string_dec x seen then first_seen seen xs'
      else x :: first_seen (x :: seen) xs'
  end.

(** [l[i]], which raises [IndexError] out of range. *)
Definition getitem {A : Type} (l : list A) (i : nat) : result A :=
  match nth_error l i with
  | Some x => Ok x
  | None => Raise IndexError
  end.

(** [str.lower] on ASCII letters. *)
Definition lower_ascii (c : ascii) : ascii :=
  let n := nat_of_ascii c in
  if (65 <=? n)%nat && (n <=? 90)%nat then ascii_of_nat (n + 32) else c.

Fixpoint lower (s : string) : string :=
  match s with
  | EmptyString => EmptyString
  | String c s' => String (lower_ascii c) (lower s')
  end.

(** [x in names] *)
Definition str_in (x : string) (names : list string) : bool :=
  existsb (String.eqb x) names.

Fixpoint mapM {A B : Type} (f : A -> result B) (l : list A) : result (list B) :=
  match l with
  | [] => Ok []
  | x :: l' =>
      bind (f x) (fun y => bind (mapM f l') (fun ys => Ok (y :: ys)))
  end.

End Py.

Import Py.

Declare Scope py_scope.
Delimit Scope py_scope with py.
Notation "x <- e ;; k" := (bind e (fun x => k))
  (at level 61, e at next level, right associativity) : py_scope.
Notation "e ;;; k" := (bind e (fun _ => k))
  (at level 61, right associativity) : py_scope.

(** * The pandas and numpy layer *)
Module Pandas.

Local Open Scope float_scope.

(** An index label or an object cell. *)
Inductive cell : Type :=
| CStr (s : string)
| CNum (x : float)
| CNone.

(** A float [Series]: labels with their values. *)
Definition Series : Type := list (cell * float).

(** A float [DataFrame]: the column labels, and the rows under their index
    label. *)
Record DataFrame : Type := mkDataFrame {
  columns : list string;
  rows : list (cell * list float)
}.

(** ** What is left to the installed numpy and pandas

    The code does not fix these itself: [np.log2]; the order in which
    [ndarray.argsort], whose default sort is not stable, returns
    positions whose values do not differ ([argsort_tie i j] says that
    position [i] comes before position [j] then); and whether the group
    mean of pandas puts a compensation term that became NaN back to 0,
    as pandas does from version 2.0 on. *)
Record Libs : Type := mkLibs {
  log2 : float -> float;
  argsort_tie : nat -> nat -> bool;
  mean_resets : bool
}.

(** ** Reductions, with pandas' default [skipna=True] *)

Definition dropna (xs : list float) : list float :=
  filter (fun x => negb (is_nan x)) xs.

Definition fsum (xs : list float) : float := fold_left add xs 0.

(** [sum]: the NaN entries are skipped, the empty sum is 0. *)
Definition sum (xs : list float) : float := fsum (dropna xs).

(** One step of pandas' [group_mean], a compensated (Kahan) sum: the
    number of observations, the running sum and the compensation. *)
Definition mean_step (resets : bool) (st : nat * float * float) (x : float)
  : nat * float * float :=
  let '(nobs, sumx, compensation) := st in
  let y := x - compensation in
  let t := sumx + y in
  let c := t - sumx - y in
  (S nobs, t, if resets && is_nan c then 0 else c).

(** [mean] of a group: the compensated sum of the entries that are not
    NaN over their number, NaN when nothing is left to average. *)
Definition mean (resets : bool) (xs : list float) : float :=
  let '(nobs, sumx, _) := fold_left (mean_step resets) (dropna xs) (0%nat, 0, 0) in
  match nobs with
  | O => nan
  | S _ => sumx / F64.of_nat nobs
  end.

(** One step of the running mean and sum of squared deviations pandas'
    [group_var] keeps. *)
Definition var_step (st : nat * float * float) (x : float) : nat * float * float :=
  let '(n, mu, m2) := st in
  let mu' := mu + (x - mu) / F64.of_nat (S n) in
  (S n, mu', m2 + (x - mu') * (x - mu)).

(** [var] with [ddof=1]: NaN for fewer than two observations. *)
Definition var (xs : list float) : float :=
  let '(n, _, m2) := fold_left var_step (dropna xs) (0%nat, 0, 0) in
  if (n <=? 1)%nat then nan else m2 / F64.of_nat (n - 1).

(** [std]: the sample standard deviation. *)
Definition std (xs : list float) : float := sqrt (var xs).

(** ** [groupby(by=classes, axis=1)] *)

(** The group keys: the labels the columns map to, each once, sorted. *)
Definition group_keys (classes : dict string) (cols : list string) : list string :=
  sorted String.ltb
    (nodup string_dec
       (flat_map (fun c => match dict_get classes c with
                           | Some g => [g]
                           | None => []
                           end) cols)).

(** The values of one row that fall in group [g]. *)
Definition group_values (classes : dict string) (cols : list string)
    (g : string) (row : list float) : list float :=
  map snd
    (filter (fun cv => match dict_get classes (fst cv) with
                       | Some g' => String.eqb g' g
                       | None => false
                       end)
       (combine cols row)).

(** [df.groupby(by=classes, axis=1).agg()]: one Series per group key. *)
Definition groupby_agg (agg : list float -> float) (df : DataFrame)
    (classes : dict string) : dict Series :=
  map (fun g =>
         (g, map (fun r => (fst r, agg (group_values classes (columns df) g (snd r))))
               (rows df)))
    (group_keys classes (columns df)).

(** [frame[g]] *)
Definition getcol (frame : dict Series) (g : string) : result Series :=
  match dict_get frame g with
  | Some s => Ok s
  | None => Raise (KeyError g)
  end.

(** [frame.sum(axis=1)]: per row, the sum over the columns. *)
Definition row_sums (df : DataFrame) (classes : dict string)
    (agg : list float -> float) : list float :=
  map (fun r =>
         sum (map (fun g => agg (group_values classes (columns df) g (snd r)))
                (group_keys classes (columns df))))
    (rows df).

(** ** Element-wise Series arithmetic (both operands share their index) *)

Definition series_op (op : float -> float -> float) (a b : Series) : Series :=
  map (fun xy => (fst (fst xy), op (snd (fst xy)) (snd (snd xy)))) (combine a b).

Definition series_map (f : float -> float) (a : Series) : Series :=
  map (fun x => (fst x, f (snd x))) a.

Definition values (s : Series) : list float := map snd s.

(** ** [argsort] and positional selection *)

(** Position [a] comes before position [b]: its value is less in
    numpy's order, or neither value is less and [tie] puts it first. *)
Definition argsort_lt (tie : nat -> nat -> bool) (a b : nat * float) : bool :=
  F64.np_lt (snd a) (snd b)
  || (negb (F64.np_lt (snd b) (snd a)) && tie (fst a) (fst b)).

(** [values.argsort()]: the positions in ascending order of their value,
    NaN last. The default sort of numpy is not stable: where it puts
    positions whose values do not differ is left to [tie]. With
    [Nat.ltb] for [tie] they stay in input order. *)
Definition argsort (tie : nat -> nat -> bool) (vals : list float) : list nat :=
  map fst (sorted (argsort_lt tie) (combine (seq 0 (List.length vals)) vals)).

(** [ser.iloc[positions]] *)
Definition iloc {A : Type} (ser : list A) (positions : list nat) : result (list A) :=
  mapM (getitem ser) positions.

End Pandas.

Import Pandas.

(** * The collaborators outside [gsea.py]

    [gseapy.parser.gsea_cls_parser], [GSEAbase._load_ranking],
    [GSEAbase.load_gmt] and the native kernels [gseapy.gse.prerank_rs] and
    [gseapy.gse.gsea_rs] are called by the code below and taken as
    given. *)

(** [gseapy.gse.Metric] *)
Inductive Metric : Type :=
| Signal2Noise
| AbsSignal2Noise
| Ttest
| RatioOfClasses
| DiffOfClasses
| Log2RatioOfClasses.

(** What a class file or a label vector is handed over as. *)
Inductive cls_source : Type :=
| ClsList (labels : list string)
| ClsFile (path : string).

(** The result object of the native kernels. *)
Record GSEAResult (Summary : Type) : Type := mkGSEAResult {
  summaries : list Summary;
  rankings : list (list float);
  indices : list (list nat)
}.
Arguments mkGSEAResult {Summary} _ _ _.
Arguments summaries {Summary} _.
Arguments rankings {Summary} _.
Arguments indices {Summary} _.

Record Externals (Summary GeneSets : Type) : Type := mkExternals {
  libs : Libs;
    (** numpy and pandas as installed *)
  gsea_cls_parser : cls_source -> result (string * string * list string);
  _load_ranking : Series -> bool -> result Series;
    (** [GSEAbase._load_ranking], a method of the object: for the ranking
        it is handed and the object's [ascending], where it returns a
        one-column ranking *)
  load_gmt : list cell -> GeneSets -> result (dict (list string));
  prerank_rs :
    list cell -> list float -> dict (list string) -> float ->
    Z -> Z -> Z -> Z -> Z -> result (GSEAResult Summary);
    (** genes, values, gmt, weight, min_size, max_size, permutation_num,
        threads, seed *)
  gsea_rs :
    list cell -> list (list float) -> dict (list string) -> list bool ->
    Metric -> float -> Z -> Z -> Z -> Z -> Z -> result (GSEAResult Summary)
    (** genes, rows, gmt, group, method, weight, min_size, max_size,
        permutation_num, threads, seed *)
}.
Arguments libs {Summary GeneSets} _.
Arguments gsea_cls_parser {Summary GeneSets} _ _.
Arguments _load_ranking {Summary GeneSets} _ _ _.
Arguments load_gmt {Summary GeneSets} _ _ _.
Arguments prerank_rs {Summary GeneSets} _ _ _ _ _ _ _ _ _ _.
Arguments gsea_rs {Summary GeneSets} _ _ _ _ _ _ _ _ _ _ _ _.

(** * [class GSEA] *)
Module GSEA.

Local Open Scope string_scope.
Local Open Scope list_scope.
Local Open Scope float_scope.
Local Open Scope py_scope.

(** A column of the expression table as read: numeric (float64, NaN for
    a missing value) or object. *)
Inductive column : Type :=
| NumCol (vals : list float)
| ObjCol (vals : list cell).

(** The table [exprs] once read (lines 75-87): its first column holds
    the gene names. *)
Record RawFrame : Type := mkRawFrame {
  first : string * column;
  rest : list (string * column)
}.

(** The [classes] argument: a dict from sample to group, or something
    for [gsea_cls_parser]. *)
Inductive classes_arg : Type :=
| ClsDict (d : dict string)
| ClsOther (c : cls_source).

Record t (GeneSets : Type) : Type := mk {
  data : RawFrame;
  gene_sets : GeneSets;
  classes : classes_arg;
  permutation_type : string;
  method : string;
  min_size : Z;
  max_size : Z;
  permutation_num : Z;
  weight : float;
  ascending : bool;
  threads : Z;
  seed : Z;
  pheno_pos : string;
  pheno_neg : string
}.
Arguments mk {GeneSets} _ _ _ _ _ _ _ _ _ _ _ _ _ _.
Arguments data {GeneSets} _.
Arguments gene_sets {GeneSets} _.
Arguments classes {GeneSets} _.
Arguments permutation_type {GeneSets} _.
Arguments method {GeneSets} _.
Arguments min_size {GeneSets} _.
Arguments max_size {GeneSets} _.
Arguments permutation_num {GeneSets} _.
Arguments weight {GeneSets} _.
Arguments ascending {GeneSets} _.
Arguments threads {GeneSets} _.
Arguments seed {GeneSets} _.
Arguments pheno_pos {GeneSets} _.
Arguments pheno_neg {GeneSets} _.

(** [GSEA.__init__] (the fields this development follows). *)
Definition init {GeneSets : Type} (data : RawFrame) (gene_sets : GeneSets)
    (classes : classes_arg) (min_size max_size permutation_num : Z)
    (weight : float) (permutation_type method : string) (ascending : bool)
    (threads seed : Z) : t GeneSets :=
  {| data := data;
     gene_sets := gene_sets;
     classes := classes;
     permutation_type := permutation_type;
     method := method;
     min_size := min_size;
     max_size := max_size;
     permutation_num := if (permutation_num >? 0)%Z then permutation_num else 0%Z;
     weight := weight;
     ascending := ascending;
     threads := threads;
     seed := seed;
     pheno_pos := "pos";
     pheno_neg := "neg" |}.

(** The same configuration with another number of threads. *)
Definition with_threads {GeneSets : Type} (self : t GeneSets) (n : Z) : t GeneSets :=
  {| data := data self;
     gene_sets := gene_sets self;
     classes := classes self;
     permutation_type := permutation_type self;
     method := method self;
     min_size := min_size self;
     max_size := max_size self;
     permutation_num := permutation_num self;
     weight := weight self;
     ascending := ascending self;
     threads := n;
     seed := seed self;
     pheno_pos := pheno_pos self;
     pheno_neg := pheno_neg self |}.

(** ** [load_data] *)

Definition cells (c : column) : list cell :=
  match c with
  | NumCol vals => map CNum vals
  | ObjCol vals => vals
  end.

Definition isnull (c : cell) : bool :=
  match c with
  | CStr _ => false
  | CNum x => is_nan x
  | CNone => true
  end.

Definition cell_eqb (a b : cell) : bool :=
  match a, b with
  | CStr s, CStr u => String.eqb s u
  | CNum x, CNum y => (x =? y) || (is_nan x && is_nan y)
  | CNone, CNone => true
  | _, _ => false
  end.

(** [series.duplicated()]: true where the value occurred before. *)
Fixpoint duplicated_from (seen : list cell) (l : list cell) : list bool :=
  match l with
  | [] => []
  | c :: l' => existsb (cell_eqb c) seen :: duplicated_from (c :: seen) l'
  end.

Definition duplicated (l : list cell) : list bool := duplicated_from [] l.

(** Boolean row selection. *)
Definition keep {A : Type} (mask : list bool) (l : list A) : list A :=
  map snd (filter fst (combine mask l)).

Definition keep_col (mask : list bool) (c : column) : column :=
  match c with
  | NumCol vals => NumCol (keep mask vals)
  | ObjCol vals => ObjCol (keep mask vals)
  end.

Definition keep_rows (mask : list bool) (f : RawFrame) : RawFrame :=
  {| first := (fst (first f), keep_col mask (snd (first f)));
     rest := map (fun c => (fst c, keep_col mask (snd c))) (rest f) |}.

Definition all_columns (f : RawFrame) : list column :=
  snd (first f) :: map snd (rest f).

(** [exprs.isnull().any().sum() > 0] *)
Definition has_null (f : RawFrame) : bool :=
  existsb (fun c => existsb isnull (cells c)) (all_columns f).

Definition zip_with {A B C : Type} (f : A -> B -> C) (a : list A) (b : list B)
  : list C :=
  map (fun p => f (fst p) (snd p)) (combine a b).

(** The rows whose every cell is null. *)
Definition all_null (f : RawFrame) : list bool :=
  fold_left (fun m c => zip_with andb m (map isnull (cells c)))
    (map snd (rest f)) (map isnull (cells (snd (first f)))).

(** [exprs.dropna(how="all")] *)
Definition dropna_all (f : RawFrame) : RawFrame :=
  keep_rows (map negb (all_null f)) f.

Definition fill_cell (c : cell) : cell := if isnull c then CNum 0 else c.

Definition is_number (c : cell) : bool :=
  match c with
  | CNum _ => true
  | CStr _ | CNone => false
  end.

Definition number_of (c : cell) : float :=
  match c with
  | CNum x => x
  | CStr _ | CNone => 0
  end.

(** [fillna(0)] on one column. After the fill pandas (before 3.0) looks
    for a better dtype of an object column: one whose cells are all
    numbers by then becomes a numeric column, which [select_dtypes]
    keeps. *)
Definition fill_col (c : column) : column :=
  match c with
  | NumCol vals => NumCol (map (fun x => if is_nan x then 0 else x) vals)
  | ObjCol vals =>
      let filled := map fill_cell vals in
      match filled with
      | [] => ObjCol []
      | _ :: _ =>
          if forallb is_number filled then NumCol (map number_of filled)
          else ObjCol filled
      end
  end.

(** [exprs.fillna(0)] *)
Definition fillna0 (f : RawFrame) : RawFrame :=
  {| first := (fst (first f), fill_col (snd (first f)));
     rest := map (fun c => (fst c, fill_col (snd c))) (rest f) |}.

(** [exprs.select_dtypes(include=[np.number])], after the first column
    became the index. *)
Definition select_number (cols : list (string * column))
  : list (string * list float) :=
  flat_map (fun c => match snd c with
                     | NumCol vals => [(fst c, vals)]
                     | ObjCol _ => []
                     end) cols.

(** The rows of a table given by its columns, for [n] index labels. *)
Fixpoint transpose {A : Type} (n : nat) (cols : list (list A)) : list (list A) :=
  match cols with
  | [] => repeat [] n
  | c :: cs => zip_with cons c (transpose n cs)
  end.

(** Lines 89-107: duplicates and missing values are dealt with, the
    numeric columns are kept, and a numeric description column is
    dropped. A [None] for [cls_vec] fails at [len(cls_vec)]. *)
Definition clean (exprs : RawFrame) (cls_vec : option (list string))
  : result DataFrame :=
  let dup := duplicated (cells (snd (first exprs))) in
  let exprs := if existsb id dup then keep_rows (map negb dup) exprs else exprs in
  let exprs := if has_null exprs then fillna0 (dropna_all exprs) else exprs in
  let index := cells (snd (first exprs)) in
  let df := select_number (rest exprs) in
  match cls_vec with
  | None => Raise TypeError
  | Some cls_vec =>
      let df := if (S (List.length cls_vec) =? List.length df)%nat
                then tl df else df in
      Ok {| columns := map fst df;
            rows := combine index (transpose (List.length index) (map snd df)) |}
  end.

Definition epsilon : float := 1e-08.

(** [load_data]: the cleaned table, without the genes whose group
    standard deviations do not sum to a positive value, shifted by
    [1e-08]; and the dict from column to class. *)
Definition load_data (exprs : RawFrame) (cls_vec : option (list string))
  : result (DataFrame * dict string) :=
  df <- clean exprs cls_vec ;;
  match cls_vec with
  | None => Raise TypeError
  | Some cls_vec =>
      let cls_dict := dict_of (combine (columns df) cls_vec) in
      let df_std_sum := row_sums df cls_dict std in
      let df := {| columns := columns df;
                   rows := keep (map (fun s => 0 <? s) df_std_sum) (rows df) |} in
      let df := {| columns := columns df;
                   rows := map (fun r => (fst r, map (fun x => x + epsilon) (snd r)))
                             (rows df) |} in
      Ok (df, cls_dict)
  end.

(** ** [calculate_metric] *)

(** The chain of comparisons on the method name (lines 188-204). *)
Definition metric_of_name (method : string) : option Metric :=
  if str_in method ["signal_to_noise"; "s2n"] then Some Signal2Noise
  else if str_in method ["abs_signal_to_noise"; "abs_s2n"] then Some AbsSignal2Noise
  else if String.eqb method "t_test" then Some Ttest
  else if String.eqb method "ratio_of_classes" then Some RatioOfClasses
  else if String.eqb method "diff_of_classes" then Some DiffOfClasses
  else if String.eqb method "log2_ratio_of_classes" then Some Log2RatioOfClasses
  else None.

Definition calculate_metric (lib : Libs) (df : DataFrame)
    (method pos neg : string) (classes : dict string) (ascending : bool)
  : result (list nat * Series) :=
  let df_mean := groupby_agg (mean (mean_resets lib)) df classes in
  let df_std := groupby_agg std df classes in
  let class_values := Counter (dict_values classes) in
  let n_pos := F64.of_nat (counter_get class_values pos) in
  let n_neg := F64.of_nat (counter_get class_values neg) in
  ser <-
    match metric_of_name method with
    | Some Signal2Noise =>
        mp <- getcol df_mean pos ;; mn <- getcol df_mean neg ;;
        sp <- getcol df_std pos ;; sn <- getcol df_std neg ;;
        Ok (series_op div (series_op sub mp mn) (series_op add sp sn))
    | Some AbsSignal2Noise =>
        mp <- getcol df_mean pos ;; mn <- getcol df_mean neg ;;
        sp <- getcol df_std pos ;; sn <- getcol df_std neg ;;
        Ok (series_map abs
              (series_op div (series_op sub mp mn) (series_op add sp sn)))
    | Some Ttest =>
        mp <- getcol df_mean pos ;; mn <- getcol df_mean neg ;;
        sp <- getcol df_std pos ;; sn <- getcol df_std neg ;;
        Ok (series_op div (series_op sub mp mn)
              (series_map sqrt
                 (series_op add
                    (series_map (fun s => s * s / n_pos) sp)
                    (series_map (fun s => s * s / n_neg) sn))))
    | Some RatioOfClasses =>
        mp <- getcol df_mean pos ;; mn <- getcol df_mean neg ;;
        Ok (series_op div mp mn)
    | Some DiffOfClasses =>
        mp <- getcol df_mean pos ;; mn <- getcol df_mean neg ;;
        Ok (series_op sub mp mn)
    | Some Log2RatioOfClasses =>
        mp <- getcol df_mean pos ;; mn <- getcol df_mean neg ;;
        Ok (series_map (log2 lib) (series_op div mp mn))
    | None => Raise (LookupError method)
    end ;;
  let ser_ind := argsort (argsort_tie lib) (values ser) in
  ser <- iloc ser ser_ind ;;
  if ascending then Ok (ser_ind, ser) else Ok (rev ser_ind, rev ser).

(** ** [load_classes] *)

(** The loop over the classes in order of their sample count. *)
Definition check_sizes (items : list (string * nat)) : result (list string) :=
  mapM (fun cv => if (snd cv <? 3)%nat
                  then Raise (GroupTooSmall (fst cv) (snd cv))
                  else Ok (fst cv))
    items.

(** [load_classes]: the positive and the negative phenotype it stores,
    and the class vector it returns ([None] for a dict). *)
Definition load_classes
    (gsea_cls_parser : cls_source -> result (string * string * list string))
    (classes : classes_arg)
  : result (string * string * option (list string)) :=
  match classes with
  | ClsDict d =>
      let class_values := Counter (dict_values d) in
      s <- check_sizes (sorted (fun a b => (snd a <? snd b)%nat) class_values) ;;
      pos <- getitem s 0 ;;
      neg <- getitem s 1 ;;
      Ok (pos, neg, None)
  | ClsOther c =>
      r <- gsea_cls_parser c ;;
      let '(pos, neg, cls_vector) := r in
      Ok (pos, neg, Some cls_vector)
  end.

(** ** [run] *)

(** The method name as [run] reads it (lines 238-252). *)
Definition run_metric (method : string) : result Metric :=
  let m := lower method in
  if str_in m ["signal_to_noise"; "s2n"] then Ok Signal2Noise
  else if str_in m ["s2n"; "abs_signal_to_noise"; "abs_s2n"] then Ok AbsSignal2Noise
  else if String.eqb m "t_test" then Ok Ttest
  else if String.eqb m "ratio_of_classes" then Ok RatioOfClasses
  else if String.eqb m "diff_of_classes" then Ok DiffOfClasses
  else if String.eqb m "log2_ratio_of_classes" then Ok Log2RatioOfClasses
  else Raise (MethodNotSupported m).

(** [run], up to the result of the native kernel (the report and the
    figures that follow are not modelled). *)
Definition run {Summary GeneSets : Type} (ext : Externals Summary GeneSets)
    (self : t GeneSets) : result (GSEAResult Summary) :=
  method <- run_metric (method self) ;;
  assert (str_in (permutation_type self) ["phenotype"; "gene_set"]) ;;;
  assert (min_size self <=? max_size self)%Z ;;;
  lc <- load_classes (gsea_cls_parser ext) (classes self) ;;
  let '(pheno_pos, pheno_neg, cls_vector) := lc in
  ld <- load_data (data self) cls_vector ;;
  let '(dat, cls_dict) := ld in
  assert (1 <? List.length (rows dat))%nat ;;;
  gmt <- load_gmt ext (map fst (rows dat)) (gene_sets self) ;;
  if String.eqb (permutation_type self) "gene_set" then
    im <- calculate_metric (libs ext) dat (GSEA.method self) pheno_pos pheno_neg
            cls_dict (ascending self) ;;
    let '(idx, dat2) := im in
    gsum <- prerank_rs ext (map fst dat2) (values dat2) gmt (weight self)
              (min_size self) (max_size self) (permutation_num self)
              (threads self) (seed self) ;;
    match indices gsum with
    | [] => Raise IndexError
    | _ :: others =>
        Ok {| summaries := summaries gsum;
              rankings := rankings gsum;
              indices := idx :: others |}
    end
  else
    match cls_vector with
    | None => Raise TypeError
    | Some cls_vector =>
        let group := map (fun x => String.eqb x pheno_pos) cls_vector in
        gsea_rs ext (map fst (rows dat)) (map snd (rows dat)) gmt group method
          (weight self) (min_size self) (max_size self) (permutation_num self)
          (threads self) (seed self)
    end.

End GSEA.

(** * [class Prerank] *)
Module Prerank.

Local Open Scope py_scope.

(** The fields this development follows; [rnk] is the ranking as it was
    given, here a Series. *)
Record t (GeneSets : Type) : Type := mk {
  rnk : Series;
  gene_sets : GeneSets;
  min_size : Z;
  max_size : Z;
  permutation_num : Z;
  weight : float;
  ascending : bool;
  threads : Z;
  seed : Z
}.
Arguments mk {GeneSets} _ _ _ _ _ _ _ _ _.
Arguments rnk {GeneSets} _.
Arguments gene_sets {GeneSets} _.
Arguments min_size {GeneSets} _.
Arguments max_size {GeneSets} _.
Arguments permutation_num {GeneSets} _.
Arguments weight {GeneSets} _.
Arguments ascending {GeneSets} _.
Arguments threads {GeneSets} _.
Arguments seed {GeneSets} _.

(** [Prerank.__init__] *)
Definition init {GeneSets : Type} (rnk : Series) (gene_sets : GeneSets)
    (min_size max_size permutation_num : Z) (weight : float) (ascending : bool)
    (threads seed : Z) : t GeneSets :=
  {| rnk := rnk;
     gene_sets := gene_sets;
     min_size := min_size;
     max_size := max_size;
     permutation_num := if (permutation_num >? 0)%Z then permutation_num else 0%Z;
     weight := weight;
     ascending := ascending;
     threads := threads;
     seed := seed |}.

(** The same configuration with another number of threads. *)
Definition with_threads {GeneSets : Type} (self : t GeneSets) (n : Z) : t GeneSets :=
  {| rnk := rnk self;
     gene_sets := gene_sets self;
     min_size := min_size self;
     max_size := max_size self;
     permutation_num := permutation_num self;
     weight := weight self;
     ascending := ascending self;
     threads := n;
     seed := seed self |}.

(** [load_ranking] (lines 380-420) where [_load_ranking] returns a
    Series: the cleaning of lines 382-418 is for a ranking of several
    columns, a DataFrame, which this development does not follow. *)
Definition load_ranking {Summary GeneSets : Type} (ext : Externals Summary GeneSets)
    (self : t GeneSets) : result Series :=
  _load_ranking ext (rnk self) (ascending self).

(** [Prerank.run] on a one-column ranking, for which the kernel is
    [prerank_rs] (line 445), up to the result of the kernel. *)
Definition run {Summary GeneSets : Type} (ext : Externals Summary GeneSets)
    (self : t GeneSets) : result (GSEAResult Summary) :=
  assert (min_size self <=? max_size self)%Z ;;;
  dat2 <- load_ranking ext self ;;
  assert (1 <? List.length dat2)%nat ;;;
  gmt <- load_gmt ext (map fst dat2) (gene_sets self) ;;
  prerank_rs ext (map fst dat2) (values dat2) gmt (weight self)
    (min_size self) (max_size self) (permutation_num self)
    (threads self) (seed self).

End Prerank.

(** * The native kernel, from its specification

    [gseapy.gse] is not Python code of this file set: its permutation
    engine is modelled from the design it is specified by. *)
Module Native.

(** Modelled from the spec: the numeric routines of [gseapy.gse] that the
    permutation engine drives (the enrichment score of a gene set against
    a ranking, the generator derived from the seed and the permutation
    index, its draws, the ranking metric of the kernel, and the
    significance normaliser over the whole batch). *)
Record Engine (Summary : Type) : Type := mkEngine {
  rng : Type;
  rng_seed : Z -> nat -> rng;
  sample : rng -> nat -> list cell -> list cell;
  shuffle : rng -> list bool -> list bool;
  enrichment_score : list cell -> list float -> list cell -> float -> float;
  ranking_metric : Metric -> list (list float) -> list bool -> list float;
  normalize : list (string * float * list float) -> list Summary
}.
Arguments rng {Summary} _.
Arguments rng_seed {Summary} _ _ _.
Arguments sample {Summary} _ _ _ _.
Arguments shuffle {Summary} _ _ _.
Arguments enrichment_score {Summary} _ _ _ _ _.
Arguments ranking_metric {Summary} _ _ _ _.
Arguments normalize {Summary} _ _.

(** A cell of the null score table: gene set index and permutation
    index. *)
Definition task : Type := (nat * nat)%type.

Definition task_eqb (a b : task) : bool :=
  (fst a =? fst b)%nat && (snd a =? snd b)%nat.

(** Modelled from the spec: the pool of workers: each has the cells it
    owns still to compute, and the table holds the cells written so
    far. *)
Record pool : Type := mkPool {
  queues : list (list task);
  table : list (task * float)
}.

(** Modelled from the spec: the cells are dealt to [thread_count] workers
    (at least one), so that every cell has one owner. *)
Fixpoint deal (workers : list (list task)) (cells : list task) : list (list task) :=
  match cells with
  | [] => workers
  | c :: cells' =>
      match workers with
      | [] => []
      | w :: ws => deal (ws ++ [c :: w]) cells'
      end
  end.

Definition assign (thread_count : nat) (cells : list task) : list (list task) :=
  deal (repeat [] (Nat.max thread_count 1)) cells.

(** Modelled from the spec: worker [w] computes the next cell it owns and
    writes it to the table; a worker with nothing left does nothing. *)
Fixpoint take (w : nat) (qs : list (list task)) : option (task * list (list task)) :=
  match qs, w with
  | [], _ => None
  | [] :: _, O => None
  | (c :: q) :: qs', O => Some (c, q :: qs')
  | q :: qs', S w' =>
      match take w' qs' with
      | Some (c, qs'') => Some (c, q :: qs'')
      | None => None
      end
  end.

Definition step (f : task -> float) (p : pool) (w : nat) : pool :=
  match take w (queues p) with
  | Some (c, qs) => {| queues := qs; table := (c, f c) :: table p |}
  | None => p
  end.

(** Modelled from the spec: the barrier before the normaliser: every
    worker finishes what it still owns. *)
Definition join (f : task -> float) (p : pool) : list (task * float) :=
  map (fun c => (c, f c)) (List.concat (queues p)) ++ table p.

(** Modelled from the spec: a run of the pool under a schedule, the order
    in which the workers happen to take their steps. *)
Definition run_pool (f : task -> float) (thread_count : nat) (schedule : list nat)
    (cells : list task) : list (task * float) :=
  join f (fold_left (step f) schedule {| queues := assign thread_count cells; table := [] |}).

Fixpoint lookup (tbl : list (task * float)) (c : task) : float :=
  match tbl with
  | [] => nan
  | (c', x) :: tbl' => if task_eqb c' c then x else lookup tbl' c
  end.

(** Modelled from the spec: the final merge: the null scores of gene set
    [g], by permutation index. *)
Definition null_scores (tbl : list (task * float)) (nperm g : nat) : list float :=
  map (fun k => lookup tbl (g, k)) (seq 0 nperm).

(** Modelled from the spec: a gene set survives when the number of its
    members in the ranking lies between [min_size] and [max_size]. *)
Definition matched (genes : list cell) (members : list string) : list cell :=
  filter (fun m => existsb (GSEA.cell_eqb m) genes) (map CStr members).

Definition surviving (genes : list cell) (gmt : dict (list string))
    (min_size max_size : Z) : list (string * list cell) :=
  filter (fun s => let n := Z.of_nat (List.length (snd s)) in
                   (min_size <=? n)%Z && (n <=? max_size)%Z)
    (map (fun s => (fst s, matched genes (snd s))) gmt).

Definition cells_of (nsets nperm : nat) : list task :=
  list_prod (seq 0 nsets) (seq 0 nperm).

(** What holds of the pool throughout a run: every cell written holds
    its own score, and no cell is lost. *)
Definition sound (f : task -> float) (cells : list task) (p : pool) : Prop :=
  (forall c x, In (c, x) (table p) -> x = f c) /\
  (forall c, In c cells ->
             In c (List.concat (queues p)) \/ In c (map fst (table p))).

Section Kernels.

Context {Summary : Type} (E : Engine Summary).
Variable schedule : list nat.

(** Modelled from the spec: gene-set permutation: the ranking is fixed,
    and the null score of a cell is the enrichment score of a random
    subset, as large as the matched set, drawn with the generator of its
    permutation index. *)
Definition prerank_rs (genes : list cell) (vals : list float)
    (gmt : dict (list string)) (weight : float)
    (min_size max_size permutation_num thread_count seed : Z)
  : result (GSEAResult Summary) :=
  let sets := surviving genes gmt min_size max_size in
  let nperm := Z.to_nat permutation_num in
  let null (c : task) :=
    let size := List.length (snd (nth (fst c) sets (EmptyString, []))) in
    enrichment_score E genes vals
      (sample E (rng_seed E seed (snd c)) size genes) weight in
  let tbl := run_pool null (Z.to_nat thread_count) schedule
               (cells_of (List.length sets) nperm) in
  Ok {| summaries :=
          normalize E
            (map (fun gs => (fst (snd gs),
                             enrichment_score E genes vals (snd (snd gs)) weight,
                             null_scores tbl nperm (fst gs)))
               (combine (seq 0 (List.length sets)) sets));
        rankings := [vals];
        indices := [seq 0 (List.length genes)] |}.

(** Modelled from the spec: phenotype permutation: the labels are
    shuffled with the generator of the permutation index, the ranking is
    computed again, and every gene set is scored against it. *)
Definition gsea_rs (genes : list cell) (data : list (list float))
    (gmt : dict (list string)) (group : list bool) (method : Metric)
    (weight : float) (min_size max_size permutation_num thread_count seed : Z)
  : result (GSEAResult Summary) :=
  let sets := surviving genes gmt min_size max_size in
  let nperm := Z.to_nat permutation_num in
  let score (labels : list bool) (members : list cell) :=
    let metric := ranking_metric E method data labels in
    let order := argsort Nat.ltb metric in
    enrichment_score E
      (map (fun i => nth i genes CNone) (rev order))
      (map (fun i => nth i metric nan) (rev order)) members weight in
  let null (c : task) :=
    score (shuffle E (rng_seed E seed (snd c)) group)
      (snd (nth (fst c) sets (EmptyString, []))) in
  let tbl := run_pool null (Z.to_nat thread_count) schedule
               (cells_of (List.length sets) nperm) in
  let metric := ranking_metric E method data group in
  let order := rev (argsort Nat.ltb metric) in
  Ok {| summaries :=
          normalize E
            (map (fun gs => (fst (snd gs), score group (snd (snd gs)),
                             null_scores tbl nperm (fst gs)))
               (combine (seq 0 (List.length sets)) sets));
        rankings := [map (fun i => nth i metric nan) order];
        indices := [order] |}.

End Kernels.

(** The collaborators of a run whose kernels are the modelled ones, under
    a schedule. *)
Definition externals {Summary GeneSets : Type} (E : Engine Summary)
    (schedule : list nat) (lib : Libs)
    (gsea_cls_parser : cls_source -> result (string * string * list string))
    (load_ranking : Series -> bool -> result Series)
    (load_gmt : list cell -> GeneSets -> result (dict (list string)))
  : Externals Summary GeneSets :=
  @mkExternals Summary GeneSets lib gsea_cls_parser load_ranking load_gmt
    (prerank_rs E schedule) (gsea_rs E schedule).

End Native.

(** * The statements of the specification *)
Module Spec.

Local Open Scope string_scope.
Local Open Scope list_scope.
Local Open Scope float_scope.

(** The table of ranking metrics (section 4.1), over the group means,
    the group standard deviations and the group sizes of one gene. *)
Definition metric_formula (log2 : float -> float) (m : Metric)
    (mean_pos mean_neg std_pos std_neg n_pos n_neg : float) : float :=
  match m with
  | Signal2Noise => (mean_pos - mean_neg) / (std_pos + std_neg)
  | AbsSignal2Noise => abs ((mean_pos - mean_neg) / (std_pos + std_neg))
  | Ttest =>
      (mean_pos - mean_neg)
      / sqrt (std_pos * std_pos / n_pos + std_neg * std_neg / n_neg)
  | RatioOfClasses => mean_pos / mean_neg
  | DiffOfClasses => mean_pos - mean_neg
  | Log2RatioOfClasses => log2 (mean_pos / mean_neg)
  end.

(** The six metric names of the table. *)
Definition recognized : list (string * Metric) :=
  [ ("signal_to_noise", Signal2Noise);
    ("abs_signal_to_noise", AbsSignal2Noise);
    ("t_test", Ttest);
    ("ratio_of_classes", RatioOfClasses);
    ("diff_of_classes", DiffOfClasses);
    ("log2_ratio_of_classes", Log2RatioOfClasses) ].

(** The names the code takes for a metric: the six, and the two short
    forms of the docstring. *)
Definition metric_names : list (string * Metric) :=
  recognized ++ [ ("s2n", Signal2Noise); ("abs_s2n", AbsSignal2Noise) ].

(** The values of a gene in the samples of group [g]: of the values of
    its row, those under a column that the class dict gives the class
    [g], in the order of the columns. *)
Inductive group_samples (classes : dict string) (g : string)
  : list string -> list float -> list float -> Prop :=
| samples_end_cols (row : list float) : group_samples classes g [] row []
| samples_end_row (cols : list string) : group_samples classes g cols [] []
| samples_in (c : string) (cols : list string) (x : float) (row xs : list float) :
    dict_get classes c = Some g ->
    group_samples classes g cols row xs ->
    group_samples classes g (c :: cols) (x :: row) (x :: xs)
| samples_out (c : string) (cols : list string) (x : float) (row xs : list float) :
    dict_get classes c <> Some g ->
    group_samples classes g cols row xs ->
    group_samples classes g (c :: cols) (x :: row) xs.

(** The samples the class dict names are columns of the frame, and no
    sample or column is named twice: what holds of the dict [load_data]
    builds from a frame with distinct column names. *)
Definition samples_are_columns (classes : dict string) (df : DataFrame) : Prop :=
  NoDup (map fst classes) /\ NoDup (columns df) /\
  incl (map fst classes) (columns df).

(** The score the table gives the gene in [row]. *)
Definition gene_score (lib : Libs) (m : Metric) (classes : dict string)
    (cols : list string) (pos neg : string) (row : list float) : float :=
  metric_formula (log2 lib) m
    (mean (mean_resets lib) (group_values classes cols pos row))
    (mean (mean_resets lib) (group_values classes cols neg row))
    (std (group_values classes cols pos row))
    (std (group_values classes cols neg row))
    (F64.of_nat (count_occ string_dec (dict_values classes) pos))
    (F64.of_nat (count_occ string_dec (dict_values classes) neg)).

(** No score is less than the one before it (ascending), or than the one
    after it (descending), in the order numpy sorts by. *)
Definition sorted_ascending (scores : list float) : Prop :=
  Sorted (fun a b => F64.np_lt b a = false) scores.

Definition sorted_descending (scores : list float) : Prop :=
  Sorted (fun a b => F64.np_lt a b = false) scores.

(** Two scores tie when neither is less than the other. *)
Definition tied (x y : float) : Prop :=
  F64.np_lt x y = false /\ F64.np_lt y x = false.

(** Genes with tied scores come in the order they had in the input:
    [ser_ind] lists the input positions, [scores] their scores. *)
Definition ties_keep_input_order (ser_ind : list nat) (scores : list float) : Prop :=
  forall p q i j x y,
    (p < q)%nat ->
    nth_error ser_ind p = Some i -> nth_error ser_ind q = Some j ->
    nth_error scores p = Some x -> nth_error scores q = Some y ->
    tied x y -> (i < j)%nat.

(** The term of the group standard deviations a metric divides by, for
    the metrics that have one. *)
Definition std_denominator (m : Metric) (std_pos std_neg n_pos n_neg : float)
  : option float :=
  match m with
  | Signal2Noise | AbsSignal2Noise => Some (std_pos + std_neg)
  | Ttest => Some (sqrt (std_pos * std_pos / n_pos + std_neg * std_neg / n_neg))
  | RatioOfClasses | DiffOfClasses | Log2RatioOfClasses => None
  end.


(** The scores of all genes, in input order. *)
Definition scores (lib : Libs) (m : Metric) (df : DataFrame)
    (classes : dict string) (pos neg : string) : Series :=
  map (fun r => (fst r, gene_score lib m classes (columns df) pos neg (snd r)))
    (rows df).

(** The ranking of a list of scores: positions and entries, ascending,
    or the same reversed. *)
Definition ranking_of (lib : Libs) (ser : Series) (ascending : bool)
  : list nat * Series :=
  let ser_ind := argsort (argsort_tie lib) (values ser) in
  let sorted_ser := map (fun i => nth i ser (CNone, nan)) ser_ind in
  if ascending then (ser_ind, sorted_ser) else (rev ser_ind, rev sorted_ser).

(** The enumerated scores, sorted: what [argsort] works on. *)
Definition enumerated (lib : Libs) (ser : Series) : list (nat * float) :=
  sorted (argsort_lt (argsort_tie lib))
    (combine (seq 0 (List.length (values ser))) (values ser)).

(** Label [a] occurs in [xs] before any occurrence of [b]. *)
Definition occurs_first (xs : list string) (a b : string) : Prop :=
  exists before after,
    xs = (before ++ a :: after)%list /\ ~ In a before /\ ~ In b before.

(** The number of samples of class [c] in a class dict. *)
Definition group_size (d : dict string) (c : string) : nat :=
  count_occ string_dec (dict_values d) c.

(** The classes in the order the loop of [load_classes] visits them. *)
Definition by_count (d : dict string) : list (string * nat) :=
  sorted (fun a b => (snd a <? snd b)%nat) (Counter (dict_values d)).

(** The sum over the classes of the standard deviations of one gene's
    values: what [load_data] filters on. *)
Definition std_sum (classes : dict string) (cols : list string) (row : list float)
  : float :=
  sum (map (fun g => std (group_values classes cols g row)) (group_keys classes cols)).

(** The shift [load_data] applies to a row. *)
Definition shifted (row : list float) : list float :=
  map (fun x => (x + GSEA.epsilon)%float) row.

(** No value of the frame is NaN. *)
Definition nan_free (df : DataFrame) : Prop :=
  Forall (fun r => Forall (fun x => is_nan x = false) (snd r)) (rows df).

(** Every numeric column is free of NaN. *)
Definition numbers_clean (f : GSEA.RawFrame) : Prop :=
  forall name vals, In (name, GSEA.NumCol vals) (GSEA.rest f) ->
                    Forall (fun x => is_nan x = false) vals.

(** The table after the duplicates and the missing values are dealt
    with (lines 89-99). *)
Definition prepared (exprs : GSEA.RawFrame) : GSEA.RawFrame :=
  let dup := GSEA.duplicated (GSEA.cells (snd (GSEA.first exprs))) in
  let exprs := if existsb id dup
               then GSEA.keep_rows (map negb dup) exprs else exprs in
  if GSEA.has_null exprs then GSEA.fillna0 (GSEA.dropna_all exprs) else exprs.

End Spec.


(** * Concrete inputs *)
Module Fixture.

Local Open Scope string_scope.
Local Open Scope list_scope.
Local Open Scope float_scope.

(** Four genes over two samples of class A and two of class B; the genes
    a, b and d have the same difference of class means. *)
Definition df_ties : DataFrame :=
  {| columns := ["s1"; "s2"; "s3"; "s4"];
     rows := [ (CStr "a", [1; 3; 1; 1]);
               (CStr "b", [2; 2; 1; 1]);
               (CStr "c", [5; 5; 1; 1]);
               (CStr "d", [0; 4; 1; 1]) ] |}.

Definition classes_ties : dict string :=
  [("s1", "A"); ("s2", "A"); ("s3", "B"); ("s4", "B")].

(** Two genes over three samples of each class; the values of g1 differ
    by less than the shift of [load_data] can carry. *)
Definition raw_tiny : GSEA.RawFrame :=
  {| GSEA.first := ("NAME", GSEA.ObjCol [CStr "g1"; CStr "g2"]);
     GSEA.rest :=
       [ ("s1", GSEA.NumCol [0; 1]);
         ("s2", GSEA.NumCol [0; 2]);
         ("s3", GSEA.NumCol [1e-30; 3]);
         ("s4", GSEA.NumCol [0; 4]);
         ("s5", GSEA.NumCol [0; 5]);
         ("s6", GSEA.NumCol [0; 7]) ] |}.

Definition cls_tiny : list string := ["A"; "A"; "A"; "B"; "B"; "B"].

(** The same table with a missing value in each gene. *)
Definition raw_missing : GSEA.RawFrame :=
  {| GSEA.first := ("NAME", GSEA.ObjCol [CStr "g1"; CStr "g2"]);
     GSEA.rest :=
       [ ("s1", GSEA.NumCol [nan; 1]);
         ("s2", GSEA.NumCol [2; 2]);
         ("s3", GSEA.NumCol [3; 3]);
         ("s4", GSEA.NumCol [4; nan]);
         ("s5", GSEA.NumCol [6; 5]);
         ("s6", GSEA.NumCol [9; 7]) ] |}.

(** Class dicts: three samples each of A and B, in both orders; three
    classes; a class of two samples. *)
Definition dict_AB : dict string :=
  [("s1", "A"); ("s2", "A"); ("s3", "A"); ("s4", "B"); ("s5", "B"); ("s6", "B")].

Definition dict_BA : dict string :=
  [("s1", "B"); ("s2", "B"); ("s3", "B"); ("s4", "A"); ("s5", "A"); ("s6", "A")].

Definition dict_ABC : dict string :=
  [("s1", "A"); ("s2", "A"); ("s3", "A"); ("s4", "B"); ("s5", "B"); ("s6", "B");
   ("s7", "C"); ("s8", "C"); ("s9", "C"); ("s10", "C")].

Definition dict_small : dict string :=
  [("s1", "A"); ("s2", "A"); ("s3", "A"); ("s4", "B"); ("s5", "B")].

(** numpy and pandas with an [argsort] that leaves equal values in
    input order, as an insertion sort does, the identity for [log2], and
    the group mean of pandas 2. *)
Definition lib : Libs :=
  {| log2 := fun x => x; argsort_tie := Nat.ltb; mean_resets := true |}.

(** The class dict of [df_ties] with a fifth sample of class A that is
    no column of the frame. *)
Definition classes_extra : dict string :=
  [("s1", "A"); ("s2", "A"); ("s3", "B"); ("s4", "B"); ("s5", "A")].

(** Collaborators to run the pipeline with: a parser that takes the two
    labels of a label vector in order of appearance, a loader that takes
    a ranking as it is given, a gene-set loader that returns one set,
    and an engine whose scores are all zero. *)
Definition cls_parser (c : cls_source)
  : result (string * string * list string) :=
  match c with
  | ClsList labels =>
      match first_seen [] labels with
      | [a; b] => Ok (a, b, labels)
      | _ => Raise ParserError
      end
  | ClsFile _ => Raise ParserError
  end.

Definition engine : Native.Engine string :=
  {| Native.rng := nat;
     Native.rng_seed := fun _ k => k;
     Native.sample := fun _ n genes => firstn n genes;
     Native.shuffle := fun _ group => group;
     Native.enrichment_score := fun _ _ _ _ => 0;
     Native.ranking_metric := fun _ data _ => map (fun r => hd 0 r) data;
     Native.normalize := fun batch => map (fun b => fst (fst b)) batch |}.

Definition ext (schedule : list nat) : Externals string unit :=
  Native.externals engine schedule lib cls_parser (fun rnk _ => Ok rnk)
    (fun _ _ => Ok [("SET", ["g1"; "g2"])]).

(** A phenotype run on [raw_tiny] that asks for the t statistic in upper
    case. *)
Definition gsea_upper : GSEA.t unit :=
  GSEA.init raw_tiny tt (GSEA.ClsOther (ClsList cls_tiny)) 1 500 10 1
    "phenotype" "T_TEST" false 4 123.

(** A run on [raw_tiny] with a class file, which [cls_parser] does not
    read. *)
Definition gsea_cls_file : GSEA.t unit :=
  GSEA.init raw_tiny tt (GSEA.ClsOther (ClsFile "classes.cls")) 1 500 10 1
    "phenotype" "t_test" false 4 123.

(** A run on [raw_tiny] with a class dict and a method. *)
Definition gsea_dict (d : dict string) (method : string) : GSEA.t unit :=
  GSEA.init raw_tiny tt (GSEA.ClsDict d) 1 500 10 1 "phenotype" method false 4 123.

(** What [load_data] returns on [raw_tiny]: every value of g1 is the
    shift itself. *)
Definition df_tiny : DataFrame :=
  {| columns := ["s1"; "s2"; "s3"; "s4"; "s5"; "s6"];
     rows :=
       [ (CStr "g1", [1e-08; 1e-08; 1e-08; 1e-08; 1e-08; 1e-08]);
         (CStr "g2",
          [1.0000000099999999; 2.0000000099999999; 3.0000000099999999;
           4.0000000099999999; 5.0000000099999999; 7.0000000099999999]) ] |}.

(** What [load_data] returns on [raw_missing]. *)
Definition df_missing : DataFrame :=
  {| columns := ["s1"; "s2"; "s3"; "s4"; "s5"; "s6"];
     rows :=
       [ (CStr "g1",
          [1e-08; 2.0000000099999999; 3.0000000099999999;
           4.0000000099999999; 6.0000000099999999; 9.0000000100000008]);
         (CStr "g2",
          [1.0000000099999999; 2.0000000099999999; 3.0000000099999999;
           1e-08; 5.0000000099999999; 7.0000000099999999]) ] |}.

(** A table whose first gene has the same value in every sample. *)
Definition raw_flat : GSEA.RawFrame :=
  {| GSEA.first := ("NAME", GSEA.ObjCol [CStr "g1"; CStr "g2"]);
     GSEA.rest :=
       [ ("s1", GSEA.NumCol [5; 1]);
         ("s2", GSEA.NumCol [5; 2]);
         ("s3", GSEA.NumCol [5; 3]);
         ("s4", GSEA.NumCol [5; 4]);
         ("s5", GSEA.NumCol [5; 5]);
         ("s6", GSEA.NumCol [5; 7]) ] |}.


(** A table in which the gene name g1 comes twice. *)
Definition raw_dup : GSEA.RawFrame :=
  {| GSEA.first := ("NAME", GSEA.ObjCol [CStr "g1"; CStr "g2"; CStr "g1"]);
     GSEA.rest :=
       [ ("s1", GSEA.NumCol [1; 1; 9]);
         ("s2", GSEA.NumCol [2; 2; 8]);
         ("s3", GSEA.NumCol [4; 3; 6]);
         ("s4", GSEA.NumCol [4; 4; 3]);
         ("s5", GSEA.NumCol [6; 5; 2]);
         ("s6", GSEA.NumCol [9; 7; 1]) ] |}.

(** A gene-set run on [raw_tiny] that asks for the t statistic in upper
    case. *)
Definition gsea_gene_set_upper : GSEA.t unit :=
  GSEA.init raw_tiny tt (GSEA.ClsOther (ClsList cls_tiny)) 1 500 10 1
    "gene_set" "T_TEST" false 4 123.

(** A class dict that leaves the samples s3 and s6 of [df_tiny] out. *)
Definition dict_partial : dict string :=
  [("s1", "A"); ("s2", "A"); ("s4", "B"); ("s5", "B")].


(** A gene-set run on [raw_tiny] with the difference of the class
    means, ascending. *)
Definition gsea_gene_set : GSEA.t unit :=
  GSEA.init raw_tiny tt (GSEA.ClsOther (ClsList cls_tiny)) 1 500 10 1
    "gene_set" "diff_of_classes" true 4 123.


End Fixture.


(** * [Replot]: reading results.edb and naming the figures *)
Module Replot.

Local Open Scope string_scope.
Local Open Scope list_scope.

(** The exceptions of the parser: [None.split] is an [AttributeError],
    [l[1]] on a short list an [IndexError], [float] and [int] of a
    string that is no number a [ValueError], [float(None)] a
    [TypeError]. *)
Inductive error : Type :=
| AttributeError
| IndexError
| ValueError
| TypeError.

Inductive outcome (A : Type) : Type :=
| Done (a : A)
| Fail (e : error).
Arguments Done {A} _.
Arguments Fail {A} _.

Definition and_then {A B : Type} (r : outcome A) (k : A -> outcome B) : outcome B :=
  match r with
  | Done a => k a
  | Fail e => Fail e
  end.

(** [s.split(sep)] for a separator of one character: the pieces between
    the separators, one more than there are separators. *)
Fixpoint split (sep : ascii) (s : string) : list string :=
  match s with
  | EmptyString => [EmptyString]
  | String c s' =>
      if Ascii.eqb c sep then EmptyString :: split sep s'
      else match split sep s' with
           | p :: ps => String c p :: ps
           | [] => [String c EmptyString]
           end
  end.

(** [s.replace(old, new)] for strings of one character. *)
Fixpoint replace (old new : ascii) (s : string) : string :=
  match s with
  | EmptyString => EmptyString
  | String c s' => String (if Ascii.eqb c old then new else c) (replace old new s')
  end.

(** Whether a character occurs in a string. *)
Fixpoint occurs (c : ascii) (s : string) : bool :=
  match s with
  | EmptyString => false
  | String d s' => Ascii.eqb d c || occurs c s'
  end.

(** A DTG node of results.edb: its attributes. *)
Definition node : Type := dict string.

(** What the parser keeps of a node: es, nes, pval, fdr, fwer and the
    hit indices. *)
Definition entry : Type := (float * float * float * float * float * list Z)%type.

Section Parser.

(** [float] and [int] of a string, [None] when Python raises
    [ValueError]. *)
Variable float_of_string : string -> option float.
Variable int_of_string : string -> option Z.

(** [node.attrib.get(name).split(sep)] *)
Definition get_split (n : node) (name : string) (sep : ascii)
  : outcome (list string) :=
  match dict_get n name with
  | Some v => Done (split sep v)
  | None => Fail AttributeError
  end.

(** [float(node.attrib.get(name))] *)
Definition get_float (n : node) (name : string) : outcome float :=
  match dict_get n name with
  | Some v => match float_of_string v with
              | Some x => Done x
              | None => Fail ValueError
              end
  | None => Fail TypeError
  end.

(** [[f(i) for i in l]] *)
Fixpoint each {A : Type} (f : string -> option A) (l : list string)
  : outcome (list A) :=
  match l with
  | [] => Done []
  | s :: l' =>
      match f s with
      | Some x => and_then (each f l') (fun xs => Done (x :: xs))
      | None => Fail ValueError
      end
  end.

(** The body of the loop of [gsea_edb_parser] (lines 711-724): the term
    and the entry of one node. *)
Definition parse_node (n : node) : outcome (string * entry) :=
  and_then (get_split n "GENESET" "#"%char) (fun pieces =>
  match nth_error pieces 1 with
  | None => Fail IndexError
  | Some enrich_term =>
      and_then (get_split n "ES_PROFILE" " "%char) (fun es_profile =>
      and_then (get_split n "HIT_INDICES" " "%char) (fun hit_ind =>
      and_then (each float_of_string es_profile) (fun _ =>
      and_then (each int_of_string hit_ind) (fun hit_ind =>
      and_then (get_float n "ES") (fun es =>
      and_then (get_float n "NES") (fun nes =>
      and_then (get_float n "NP") (fun pval =>
      and_then (get_float n "FDR") (fun fdr =>
      and_then (get_float n "FWER") (fun fwer =>
      Done (enrich_term, (es, nes, pval, fdr, fwer, hit_ind)))))))))))
  end).

(** The loop of [gsea_edb_parser] over the DTG nodes, from the dict
    [res] built so far. *)
Fixpoint parse_nodes (res : dict entry) (nodes : list node) : outcome (dict entry) :=
  match nodes with
  | [] => Done res
  | n :: nodes' =>
      and_then (parse_node n) (fun te =>
      parse_nodes (dict_set res (fst te) (snd te)) nodes')
  end.

(** [gsea_edb_parser], on the DTG nodes of the parsed file. *)
Definition gsea_edb_parser (nodes : list node) : outcome (dict entry) :=
  parse_nodes [] nodes.

End Parser.

(** The term as it goes into the name of the figure (line 769). *)
Definition file_term (enrich_term : string) : string :=
  replace ":"%char "_"%char (replace "/"%char "_"%char enrich_term).

(** The name of the figure of a term (lines 770-772). *)
Definition outfile (outdir enrich_term format : string) : string :=
  outdir ++ "/" ++ file_term enrich_term ++ "." ++ "replot" ++ "." ++ format.

End Replot.

(** * Further statements about the code *)
Module Props.

Local Open Scope string_scope.
Local Open Scope list_scope.
Local Open Scope float_scope.

(** A column that the class dict gives a class. *)
Definition classified (classes : dict string) (c : string) : bool :=
  match dict_get classes c with
  | Some _ => true
  | None => false
  end.

(** The frame without the columns that have no class. *)
Definition drop_unclassified (classes : dict string) (df : DataFrame) : DataFrame :=
  {| columns := filter (classified classes) (columns df);
     rows :=
       map (fun r =>
              (fst r,
               map snd (filter (fun cv => classified classes (fst cv))
                          (combine (columns df) (snd r)))))
         (rows df) |}.

(** Every row has a value for every column. *)
Definition rectangular (df : DataFrame) : Prop :=
  Forall (fun r => List.length (snd r) = List.length (columns df)) (rows df).

(** No label is equal to one before it. *)
Definition distinct_labels (l : list cell) : Prop :=
  StronglySorted (fun a b => GSEA.cell_eqb b a = false) l.

(** Where position [i] stands in an order of the positions. *)
Fixpoint place (i : nat) (order : list nat) : nat :=
  match order with
  | [] => 0
  | j :: order' => if (i =? j)%nat then 0%nat else S (place i order')
  end.

(** The answers to the comparisons of equal values that make [argsort]
    return [order]. *)
Definition tie_of (order : list nat) (i j : nat) : bool :=
  (place i order <? place j order)%nat.

(** [l1] is [l2] with some elements left out. *)
Inductive subsequence {A : Type} : list A -> list A -> Prop :=
| sub_nil : subsequence [] []
| sub_keep (x : A) (l1 l2 : list A) :
    subsequence l1 l2 -> subsequence (x :: l1) (x :: l2)
| sub_skip (x : A) (l1 l2 : list A) :
    subsequence l1 l2 -> subsequence l1 (x :: l2).

(** In numpy's order, [a] does not come after [b]: a number is at most
    the other, or [b] is NaN. *)
Definition np_le (a b : float) : Prop := F64.np_lt b a = false.

(** On decoded numbers: less or equal. *)
Definition SFle (a b : spec_float) : Prop :=
  SFcompare a b = Some Lt \/ SFcompare a b = Some Eq.

End Props.


(** * Facts about binary64

    Proved from the specification of the primitive operations over
    [SpecFloat]. *)
Module F64_facts.

Import F64.
Local Open Scope float_scope.

Lemma is_nan_SF (x : float) : is_nan x = true <-> Prim2SF x = S754_nan.
Proof.
  unfold is_nan. rewrite eqb_spec. unfold SFeqb.
  destruct (Prim2SF x) as [s | s | | s m e]; simpl.
  - split; discriminate.
  - destruct s; simpl; split; discriminate.
  - split; reflexivity.
  - destruct s; rewrite Z.compare_refl, Pos.compare_cont_refl; simpl;
      split; discriminate.
Qed.

Lemma is_nan_false_SF (x : float) : is_nan x = false <-> Prim2SF x <> S754_nan.
Proof.
  rewrite <- is_nan_SF. destruct (is_nan x); split; congruence.
Qed.

(** Comparing the other way round gives the opposite answer. *)
Lemma SFcompare_swap (a b : spec_float) :
  SFcompare b a = match SFcompare a b with
                  | Some c => Some (CompOpp c)
                  | None => None
                  end.
Proof.
  assert (Hm : forall ma mb,
             Pos.compare_cont Eq mb ma = CompOpp (Pos.compare_cont Eq ma mb))
    by (intros ma mb; symmetry; apply (Pos.compare_cont_antisym ma mb Eq)).
  destruct a as [sa | sa | | sa ma ea], b as [sb | sb | | sb mb eb]; simpl;
    try reflexivity; try (destruct sa; reflexivity);
    try (destruct sb; reflexivity);
    try (destruct sa, sb; reflexivity).
  destruct sa, sb; try reflexivity;
    rewrite (Z.compare_antisym ea eb);
    destruct (ea ?= eb)%Z; simpl; try reflexivity;
    rewrite Hm; destruct (Pos.compare_cont Eq ma mb); reflexivity.
Qed.

Lemma SFcompare_Lt_swap (a b : spec_float) :
  SFcompare a b = Some Lt -> SFcompare b a = Some Gt.
Proof.
  intros H. rewrite SFcompare_swap, H. reflexivity.
Qed.

Lemma ltb_asym (a b : float) : (a <? b) = true -> (b <? a) = false.
Proof.
  rewrite !ltb_spec. unfold SFltb.
  destruct (SFcompare (Prim2SF a) (Prim2SF b)) as [[ | | ] | ] eqn:E;
    try discriminate.
  intros _. now rewrite (SFcompare_Lt_swap _ _ E).
Qed.

Lemma ltb_not_nan (a b : float) :
  (a <? b) = true -> is_nan a = false /\ is_nan b = false.
Proof.
  rewrite ltb_spec, !is_nan_false_SF. unfold SFltb.
  destruct (Prim2SF a) as [sa | sa | | sa ma ea],
           (Prim2SF b) as [sb | sb | | sb mb eb]; simpl;
    try discriminate; intros _; split; discriminate.
Qed.

(** [np_lt] is asymmetric: this is all the sort needs of it. *)
Lemma np_lt_asym (a b : float) : np_lt a b = true -> np_lt b a = false.
Proof.
  unfold np_lt. intros H.
  apply orb_true_iff in H. destruct H as [H | H].
  - destruct (ltb_not_nan _ _ H) as [Ha Hb].
    rewrite (ltb_asym _ _ H), Ha. reflexivity.
  - apply andb_true_iff in H. destruct H as [Hb Ha].
    apply negb_true_iff in Ha. rewrite Ha, Hb. simpl.
    rewrite orb_false_r.
    destruct (b <? a) eqn:E; [ | reflexivity ].
    destruct (ltb_not_nan _ _ E) as [Hb' _]. congruence.
Qed.

Lemma np_lt_irrefl (a : float) : np_lt a a = false.
Proof.
  destruct (np_lt a a) eqn:E; [ | reflexivity ].
  now rewrite (np_lt_asym _ _ E) in E.
Qed.

(** On numbers, "not less" in numpy's order is "greater or equal". *)
Lemma np_lt_false_leb (a b : float) :
  np_lt b a = false -> is_nan b = false -> (a <=? b) = true.
Proof.
  unfold np_lt. intros H Hb. apply orb_false_iff in H. destruct H as [Hlt Hn].
  rewrite Hb in Hn. simpl in Hn. rewrite andb_true_r in Hn.
  rewrite ltb_spec in Hlt. rewrite leb_spec. unfold SFltb, SFleb in *.
  rewrite (SFcompare_swap (Prim2SF a) (Prim2SF b)) in Hlt.
  assert (Ha : Prim2SF a <> S754_nan)
    by (intros E; apply is_nan_SF in E; congruence).
  assert (Hb' : Prim2SF b <> S754_nan)
    by (intros E; apply is_nan_SF in E; congruence).
  destruct (SFcompare (Prim2SF a) (Prim2SF b)) as [[ | | ] | ] eqn:E;
    simpl in *; try reflexivity; try discriminate.
  destruct (Prim2SF a) as [sa | sa | | sa ma ea],
           (Prim2SF b) as [sb | sb | | sb mb eb]; simpl in E;
    congruence.
Qed.

(** ** Rounding never produces NaN *)

Lemma shr_1_nonneg (r : shr_record) :
  (0 <= shr_m r)%Z -> (0 <= shr_m (shr_1 r))%Z.
Proof.
  destruct r as [m r s]. simpl.
  destruct m as [ | [p | p | ] | p ]; simpl; lia.
Qed.

Lemma iter_shr_1_nonneg (p : positive) (r : shr_record) :
  (0 <= shr_m r)%Z -> (0 <= shr_m (iter_pos shr_1 p r))%Z.
Proof.
  revert r.
  induction p as [p IH | p IH | ]; intros r Hr; simpl.
  - apply IH, IH, shr_1_nonneg, Hr.
  - apply IH, IH, Hr.
  - apply shr_1_nonneg, Hr.
Qed.

Lemma shr_fexp_nonneg (m e : Z) (l : location) :
  (0 <= m)%Z -> (0 <= shr_m (fst (shr_fexp prec emax m e l)))%Z.
Proof.
  intros Hm. unfold shr_fexp, shr.
  assert (H0 : (0 <= shr_m (shr_record_of_loc m l))%Z)
    by (destruct l as [ | [ | | ]]; exact Hm).
  destruct (fexp prec emax (Zdigits2 m + e) - e)%Z; simpl; trivial.
  now apply iter_shr_1_nonneg.
Qed.

Lemma round_nearest_even_nonneg (m : Z) (l : location) :
  (0 <= m)%Z -> (0 <= round_nearest_even m l)%Z.
Proof.
  intros Hm. destruct l as [ | [ | | ]]; simpl; try lia.
  destruct (Z.even m); lia.
Qed.

Lemma binary_round_aux_not_nan (s : bool) (m e : Z) (l : location) :
  (0 <= m)%Z -> binary_round_aux prec emax s m e l <> S754_nan.
Proof.
  intros Hm. unfold binary_round_aux.
  pose proof (shr_fexp_nonneg m e l Hm) as H1.
  destruct (shr_fexp prec emax m e l) as [r1 e1]. simpl in H1.
  pose proof (shr_fexp_nonneg _ e1 loc_Exact
                (round_nearest_even_nonneg _ (loc_of_shr_record r1) H1)) as H2.
  destruct (shr_fexp prec emax
              (round_nearest_even (shr_m r1) (loc_of_shr_record r1)) e1
              loc_Exact) as [r2 e2].
  simpl in H2.
  destruct (shr_m r2) as [ | p | p ]; try lia; try discriminate.
  destruct (e2 <=? emax - prec)%Z; discriminate.
Qed.

Lemma binary_normalize_not_nan (m e : Z) (sz : bool) :
  binary_normalize prec emax m e sz <> S754_nan.
Proof.
  unfold binary_normalize, binary_round.
  destruct m as [ | p | p ]; try discriminate.
  - destruct (shl_align p e _) as [mz ez].
    apply binary_round_aux_not_nan. lia.
  - destruct (shl_align p e _) as [mz ez].
    apply binary_round_aux_not_nan. lia.
Qed.

(** Adding a finite number to a number gives a number: NaN does not
    appear. *)
Lemma add_finite_not_nan (x c : float) :
  finite c = true -> is_nan x = false -> is_nan (x + c) = false.
Proof.
  unfold finite. rewrite !is_nan_false_SF, add_spec.
  unfold SF64add, SFadd.
  destruct (Prim2SF c) as [sc | sc | | sc mc ec]; try discriminate;
    intros _ Hx;
    destruct (Prim2SF x) as [sx | sx | | sx mx ex]; try congruence;
    try discriminate;
    try (destruct sx, sc; discriminate).
  apply binary_normalize_not_nan.
Qed.

(** Dividing by a zero gives NaN or an infinity, never a finite value. *)
Lemma div_zero_not_finite (x d : float) :
  is_zero d = true -> finite (x / d) = false.
Proof.
  unfold is_zero, finite. rewrite eqb_spec, div_spec.
  unfold SFeqb, SF64div, SFdiv.
  replace (Prim2SF zero) with (S754_zero false) by reflexivity.
  destruct (Prim2SF d) as [sd | sd | | sd md ed]; simpl;
    try discriminate; try (destruct sd; discriminate).
  intros _. destruct (Prim2SF x); reflexivity.
Qed.

Lemma abs_not_finite (x : float) : finite x = false -> finite (abs x) = false.
Proof.
  unfold finite. rewrite abs_spec.
  destruct (Prim2SF x); simpl; congruence.
Qed.

Lemma epsilon_finite : finite GSEA.epsilon = true.
Proof. reflexivity. Qed.

End F64_facts.

(** * The order numpy sorts by *)
Module F64_order.

Import F64.
Local Open Scope float_scope.

Lemma SFle_trans (a b c : spec_float) : Props.SFle a b -> Props.SFle b c -> Props.SFle a c.
Proof.
  unfold Props.SFle.
  destruct a as [sa | sa | | sa ma ea], b as [sb | sb | | sb mb eb],
           c as [sc | sc | | sc mc ec]; simpl;
    try (intros [H | H] [H' | H']; discriminate);
    try (destruct sa; intros [H | H] [H' | H']; try discriminate; auto; fail);
    try (destruct sb; intros [H | H] [H' | H']; try discriminate; auto; fail);
    try (destruct sc; intros [H | H] [H' | H']; try discriminate; auto; fail);
    try (destruct sa, sb; intros [H | H] [H' | H']; try discriminate; auto; fail);
    try (destruct sa, sc; intros [H | H] [H' | H']; try discriminate; auto; fail);
    try (destruct sb, sc; intros [H | H] [H' | H']; try discriminate; auto; fail);
    try (destruct sa, sb, sc; intros [H | H] [H' | H']; try discriminate; auto; fail).
  change (Pos.compare_cont Eq ma mb) with (Pos.compare ma mb).
  change (Pos.compare_cont Eq mb mc) with (Pos.compare mb mc).
  change (Pos.compare_cont Eq ma mc) with (Pos.compare ma mc).
  destruct sa, sb, sc; intros [H | H] [H' | H']; try discriminate; auto;
    revert H H';
    destruct (Z.compare_spec ea eb), (Z.compare_spec eb ec), (Z.compare_spec ea ec);
    try discriminate; try lia; subst;
    destruct (Pos.compare_spec ma mb), (Pos.compare_spec mb mc), (Pos.compare_spec ma mc);
    simpl; try discriminate; try lia; auto.
Qed.

(** What "not after" means on the decodings. *)
Lemma np_le_SF (a b : float) :
  Props.np_le a b <->
  Prim2SF b = S754_nan \/
  (Prim2SF a <> S754_nan /\ Prim2SF b <> S754_nan /\ Props.SFle (Prim2SF a) (Prim2SF b)).
Proof.
  unfold Props.np_le, np_lt, Props.SFle.
  rewrite orb_false_iff, andb_false_iff, negb_false_iff, ltb_spec.
  rewrite F64_facts.is_nan_false_SF, F64_facts.is_nan_SF.
  unfold SFltb. rewrite (F64_facts.SFcompare_swap (Prim2SF a) (Prim2SF b)).
  destruct (Prim2SF a) as [sa | sa | | sa ma ea] eqn:Ea,
           (Prim2SF b) as [sb | sb | | sb mb eb] eqn:Eb;
    try (split; [ intros _; left; reflexivity | intros _; split; auto ]; fail);
    try (split; [ intros [_ [H | H]]; congruence
                | intros [H | [H _]]; congruence ]; fail);
    (split;
     [ intros [Hlt _]; right; split; [ discriminate | split; [ discriminate | ] ];
       destruct (SFcompare _ _) as [[ | | ] | ] eqn:E; simpl in *;
       try discriminate; auto;
       revert E; simpl; try (destruct sa); try (destruct sb); discriminate
     | intros [H | [_ [_ H]]]; [ discriminate | ];
       split; [ | left; discriminate ];
       destruct H as [H | H]; rewrite H; reflexivity ]).
Qed.

Lemma np_le_trans (a b c : float) :
  Props.np_le a b -> Props.np_le b c -> Props.np_le a c.
Proof.
  rewrite !np_le_SF. intros Hab Hbc.
  destruct Hbc as [Hc | [Hb [Hc Hbc]]]; [ left; exact Hc | ].
  destruct Hab as [Hb' | [Ha [_ Hab]]]; [ congruence | ].
  right. split; [ exact Ha | split; [ exact Hc | ] ].
  exact (SFle_trans _ _ _ Hab Hbc).
Qed.

(** The absolute value is never below zero. *)
Lemma abs_not_negative (x : float) :
  is_nan (abs x) = true \/ (0 <=? abs x) = true.
Proof.
  rewrite F64_facts.is_nan_SF, leb_spec, abs_spec. unfold SFleb.
  replace (Prim2SF 0) with (S754_zero false) by reflexivity.
  destruct (Prim2SF x) as [s | s | | s m e]; simpl; auto.
Qed.

End F64_order.

(** * Facts about the stable sort *)
Module Sort_facts.

Section Insertion.

Context {A : Type} (lt : A -> A -> bool).

Lemma insert_perm (x : A) (l : list A) : Permutation (insert lt x l) (x :: l).
Proof.
  induction l as [ | y l IH]; simpl.
  - apply Permutation_refl.
  - destruct (lt y x).
    + apply perm_trans with (y :: x :: l).
      * apply perm_skip, IH.
      * apply perm_swap.
    + apply Permutation_refl.
Qed.

Lemma sorted_perm (l : list A) : Permutation (sorted lt l) l.
Proof.
  induction l as [ | x l IH]; simpl.
  - apply perm_nil.
  - apply perm_trans with (x :: sorted lt l).
    + apply insert_perm.
    + apply perm_skip, IH.
Qed.

Lemma sorted_length (l : list A) : List.length (sorted lt l) = List.length l.
Proof. apply Permutation_length, sorted_perm. Qed.

Hypothesis lt_asym : forall a b, lt a b = true -> lt b a = false.

Lemma insert_HdRel (x a : A) (l : list A) :
  lt x a = false -> HdRel (ascending_by lt) a l -> HdRel (ascending_by lt) a (insert lt x l).
Proof.
  intros Hxa Hl. destruct l as [ | y l]; simpl.
  - constructor. exact Hxa.
  - destruct (lt y x); constructor.
    + inversion Hl; assumption.
    + exact Hxa.
Qed.

Lemma insert_Sorted (x : A) (l : list A) :
  Sorted (ascending_by lt) l -> Sorted (ascending_by lt) (insert lt x l).
Proof.
  induction l as [ | y l IH]; intros Hs; simpl.
  - repeat constructor.
  - inversion Hs as [ | ? ? Hl Hhd]; subst.
    destruct (lt y x) eqn:E.
    + constructor.
      * apply IH, Hl.
      * apply insert_HdRel; [ apply lt_asym, E | exact Hhd ].
    + constructor; [ exact Hs | constructor; exact E ].
Qed.

Lemma sorted_Sorted (l : list A) : Sorted (ascending_by lt) (sorted lt l).
Proof.
  induction l as [ | x l IH]; simpl.
  - constructor.
  - apply insert_Sorted, IH.
Qed.

End Insertion.

Section Stability.

Context {A : Type} (lt : A -> A -> bool) (before : A -> A -> Prop).

Lemma insert_stable (x : A) (l : list A) :
  Forall (before x) l -> StronglySorted (stably lt before) l ->
  StronglySorted (stably lt before) (insert lt x l).
Proof.
  induction l as [ | y l IH]; intros Hx Hs; simpl.
  - repeat constructor.
  - inversion Hx as [ | ? ? Hxy Hxl]; subst.
    inversion Hs as [ | ? ? Hl Hy]; subst.
    destruct (lt y x) eqn:E.
    + constructor.
      * apply IH; assumption.
      * apply (Permutation_Forall (Permutation_sym (insert_perm lt x l))).
        constructor; [ left; exact E | exact Hy ].
    + constructor; [ exact Hs | ].
      constructor; [ right; exact Hxy | ].
      apply Forall_impl with (2 := Hxl). intros a Ha. right. exact Ha.
Qed.

Lemma sorted_stable (l : list A) :
  StronglySorted before l -> StronglySorted (stably lt before) (sorted lt l).
Proof.
  induction l as [ | x l IH]; intros Hs; simpl.
  - constructor.
  - inversion Hs as [ | ? ? Hl Hx]; subst.
    apply insert_stable.
    + apply (Permutation_Forall (Permutation_sym (sorted_perm lt l))), Hx.
    + apply IH, Hl.
Qed.

End Stability.

Lemma Sorted_snoc {A : Type} (S : A -> A -> Prop) (l : list A) (y x : A) :
  Sorted S (l ++ [y]) -> S y x -> Sorted S (l ++ [y; x]).
Proof.
  intros Hs Hyx. induction l as [ | z l IH]; simpl in *.
  - constructor; [ repeat constructor | constructor; exact Hyx ].
  - inversion Hs as [ | ? ? Hl Hhd]; subst.
    constructor.
    + apply IH, Hl.
    + destruct l; simpl in *; inversion Hhd; subst; constructor; assumption.
Qed.

(** Reversal turns a sorted list into one sorted the other way. *)
Lemma Sorted_rev {A : Type} (R : A -> A -> Prop) (l : list A) :
  Sorted R l -> Sorted (fun a b => R b a) (rev l).
Proof.
  induction l as [ | x l IH]; intros Hs; simpl.
  - constructor.
  - inversion Hs as [ | ? ? Hl Hhd]; subst.
    specialize (IH Hl).
    destruct l as [ | y l]; simpl in *.
    + repeat constructor.
    + inversion Hhd as [ | ? ? Hxy]; subst.
      rewrite <- app_assoc. simpl.
      apply Sorted_snoc; assumption.
Qed.

Lemma StronglySorted_rev {A : Type} (R : A -> A -> Prop) (l : list A) :
  StronglySorted R l -> StronglySorted (fun a b => R b a) (rev l).
Proof.
  induction l as [ | x l IH]; intros Hs; simpl.
  - constructor.
  - inversion Hs as [ | ? ? Hl Hx]; subst.
    specialize (IH Hl).
    assert (Hx' : Forall (fun a => R x a) (rev l))
      by (apply Forall_rev, Hx).
    clear Hs Hl Hx. revert IH Hx'.
    induction (rev l) as [ | z front IHf]; simpl; intros Hf Hx'.
    + repeat constructor.
    + inversion Hf as [ | ? ? Hf' Hz]; subst.
      inversion Hx' as [ | ? ? Hxz Hxf]; subst.
      constructor.
      * apply IHf; assumption.
      * apply Forall_app. split; [ exact Hz | repeat constructor; exact Hxz ].
Qed.

End Sort_facts.

(** * Facts about dicts, counters and positional selection *)
Module Py_facts.

Lemma dict_get_set {V : Type} (d : dict V) (k k' : string) (v : V) :
  dict_get (dict_set d k v) k' =
  if String.eqb k k' then Some v else dict_get d k'.
Proof.
  induction d as [ | [k0 v0] d IH]; simpl.
  - reflexivity.
  - destruct (String.eqb_spec k0 k) as [-> | Hne]; simpl.
    + destruct (String.eqb k k'); reflexivity.
    + rewrite IH.
      destruct (String.eqb_spec k0 k') as [-> | Hne'].
      * destruct (String.eqb_spec k k') as [-> | _]; [ congruence | reflexivity ].
      * reflexivity.
Qed.

Lemma dict_get_absent {V : Type} (d : dict V) (k : string) :
  ~ In k (map fst d) -> dict_get d k = None.
Proof.
  induction d as [ | [k0 v0] d IH]; simpl; intros Hnot.
  - reflexivity.
  - destruct (String.eqb_spec k0 k) as [-> | _].
    + exfalso. apply Hnot. left. reflexivity.
    + apply IH. intros H. apply Hnot. right. exact H.
Qed.

Lemma counter_fold (xs : list string) (c : dict nat) (k : string) :
  counter_get (fold_left count_step xs c) k
  = counter_get c k + count_occ string_dec xs k.
Proof.
  revert c. induction xs as [ | x xs IH]; intros c; simpl.
  - lia.
  - rewrite IH. unfold count_step. unfold counter_get at 1. rewrite dict_get_set.
    destruct (string_dec x k) as [-> | Hne].
    + rewrite String.eqb_refl. unfold counter_get. lia.
    + destruct (String.eqb_spec x k) as [-> | _]; [ congruence | ].
      unfold counter_get. lia.
Qed.

(** [Counter(xs)[k]] is the number of occurrences of [k] in [xs]. *)
Lemma counter_get_Counter (xs : list string) (k : string) :
  counter_get (Counter xs) k = count_occ string_dec xs k.
Proof. unfold Counter. rewrite counter_fold. reflexivity. Qed.

(** A frame built over its keys holds, under a key, what was built for
    it. *)
Lemma dict_get_keys {V : Type} (F : string -> V) (keys : list string) (k : string) :
  In k keys -> dict_get (map (fun g => (g, F g)) keys) k = Some (F k).
Proof.
  induction keys as [ | g keys IH]; simpl; intros Hin.
  - contradiction.
  - destruct (String.eqb_spec g k) as [-> | Hne].
    + reflexivity.
    + destruct Hin as [-> | Hin]; [ congruence | apply IH, Hin ].
Qed.

Lemma dict_get_keys_None {V : Type} (F : string -> V) (keys : list string) (k : string) :
  ~ In k keys -> dict_get (map (fun g => (g, F g)) keys) k = None.
Proof.
  induction keys as [ | g keys IH]; simpl; intros Hin.
  - reflexivity.
  - destruct (String.eqb_spec g k) as [-> | Hne].
    + exfalso. apply Hin. left. reflexivity.
    + apply IH. intros H. apply Hin. right. exact H.
Qed.

Lemma mapM_ok {A B : Type} (f : A -> result B) (g : A -> B) (l : list A) :
  Forall (fun x => f x = Ok (g x)) l -> mapM f l = Ok (map g l).
Proof.
  induction 1 as [ | x l Hx _ IH]; simpl.
  - reflexivity.
  - rewrite Hx, IH. reflexivity.
Qed.

(** Selection at valid positions never fails. *)
Lemma iloc_ok {A : Type} (d : A) (ser : list A) (positions : list nat) :
  Forall (fun i => i < List.length ser) positions ->
  iloc ser positions = Ok (map (fun i => nth i ser d) positions).
Proof.
  intros H. unfold iloc. apply mapM_ok.
  apply Forall_impl with (2 := H). intros i Hi. unfold getitem.
  rewrite (nth_error_nth' ser d Hi). reflexivity.
Qed.

Lemma map_fst_combine_seq {B : Type} (l : list B) (start : nat) :
  map fst (combine (seq start (List.length l)) l) = seq start (List.length l).
Proof.
  revert start. induction l as [ | x l IH]; intros start; simpl.
  - reflexivity.
  - rewrite IH. reflexivity.
Qed.

Lemma map_snd_combine_seq {B : Type} (l : list B) (start : nat) :
  map snd (combine (seq start (List.length l)) l) = l.
Proof.
  revert start. induction l as [ | x l IH]; intros start; simpl.
  - reflexivity.
  - rewrite IH. reflexivity.
Qed.

(** [argsort] returns every position once, whatever it does with equal
    values. *)
Lemma argsort_perm (tie : nat -> nat -> bool) (vals : list float) :
  Permutation (argsort tie vals) (seq 0 (List.length vals)).
Proof.
  unfold argsort. rewrite <- (map_fst_combine_seq vals 0) at 2.
  apply Permutation_map, Sort_facts.sorted_perm.
Qed.

Lemma argsort_in_range (tie : nat -> nat -> bool) (vals : list float) :
  Forall (fun i => i < List.length vals) (argsort tie vals).
Proof.
  apply (Permutation_Forall (Permutation_sym (argsort_perm tie vals))).
  apply Forall_forall. intros i Hi. apply in_seq in Hi. lia.
Qed.

(** Inserting by [argsort_lt] keeps a list in the order of its values,
    whatever [tie] answers. *)
Lemma insert_by_value (tie : nat -> nat -> bool) (x : nat * float)
    (l : list (nat * float)) :
  StronglySorted (fun a b => Props.np_le (snd a) (snd b)) l ->
  StronglySorted (fun a b => Props.np_le (snd a) (snd b))
    (insert (argsort_lt tie) x l).
Proof.
  induction 1 as [ | y l Hl IH Hy]; simpl.
  - repeat constructor.
  - destruct (argsort_lt tie y x) eqn:E.
    + constructor; [ exact IH | ].
      apply (Permutation_Forall (Permutation_sym (Sort_facts.insert_perm _ x l))).
      constructor; [ | exact Hy ].
      unfold argsort_lt in E. unfold Props.np_le.
      apply orb_true_iff in E. destruct E as [E | E].
      * apply F64_facts.np_lt_asym, E.
      * apply andb_true_iff in E. destruct E as [E _].
        apply negb_true_iff in E. exact E.
    + assert (Hxy : Props.np_le (snd x) (snd y)).
      { unfold argsort_lt in E. apply orb_false_iff in E. apply E. }
      constructor; [ constructor; assumption | ].
      constructor; [ exact Hxy | ].
      apply Forall_impl with (2 := Hy). intros z Hz.
      eapply F64_order.np_le_trans; eassumption.
Qed.

Lemma sorted_by_value (tie : nat -> nat -> bool) (l : list (nat * float)) :
  StronglySorted (fun a b => Props.np_le (snd a) (snd b)) (sorted (argsort_lt tie) l).
Proof.
  induction l as [ | x l IH]; simpl.
  - constructor.
  - apply insert_by_value, IH.
Qed.

(** Every entry of the enumerated list pairs a position with the value
    at that position. *)
Lemma combine_seq_nth (vals : list float) (start : nat) :
  Forall (fun p => nth_error vals (fst p - start) = Some (snd p) /\ start <= fst p)
    (combine (seq start (List.length vals)) vals).
Proof.
  revert start. induction vals as [ | x vals IH]; intros start; simpl.
  - constructor.
  - constructor.
    + simpl. rewrite Nat.sub_diag. simpl. split; [ reflexivity | lia ].
    + apply Forall_impl with (2 := IH (S start)).
      intros [i y] [Hn Hle]. simpl in *. split; [ | lia ].
      replace (i - start) with (S (i - S start)) by lia. exact Hn.
Qed.

End Py_facts.

(** * Every sorting order is an [argsort] *)
Module Argsort_facts.

Local Open Scope list_scope.

Section Unique.

Context {A : Type} (lt : A -> A -> bool).

(** [a] is placed before [b], and not the other way round. *)
Let before (a b : A) : Prop := lt a b = true /\ lt b a = false.

Lemma insert_between (x : A) (front back : list A) :
  Forall (fun y => before y x) front -> Forall (fun y => before x y) back ->
  insert lt x (front ++ back) = front ++ x :: back.
Proof.
  intros Hfront Hback. induction Hfront as [ | y front [Hy _] _ IH]; simpl.
  - destruct Hback as [ | y back [_ Hy] _]; simpl; [ reflexivity | ].
    rewrite Hy. reflexivity.
  - rewrite Hy, IH. reflexivity.
Qed.

Lemma StronglySorted_remove (R : A -> A -> Prop) (front back : list A) (x : A) :
  StronglySorted R (front ++ x :: back) ->
  StronglySorted R (front ++ back) /\
  Forall (fun y => R y x) front /\ Forall (R x) back.
Proof.
  induction front as [ | y front IH]; simpl; intros Hs.
  - inversion Hs; subst. auto.
  - inversion Hs as [ | ? ? Hs' Hy]; subst.
    destruct (IH Hs') as [Hrest [Hfront Hback]].
    apply Forall_app in Hy. destruct Hy as [Hy1 Hy2].
    inversion Hy2 as [ | ? ? Hyx Hy3]; subst.
    split; [ | split ].
    + constructor; [ exact Hrest | apply Forall_app; split; assumption ].
    + constructor; assumption.
    + exact Hback.
Qed.

(** The insertion sort returns the one arrangement of its input in which
    every element is placed before the later ones. *)
Lemma sorted_unique (l target : list A) :
  Permutation l target -> StronglySorted before target -> sorted lt l = target.
Proof.
  revert target. induction l as [ | x l IH]; intros target Hperm Hs.
  - apply Permutation_nil in Hperm. subst. reflexivity.
  - assert (Hin : In x target)
      by (apply (Permutation_in _ Hperm); left; reflexivity).
    apply in_split in Hin. destruct Hin as [front [back ->]].
    apply Permutation_cons_app_inv in Hperm.
    destruct (StronglySorted_remove _ _ _ _ Hs) as [Hrest [Hfront Hback]].
    simpl. rewrite (IH _ Hperm Hrest).
    apply insert_between; assumption.
Qed.

End Unique.

Lemma place_app (i : nat) (front back : list nat) :
  ~ In i front -> Props.place i (front ++ back) = List.length front + Props.place i back.
Proof.
  induction front as [ | j front IH]; simpl; intros Hnot.
  - reflexivity.
  - destruct (Nat.eqb_spec i j) as [-> | _].
    + exfalso. apply Hnot. left. reflexivity.
    + rewrite IH; [ reflexivity | ]. intros H. apply Hnot. right. exact H.
Qed.

Lemma NoDup_app_apart {A : Type} (front back : list A) (x : A) :
  NoDup (front ++ back) -> In x back -> ~ In x front.
Proof.
  induction front as [ | y front IH]; simpl; intros Hnd Hx Hin.
  - exact Hin.
  - inversion Hnd as [ | ? ? Hy Hnd']; subst.
    destruct Hin as [-> | Hin].
    + apply Hy, in_or_app. right. exact Hx.
    + exact (IH Hnd' Hx Hin).
Qed.

Lemma StronglySorted_impl {A : Type} (R R' : A -> A -> Prop) (l : list A) :
  (forall a b, R a b -> R' a b) -> StronglySorted R l -> StronglySorted R' l.
Proof.
  intros Himp. induction 1 as [ | x l Hl IH Hx]; constructor.
  - exact IH.
  - apply Forall_impl with (2 := Hx). apply Himp.
Qed.

Lemma StronglySorted_under {A B : Type} (R : B -> B -> Prop) (f : A -> B) (l : list A) :
  StronglySorted (fun a b => R (f a) (f b)) l -> StronglySorted R (map f l).
Proof.
  induction 1 as [ | x l Hl IH Hx]; simpl; constructor.
  - exact IH.
  - apply Forall_map. exact Hx.
Qed.

(** In an order without repetition every position is placed before the
    later ones. *)
Lemma place_sorted (front order : list nat) :
  NoDup (front ++ order) ->
  StronglySorted
    (fun i j => Props.place i (front ++ order) < Props.place j (front ++ order))
    order.
Proof.
  revert front. induction order as [ | i order IH]; intros front Hnd.
  - constructor.
  - constructor.
    + specialize (IH (front ++ [i])). rewrite <- !app_assoc in IH. apply IH, Hnd.
    + apply NoDup_remove in Hnd. destruct Hnd as [Hnd Hi].
      apply Forall_forall. intros j Hj.
      assert (Hif : ~ In i front) by (intros H; apply Hi, in_or_app; left; exact H).
      assert (Hjf : ~ In j front) by (apply (NoDup_app_apart _ _ _ Hnd), Hj).
      assert (Hji : j <> i) by (intros ->; apply Hi, in_or_app; right; exact Hj).
      rewrite !place_app by assumption. simpl.
      rewrite Nat.eqb_refl.
      destruct (Nat.eqb_spec j i) as [-> | _]; [ congruence | lia ].
Qed.

Lemma StronglySorted_both {A : Type} (R1 R2 : A -> A -> Prop) (l : list A) :
  StronglySorted R1 l -> StronglySorted R2 l ->
  StronglySorted (fun a b => R1 a b /\ R2 a b) l.
Proof.
  induction 1 as [ | x l Hl IH Hx]; intros H2.
  - constructor.
  - inversion H2 as [ | ? ? H2l H2x]; subst. constructor.
    + apply IH, H2l.
    + rewrite Forall_forall in *. intros y Hy. split; [ apply Hx | apply H2x ]; exact Hy.
Qed.

Lemma combine_seq_map (vals : list float) (start : nat) :
  combine (seq start (List.length vals)) vals
  = map (fun i => (i, nth (i - start) vals nan)) (seq start (List.length vals)).
Proof.
  revert start. induction vals as [ | x vals IH]; intros start; simpl.
  - reflexivity.
  - rewrite Nat.sub_diag. f_equal. rewrite IH.
    apply map_ext_in. intros i Hi. apply in_seq in Hi.
    replace (i - start) with (S (i - S start)) by lia. reflexivity.
Qed.

(** Whatever order of the positions sorts the values, [argsort] returns
    it for some answers to the comparisons of equal values: the orders
    [argsort] stands for are all the orders a sort can return. *)
Lemma argsort_complete (vals : list float) (order : list nat) :
  Permutation order (seq 0 (List.length vals)) ->
  StronglySorted (fun i j => Props.np_le (nth i vals nan) (nth j vals nan)) order ->
  argsort (Props.tie_of order) vals = order.
Proof.
  intros Hperm Hsorted. unfold argsort.
  assert (Hnd : NoDup order)
    by (apply (Permutation_NoDup (Permutation_sym Hperm)), seq_NoDup).
  rewrite (sorted_unique (argsort_lt (Props.tie_of order)) _
             (map (fun i => (i, nth i vals nan)) order)).
  - rewrite map_map. simpl. apply map_id.
  - rewrite combine_seq_map.
    apply Permutation_sym.
    apply Permutation_trans
      with (map (fun i => (i, nth i vals nan)) (seq 0 (List.length vals))).
    + apply Permutation_map, Hperm.
    + apply Permutation_refl'. apply map_ext. intros i.
      rewrite Nat.sub_0_r. reflexivity.
  - apply StronglySorted_under.
    pose proof (place_sorted [] order Hnd) as Hplace. simpl in Hplace.
    pose proof (StronglySorted_both _ _ _ Hsorted Hplace) as Hboth.
    revert Hboth. apply StronglySorted_impl.
    intros i j [Hval Hpl]. unfold argsort_lt, Props.tie_of. cbn [fst snd].
    unfold Props.np_le in Hval. rewrite Hval. cbn [negb andb orb].
    split.
    + apply orb_true_iff. right. apply Nat.ltb_lt, Hpl.
    + apply andb_false_iff. right. apply Nat.ltb_ge. lia.
Qed.

End Argsort_facts.

(** * [calculate_metric]: scores and order *)
Module Metric_facts.

Import GSEA.
Local Open Scope string_scope.
Local Open Scope list_scope.

Lemma series_op_rows (op : float -> float -> float) (f g : cell * list float -> float)
    (rs : list (cell * list float)) :
  series_op op (map (fun r => (fst r, f r)) rs) (map (fun r => (fst r, g r)) rs)
  = map (fun r => (fst r, op (f r) (g r))) rs.
Proof.
  unfold series_op. induction rs as [ | r rs IH]; simpl.
  - reflexivity.
  - rewrite IH. reflexivity.
Qed.

Lemma series_map_rows (h : float -> float) (f : cell * list float -> float)
    (rs : list (cell * list float)) :
  series_map h (map (fun r => (fst r, f r)) rs) = map (fun r => (fst r, h (f r))) rs.
Proof.
  unfold series_map. rewrite map_map. reflexivity.
Qed.

Lemma getcol_groupby (agg : list float -> float) (df : DataFrame)
    (classes : dict string) (g : string) :
  In g (group_keys classes (columns df)) ->
  getcol (groupby_agg agg df classes) g
  = Ok (map (fun r => (fst r, agg (group_values classes (columns df) g (snd r))))
          (rows df)).
Proof.
  intros Hin. unfold getcol, groupby_agg, Series.
  rewrite (Py_facts.dict_get_keys
             (fun g => map (fun r => (fst r, agg (group_values classes (columns df) g (snd r))))
                         (rows df)) _ _ Hin).
  reflexivity.
Qed.

Lemma getcol_missing (agg : list float -> float) (df : DataFrame)
    (classes : dict string) (g : string) :
  ~ In g (group_keys classes (columns df)) ->
  getcol (groupby_agg agg df classes) g = Raise (KeyError g).
Proof.
  intros Hin. unfold getcol, groupby_agg, Series.
  rewrite (Py_facts.dict_get_keys_None
             (fun g => map (fun r => (fst r, agg (group_values classes (columns df) g (snd r))))
                         (rows df)) _ _ Hin).
  reflexivity.
Qed.

(** The chain of comparisons accepts the eight names, each for its
    metric, and nothing else. *)
Lemma metric_of_name_spec (method : string) (m : Metric) :
  metric_of_name method = Some m <-> In (method, m) Spec.metric_names.
Proof.
  unfold metric_of_name, str_in, Spec.metric_names, Spec.recognized. simpl.
  split.
  - repeat match goal with
           | |- context [String.eqb ?a ?b] =>
               destruct (String.eqb_spec a b) as [-> | ?]; simpl
           end;
      intros H; try discriminate; injection H as <-; tauto.
  - intros H.
    repeat destruct H as [H | H];
      try (injection H as <- <-; reflexivity); contradiction.
Qed.

Lemma metric_of_name_None (method : string) :
  metric_of_name method = None <-> ~ In method (map fst Spec.metric_names).
Proof.
  split.
  - intros HN Hin. apply in_map_iff in Hin. destruct Hin as [[n m] [<- Hin]].
    apply metric_of_name_spec in Hin. simpl in HN. congruence.
  - intros Hnot. destruct (metric_of_name method) as [m | ] eqn:E; [ | reflexivity ].
    exfalso. apply Hnot. apply metric_of_name_spec in E.
    apply in_map_iff. exists (method, m). split; [ reflexivity | exact E ].
Qed.

(** With a name of the table and both groups present, the result is the
    ranking of the table's scores. *)
Lemma calculate_metric_ranking (lib : Libs) (df : DataFrame)
    (method pos neg : string) (classes : dict string) (ascending : bool) (m : Metric) :
  metric_of_name method = Some m ->
  In pos (group_keys classes (columns df)) ->
  In neg (group_keys classes (columns df)) ->
  calculate_metric lib df method pos neg classes ascending
  = Ok (Spec.ranking_of lib (Spec.scores lib m df classes pos neg) ascending).
Proof.
  intros Hm Hpos Hneg. unfold calculate_metric. rewrite Hm.
  rewrite !(getcol_groupby _ _ _ _ Hpos), !(getcol_groupby _ _ _ _ Hneg).
  rewrite !Py_facts.counter_get_Counter.
  assert (Hser :
    forall ser : Series,
      ser = Spec.scores lib m df classes pos neg ->
      bind (Ok ser)
        (fun ser =>
           bind (iloc ser (argsort (argsort_tie lib) (values ser)))
             (fun ser0 =>
                if ascending then Ok (argsort (argsort_tie lib) (values ser), ser0)
                else Ok (rev (argsort (argsort_tie lib) (values ser)), rev ser0)))
      = Ok (Spec.ranking_of lib (Spec.scores lib m df classes pos neg) ascending)).
  { intros ser ->. simpl. unfold Spec.ranking_of.
    rewrite (Py_facts.iloc_ok (CNone, nan)).
    - simpl. destruct ascending; reflexivity.
    - unfold values. apply Forall_impl with (2 := Py_facts.argsort_in_range _ _).
      intros i Hi. rewrite length_map in Hi. exact Hi. }
  destruct m; simpl bind at 1; simpl;
    repeat rewrite ?series_op_rows, ?series_map_rows;
    apply Hser; reflexivity.
Qed.

(** Whenever a ranking is returned, it is the ranking of some Series of
    scores, in either direction. *)
Lemma calculate_metric_shape (lib : Libs) (df : DataFrame)
    (method pos neg : string) (classes : dict string) (ascending : bool)
    (r : list nat * Series) :
  calculate_metric lib df method pos neg classes ascending = Ok r ->
  exists ser,
    forall asc, calculate_metric lib df method pos neg classes asc
                = Ok (Spec.ranking_of lib ser asc).
Proof.
  unfold calculate_metric.
  match goal with
  | |- bind ?X _ = _ -> _ => destruct X as [ser | e]
  end; simpl; [ | discriminate ].
  intros _. exists ser. intros asc.
  rewrite (Py_facts.iloc_ok (CNone, nan)).
  - simpl. unfold Spec.ranking_of. destruct asc; reflexivity.
  - unfold values. apply Forall_impl with (2 := Py_facts.argsort_in_range _ _).
    intros i Hi. rewrite length_map in Hi. exact Hi.
Qed.

Lemma enumerated_positions (lib : Libs) (ser : Series) :
  argsort (argsort_tie lib) (values ser) = map fst (Spec.enumerated lib ser).
Proof. reflexivity. Qed.

Lemma enumerated_scores (lib : Libs) (ser : Series) :
  values (map (fun i => nth i ser (CNone, nan)) (argsort (argsort_tie lib) (values ser)))
  = map snd (Spec.enumerated lib ser).
Proof.
  unfold values at 1. rewrite enumerated_positions, !map_map.
  apply map_ext_in. intros [i x] Hin. cbn [fst snd].
  apply (Permutation_in _ (Sort_facts.sorted_perm _ _)) in Hin.
  pose proof (Py_facts.combine_seq_nth (values ser) 0) as Hall.
  rewrite Forall_forall in Hall. destruct (Hall _ Hin) as [Hn _].
  cbn [fst snd] in Hn. rewrite Nat.sub_0_r in Hn.
  rewrite <- (map_nth snd ser (CNone, nan) i).
  apply nth_error_nth. exact Hn.
Qed.

Lemma StronglySorted_nth {A : Type} (R : A -> A -> Prop) (l : list A) :
  StronglySorted R l ->
  forall p q a b, p < q -> nth_error l p = Some a -> nth_error l q = Some b -> R a b.
Proof.
  induction 1 as [ | x l Hl IH Hx]; intros p q a b Hpq Hp Hq.
  - destruct p; discriminate.
  - destruct q as [ | q]; [ lia | ].
    destruct p as [ | p]; simpl in *.
    + injection Hp as <-. rewrite Forall_forall in Hx.
      apply Hx. eapply nth_error_In, Hq.
    + apply (IH p q); [ lia | assumption | assumption ].
Qed.

(** The scores in the order of [argsort], in all pairs of positions:
    none comes after a later one in numpy's order. *)
Lemma enumerated_sorted (lib : Libs) (ser : Series) :
  StronglySorted Props.np_le (map snd (Spec.enumerated lib ser)).
Proof.
  apply Argsort_facts.StronglySorted_under. apply Py_facts.sorted_by_value.
Qed.

(** The ascending ranking is sorted. *)
Lemma ranking_ascending (lib : Libs) (ser : Series) :
  Spec.sorted_ascending (map snd (Spec.enumerated lib ser)).
Proof.
  apply StronglySorted_Sorted, enumerated_sorted.
Qed.

(** The descending ranking, the ascending one reversed, is sorted the
    other way. *)
Lemma ranking_descending (lib : Libs) (ser : Series) :
  Spec.sorted_descending (rev (map snd (Spec.enumerated lib ser))).
Proof.
  unfold Spec.sorted_descending.
  apply (Sort_facts.Sorted_rev (fun a b => F64.np_lt b a = false)).
  apply ranking_ascending.
Qed.

Lemma Sorted_on {A : Type} (P : A -> Prop) (R R' : A -> A -> Prop) (l : list A) :
  (forall a b, P a -> P b -> R a b -> R' a b) ->
  Forall P l -> Sorted R l -> Sorted R' l.
Proof.
  intros Himp HP Hs. induction Hs as [ | x l Hl IH Hhd].
  - constructor.
  - inversion HP as [ | ? ? Hx HPl]; subst. constructor.
    + apply IH, HPl.
    + destruct Hhd as [ | y l Hxy]; constructor.
      inversion HPl; subst. apply Himp; assumption.
Qed.

(** When no score is NaN, the sorted rankings are sorted for [<=]. *)
Lemma sorted_ascending_leb (scores : list float) :
  Forall (fun x => is_nan x = false) scores ->
  Spec.sorted_ascending scores ->
  Sorted (fun a b => (a <=? b)%float = true) scores.
Proof.
  apply Sorted_on. intros a b _ Hb H. apply F64_facts.np_lt_false_leb; assumption.
Qed.

Lemma sorted_descending_leb (scores : list float) :
  Forall (fun x => is_nan x = false) scores ->
  Spec.sorted_descending scores ->
  Sorted (fun a b => (b <=? a)%float = true) scores.
Proof.
  apply Sorted_on. intros a b Ha _ H. apply F64_facts.np_lt_false_leb; assumption.
Qed.

(** Every entry of a ranking is the entry of the Series at the position
    listed for it. *)
Lemma ranking_entries (lib : Libs) (ser : Series) (ascending : bool) :
  Forall2 (fun i gs => nth_error ser i = Some gs)
    (fst (Spec.ranking_of lib ser ascending))
    (snd (Spec.ranking_of lib ser ascending)).
Proof.
  assert (Hall : forall idx : list nat,
             Forall (fun i => i < List.length ser) idx ->
             Forall2 (fun i gs => nth_error ser i = Some gs) idx
               (map (fun i => nth i ser (CNone, nan)) idx)).
  { intros idx Hidx. induction Hidx as [ | i idx Hi _ IH]; simpl; constructor.
    - apply nth_error_nth'. exact Hi.
    - exact IH. }
  assert (Hrange : Forall (fun i => i < List.length ser)
                     (argsort (argsort_tie lib) (values ser))).
  { apply Forall_impl with (2 := Py_facts.argsort_in_range _ (values ser)).
    intros i Hi. unfold values in Hi. rewrite length_map in Hi. exact Hi. }
  unfold Spec.ranking_of. destruct ascending; simpl.
  - apply Hall, Hrange.
  - rewrite <- map_rev. apply Hall, Forall_rev, Hrange.
Qed.

End Metric_facts.

(** * More about [calculate_metric] *)
Module Metric_more.

Import GSEA.
Local Open Scope string_scope.
Local Open Scope list_scope.

(** A class that no column has fails the lookup of its group. *)
Lemma calculate_metric_keyerror (lib : Libs) (df : DataFrame)
    (method pos neg : string) (classes : dict string) (ascending : bool) (m : Metric) :
  metric_of_name method = Some m ->
  (~ In pos (group_keys classes (columns df)) ->
   calculate_metric lib df method pos neg classes ascending = Raise (KeyError pos)) /\
  (In pos (group_keys classes (columns df)) ->
   ~ In neg (group_keys classes (columns df)) ->
   calculate_metric lib df method pos neg classes ascending = Raise (KeyError neg)).
Proof.
  intros Hm. split.
  - intros Hpos. unfold calculate_metric. rewrite Hm.
    rewrite !(Metric_facts.getcol_missing _ _ _ _ Hpos).
    destruct m; reflexivity.
  - intros Hpos Hneg. unfold calculate_metric. rewrite Hm.
    rewrite !(Metric_facts.getcol_groupby _ _ _ _ Hpos).
    rewrite !(Metric_facts.getcol_missing _ _ _ _ Hneg).
    destruct m; reflexivity.
Qed.

(** A ranking is returned only for a name the code takes and two classes
    that columns have. *)
Lemma calculate_metric_ok_inv (lib : Libs) (df : DataFrame)
    (method pos neg : string) (classes : dict string) (ascending : bool)
    (r : list nat * Series) :
  calculate_metric lib df method pos neg classes ascending = Ok r ->
  exists m,
    metric_of_name method = Some m /\
    In pos (group_keys classes (columns df)) /\
    In neg (group_keys classes (columns df)) /\
    r = Spec.ranking_of lib (Spec.scores lib m df classes pos neg) ascending.
Proof.
  intros Hok.
  destruct (metric_of_name method) as [m | ] eqn:Hm.
  - destruct (calculate_metric_keyerror lib df method pos neg classes ascending m Hm)
      as [Hnopos Hnoneg].
    destruct (in_dec string_dec pos (group_keys classes (columns df))) as [Hpos | Hpos];
      [ | rewrite (Hnopos Hpos) in Hok; discriminate ].
    destruct (in_dec string_dec neg (group_keys classes (columns df))) as [Hneg | Hneg];
      [ | rewrite (Hnoneg Hpos Hneg) in Hok; discriminate ].
    exists m. repeat split; try assumption.
    rewrite (Metric_facts.calculate_metric_ranking lib df method pos neg classes
               ascending m Hm Hpos Hneg) in Hok.
    injection Hok as <-. reflexivity.
  - unfold calculate_metric in Hok. rewrite Hm in Hok. discriminate.
Qed.

Lemma map_nth_seq {A : Type} (d : A) (l : list A) :
  map (fun i => nth i l d) (seq 0 (List.length l)) = l.
Proof.
  induction l as [ | x l IH]; simpl.
  - reflexivity.
  - f_equal. rewrite <- seq_shift, map_map. exact IH.
Qed.

(** Selecting along a permutation of the positions permutes the list. *)
Lemma pick_perm {A : Type} (d : A) (l : list A) (idx : list nat) :
  Permutation idx (seq 0 (List.length l)) ->
  Permutation (map (fun i => nth i l d) idx) l.
Proof.
  intros H.
  apply perm_trans with (map (fun i => nth i l d) (seq 0 (List.length l))).
  - apply Permutation_map, H.
  - rewrite map_nth_seq. apply Permutation_refl.
Qed.

(** The entries of a ranking are the entries of the Series, each once. *)
Lemma ranking_of_perm (lib : Libs) (ser : Series) (ascending : bool) :
  Permutation (fst (Spec.ranking_of lib ser ascending)) (seq 0 (List.length ser)) /\
  Permutation (snd (Spec.ranking_of lib ser ascending)) ser.
Proof.
  assert (Hidx : Permutation (argsort (argsort_tie lib) (values ser))
                   (seq 0 (List.length ser))).
  { pose proof (Py_facts.argsort_perm (argsort_tie lib) (values ser)) as H.
    unfold values in H at 2. rewrite length_map in H. exact H. }
  unfold Spec.ranking_of. destruct ascending; simpl.
  - split; [ exact Hidx | apply pick_perm, Hidx ].
  - split.
    + apply perm_trans with (2 := Hidx). apply Permutation_sym, Permutation_rev.
    + apply perm_trans
        with (map (fun i => nth i ser (CNone, nan))
                (argsort (argsort_tie lib) (values ser))).
      * apply Permutation_sym, Permutation_rev.
      * apply pick_perm, Hidx.
Qed.

(** The scores of a ranking, in all pairs of positions. *)
Lemma ranking_of_sorted (lib : Libs) (ser : Series) (ascending : bool) :
  StronglySorted
    (fun a b => if ascending then Props.np_le a b else Props.np_le b a)
    (values (snd (Spec.ranking_of lib ser ascending))).
Proof.
  pose proof (Metric_facts.enumerated_scores lib ser) as Hsc.
  pose proof (Metric_facts.enumerated_sorted lib ser) as Hss.
  unfold Spec.ranking_of. destruct ascending; simpl.
  - rewrite Hsc. exact Hss.
  - unfold values in *. rewrite map_rev, Hsc.
    apply (Sort_facts.StronglySorted_rev Props.np_le), Hss.
Qed.

End Metric_more.

(** * The properties of the ranking engine and of the pipeline *)

Lemma Forall2_map_self {A B : Type} (P : A -> B -> Prop) (f : A -> B) (l : list A) :
  Forall (fun a => P a (f a)) l -> Forall2 P l (map f l).
Proof.
  induction 1; simpl; constructor; assumption.
Qed.

(** * The samples of a group and their number *)
Module Group_facts.

Local Open Scope list_scope.

(** What [groupby] hands to the mean and the standard deviation of a
    group are the values of the gene in the samples of the group. *)
Lemma group_values_samples (classes : dict string) (g : string)
    (cols : list string) (row : list float) :
  Spec.group_samples classes g cols row (group_values classes cols g row).
Proof.
  unfold group_values. revert row.
  induction cols as [ | c cols IH]; intros row.
  - constructor.
  - destruct row as [ | x row]; [ constructor | ].
    cbn [combine filter fst].
    destruct (dict_get classes c) as [g' | ] eqn:E.
    + destruct (String.eqb_spec g' g) as [-> | Hne]; cbn [map snd].
      * apply Spec.samples_in; [ exact E | apply IH ].
      * apply Spec.samples_out; [ congruence | apply IH ].
    + apply Spec.samples_out; [ congruence | apply IH ].
Qed.

(** The columns of class [g]. *)
Lemma group_values_length (classes : dict string) (g : string)
    (cols : list string) (row : list float) :
  List.length row = List.length cols ->
  List.length (group_values classes cols g row)
  = List.length
      (filter (fun c => match dict_get classes c with
                        | Some g' => String.eqb g' g
                        | None => false
                        end) cols).
Proof.
  unfold group_values. rewrite length_map. revert row.
  induction cols as [ | c cols IH]; intros row Hlen.
  - reflexivity.
  - destruct row as [ | x row]; [ discriminate | ].
    simpl in Hlen. cbn [combine filter fst].
    destruct (match dict_get classes c with
              | Some g' => String.eqb g' g
              | None => false
              end); simpl; rewrite IH by lia; reflexivity.
Qed.

(** In a dict the keys of class [g] are as many as the values [g]. *)
Lemma keys_of_class (classes : dict string) (g : string) :
  NoDup (map fst classes) ->
  List.length
    (filter (fun c => match dict_get classes c with
                      | Some g' => String.eqb g' g
                      | None => false
                      end) (map fst classes))
  = count_occ string_dec (dict_values classes) g.
Proof.
  unfold dict_values.
  induction classes as [ | [k v] classes IH]; intros Hnd.
  - reflexivity.
  - inversion Hnd as [ | ? ? Hk Hnd']; subst.
    cbn [map fst snd filter dict_get]. rewrite String.eqb_refl.
    assert (Hrest :
      filter (fun c => match (if String.eqb k c then Some v else dict_get classes c) with
                       | Some g' => String.eqb g' g
                       | None => false
                       end) (map fst classes)
      = filter (fun c => match dict_get classes c with
                         | Some g' => String.eqb g' g
                         | None => false
                         end) (map fst classes)).
    { apply filter_ext_in. intros c Hc.
      destruct (String.eqb_spec k c) as [-> | _]; [ contradiction | reflexivity ]. }
    cbn [count_occ]. destruct (String.eqb_spec v g) as [-> | Hne].
    + destruct (string_dec g g) as [_ | Hn]; [ | congruence ].
      cbn [List.length]. f_equal. rewrite <- (IH Hnd'). f_equal. exact Hrest.
    + destruct (string_dec v g) as [Heq | _]; [ congruence | ].
      rewrite <- (IH Hnd'). f_equal. exact Hrest.
Qed.

(** When the samples of the dict are columns of the frame, the number
    the code takes for a group is the number of its samples. *)
Lemma group_size_samples (classes : dict string) (df : DataFrame) (g : string)
    (row : list float) :
  Spec.samples_are_columns classes df ->
  List.length row = List.length (columns df) ->
  Spec.group_size classes g
  = List.length (group_values classes (columns df) g row).
Proof.
  intros [Hkeys [Hcols Hincl]] Hlen.
  rewrite (group_values_length _ _ _ _ Hlen).
  unfold Spec.group_size. rewrite <- (keys_of_class classes g Hkeys).
  apply Permutation_length. apply NoDup_Permutation.
  - apply NoDup_filter, Hkeys.
  - apply NoDup_filter, Hcols.
  - intros c. rewrite !filter_In. split; intros [Hin Hc]; split; try exact Hc.
    + apply Hincl, Hin.
    + destruct (dict_get classes c) as [g' | ] eqn:E; [ | discriminate ].
      destruct (in_dec string_dec c (map fst classes)) as [Hyes | Hno];
        [ exact Hyes | ].
      rewrite (Py_facts.dict_get_absent _ _ Hno) in E. discriminate.
Qed.

End Group_facts.

(** C1, as the code has it. With a name of the metric table and both
    phenotype groups among the columns, [calculate_metric] returns a
    ranking that lists every gene once, and the score it gives a gene is
    the value of the table's formula at the means and the sample
    standard deviations of the gene's values in the samples of the two
    groups, as pandas computes them in binary64. The numbers [n_pos] and
    [n_neg] of the t statistic are the numbers of samples that the class
    dict gives the two classes; they are the numbers of samples of the
    groups when the samples of the dict are columns of the frame, each
    named once. *)
Theorem calculate_metric_formula :
  forall (lib : Libs) (df : DataFrame) (method pos neg : string)
         (classes : dict string) (ascending : bool) (m : Metric),
    In (method, m) Spec.recognized ->
    In pos (group_keys classes (columns df)) ->
    In neg (group_keys classes (columns df)) ->
    exists ser_ind ser,
      GSEA.calculate_metric lib df method pos neg classes ascending
      = Ok (ser_ind, ser) /\
      Permutation ser_ind (seq 0 (List.length (rows df))) /\
      Forall2
        (fun i gs =>
           exists row xs_pos xs_neg,
             nth_error (rows df) i = Some (fst gs, row) /\
             Spec.group_samples classes pos (columns df) row xs_pos /\
             Spec.group_samples classes neg (columns df) row xs_neg /\
             snd gs =
               Spec.metric_formula (log2 lib) m
                 (mean (mean_resets lib) xs_pos) (mean (mean_resets lib) xs_neg)
                 (std xs_pos) (std xs_neg)
                 (F64.of_nat (Spec.group_size classes pos))
                 (F64.of_nat (Spec.group_size classes neg)) /\
             (Spec.samples_are_columns classes df ->
              List.length row = List.length (columns df) ->
              Spec.group_size classes pos = List.length xs_pos /\
              Spec.group_size classes neg = List.length xs_neg))
        ser_ind ser.
Proof.
  intros lib df method pos neg classes ascending m Hm Hpos Hneg.
  assert (Hname : GSEA.metric_of_name method = Some m).
  { apply Metric_facts.metric_of_name_spec. unfold Spec.metric_names.
    apply in_or_app. left. exact Hm. }
  rewrite (Metric_facts.calculate_metric_ranking lib df method pos neg classes
             ascending m Hname Hpos Hneg).
  set (ser := Spec.scores lib m df classes pos neg).
  assert (Hlen : List.length (values ser) = List.length (rows df)).
  { unfold values, ser, Spec.scores. rewrite !length_map. reflexivity. }
  assert (Hperm : Permutation (argsort (argsort_tie lib) (values ser))
                    (seq 0 (List.length (rows df)))).
  { rewrite <- Hlen. apply Py_facts.argsort_perm. }
  assert (Hall :
    forall idx : list nat,
      Forall (fun i => i < List.length (rows df)) idx ->
      Forall2
        (fun i gs =>
           exists row xs_pos xs_neg,
             nth_error (rows df) i = Some (fst gs, row) /\
             Spec.group_samples classes pos (columns df) row xs_pos /\
             Spec.group_samples classes neg (columns df) row xs_neg /\
             snd gs =
               Spec.metric_formula (log2 lib) m
                 (mean (mean_resets lib) xs_pos) (mean (mean_resets lib) xs_neg)
                 (std xs_pos) (std xs_neg)
                 (F64.of_nat (Spec.group_size classes pos))
                 (F64.of_nat (Spec.group_size classes neg)) /\
             (Spec.samples_are_columns classes df ->
              List.length row = List.length (columns df) ->
              Spec.group_size classes pos = List.length xs_pos /\
              Spec.group_size classes neg = List.length xs_neg))
        idx (map (fun i => nth i ser (CNone, nan)) idx)).
  { intros idx Hidx. apply Forall2_map_self.
    apply Forall_impl with (2 := Hidx). intros i Hi.
    destruct (nth_error (rows df) i) as [[g row] | ] eqn:E.
    - exists row, (group_values classes (columns df) pos row),
             (group_values classes (columns df) neg row).
      assert (Hnth : nth i ser (CNone, nan)
                     = (g, Spec.gene_score lib m classes (columns df) pos neg row)).
      { apply nth_error_nth. unfold ser, Spec.scores.
        rewrite nth_error_map, E. reflexivity. }
      rewrite Hnth. split; [ reflexivity | ].
      split; [ apply Group_facts.group_values_samples | ].
      split; [ apply Group_facts.group_values_samples | ].
      split; [ reflexivity | ].
      intros Hcols Hrow. split; apply Group_facts.group_size_samples; assumption.
    - apply nth_error_None in E. lia. }
  assert (Hrange : Forall (fun i => i < List.length (rows df))
                     (argsort (argsort_tie lib) (values ser))).
  { rewrite <- Hlen. apply Py_facts.argsort_in_range. }
  unfold Spec.ranking_of. fold ser. destruct ascending.
  - exists (argsort (argsort_tie lib) (values ser)),
           (map (fun i => nth i ser (CNone, nan)) (argsort (argsort_tie lib) (values ser))).
    split; [ reflexivity | ]. split; [ exact Hperm | ].
    apply Hall, Hrange.
  - exists (rev (argsort (argsort_tie lib) (values ser))),
           (rev (map (fun i => nth i ser (CNone, nan))
                   (argsort (argsort_tie lib) (values ser)))).
    split; [ reflexivity | ]. split.
    + apply perm_trans with (argsort (argsort_tie lib) (values ser));
        [ apply Permutation_sym, Permutation_rev | exact Hperm ].
    + rewrite <- map_rev. apply Hall. apply Forall_rev, Hrange.
Qed.

Lemma calculate_metric_formula_witness :
  In ("t_test"%string, Ttest) Spec.recognized /\
  GSEA.calculate_metric Fixture.lib Fixture.df_ties "t_test" "A" "B"
    Fixture.classes_ties false
  = Ok ([2; 1; 0; 3],
        [(CStr "c", infinity); (CStr "b", infinity); (CStr "a", 1);
         (CStr "d", 0.5)]%float) /\
  Spec.metric_formula (fun x => x) Ttest
    (mean true [0; 4]%float) (mean true [1; 1]%float)
    (std [0; 4]%float) (std [1; 1]%float) (F64.of_nat 2) (F64.of_nat 2)
  = 0.5%float.
Proof.
  assert (Hm : In ("t_test"%string, Ttest) Spec.recognized)
    by (simpl; tauto).
  assert (Hpos : In "A"%string
                   (group_keys Fixture.classes_ties (columns Fixture.df_ties)))
    by (vm_compute; tauto).
  assert (Hneg : In "B"%string
                   (group_keys Fixture.classes_ties (columns Fixture.df_ties)))
    by (vm_compute; tauto).
  split; [ exact Hm | ].
  destruct (calculate_metric_formula Fixture.lib Fixture.df_ties "t_test" "A" "B"
              Fixture.classes_ties false Ttest Hm Hpos Hneg)
    as [ser_ind [ser [Heq _]]].
  split; [ | vm_compute; reflexivity ].
  rewrite Heq. vm_compute in Heq. injection Heq as <- <-. reflexivity.
Defined.

(** C1 as stated fails: with a class dict that names a fifth sample of
    class A, which is no column of the frame, the t statistic of gene d
    is computed with 3 for the size of its group of two samples: the
    score returned is not the 0.5 of the table. *)
Lemma group_size_from_dict :
  (exists ser_ind ser,
      GSEA.calculate_metric Fixture.lib Fixture.df_ties "t_test" "A" "B"
        Fixture.classes_extra false = Ok (ser_ind, ser) /\
      In (CStr "d", 0.61237243569579447%float) ser) /\
  nth_error (rows Fixture.df_ties) 3 = Some (CStr "d", [0; 4; 1; 1]%float) /\
  Spec.group_samples Fixture.classes_extra "A" (columns Fixture.df_ties)
    [0; 4; 1; 1]%float [0; 4]%float /\
  Spec.group_samples Fixture.classes_extra "B" (columns Fixture.df_ties)
    [0; 4; 1; 1]%float [1; 1]%float /\
  Spec.metric_formula (fun x => x) Ttest
    (mean true [0; 4]%float) (mean true [1; 1]%float)
    (std [0; 4]%float) (std [1; 1]%float) (F64.of_nat 2) (F64.of_nat 2)
  = 0.5%float /\
  Spec.group_size Fixture.classes_extra "A" = 3.
Proof.
  split.
  { eexists. eexists. split; [ vm_compute; reflexivity | ].
    simpl. tauto. }
  split; [ reflexivity | ].
  split.
  { apply Spec.samples_in; [ reflexivity | ].
    apply Spec.samples_in; [ reflexivity | ].
    apply Spec.samples_out; [ discriminate | ].
    apply Spec.samples_out; [ discriminate | ].
    constructor. }
  split.
  { apply Spec.samples_out; [ discriminate | ].
    apply Spec.samples_out; [ discriminate | ].
    apply Spec.samples_in; [ reflexivity | ].
    apply Spec.samples_in; [ reflexivity | ].
    constructor. }
  split; vm_compute; reflexivity.
Qed.

(** * Ties and the two directions *)
Module Order_facts.

Local Open Scope list_scope.

Lemma nth_error_rev_at {A : Type} (l : list A) (p : nat) (a : A) :
  nth_error l p = Some a ->
  nth_error (rev l) (List.length l - S p) = Some a.
Proof.
  intros Hp.
  assert (Hlt : p < List.length l) by (apply nth_error_Some; congruence).
  rewrite nth_error_rev.
  destruct (Nat.ltb_spec (List.length l - S p) (List.length l)) as [_ | H]; [ | lia ].
  replace (List.length l - S (List.length l - S p)) with p by lia.
  exact Hp.
Qed.

Lemma tied_sym (x y : float) : Spec.tied x y -> Spec.tied y x.
Proof. unfold Spec.tied. tauto. Qed.

(** Two genes that tie cannot be in input order in a ranking and in its
    reversal. *)
Lemma ties_one_way (ser_ind : list nat) (scores : list float) :
  List.length ser_ind = List.length scores ->
  (exists p q x y,
      p < q /\ nth_error scores p = Some x /\ nth_error scores q = Some y /\
      Spec.tied x y) ->
  ~ (Spec.ties_keep_input_order ser_ind scores /\
     Spec.ties_keep_input_order (rev ser_ind) (rev scores)).
Proof.
  intros Hlen [p [q [x [y [Hpq [Hx [Hy Htied]]]]]]] [Hup Hdown].
  assert (Hq : q < List.length scores) by (apply nth_error_Some; congruence).
  destruct (nth_error ser_ind p) as [i | ] eqn:Hi;
    [ | apply nth_error_None in Hi; lia ].
  destruct (nth_error ser_ind q) as [j | ] eqn:Hj;
    [ | apply nth_error_None in Hj; lia ].
  pose proof (Hup p q i j x y Hpq Hi Hj Hx Hy Htied) as Hij.
  assert (Hji : j < i).
  { apply (Hdown (List.length scores - S q) (List.length scores - S p) j i y x).
    - lia.
    - rewrite <- Hlen. apply nth_error_rev_at, Hj.
    - rewrite <- Hlen. apply nth_error_rev_at, Hi.
    - apply nth_error_rev_at, Hy.
    - apply nth_error_rev_at, Hx.
    - apply tied_sym, Htied. }
  lia.
Qed.

Lemma ranking_of_lengths (lib : Libs) (ser : Series) (ascending : bool) :
  List.length (fst (Spec.ranking_of lib ser ascending))
  = List.length (values (snd (Spec.ranking_of lib ser ascending))).
Proof.
  unfold Spec.ranking_of, values.
  destruct ascending; simpl;
    repeat (first [ rewrite length_rev | rewrite length_map ]); reflexivity.
Qed.

(** Among four sorted values that are 1 or 4, two neighbours tie. *)
Lemma four_values_tie (l : list float) :
  List.length l = 4 ->
  Forall (fun x => x = 1%float \/ x = 4%float) l ->
  StronglySorted Props.np_le l ->
  exists p q x y,
    p < q /\ nth_error l p = Some x /\ nth_error l q = Some y /\ Spec.tied x y.
Proof.
  intros Hlen Hall Hs.
  destruct l as [ | a [ | b [ | c [ | d [ | e l]]]]]; try discriminate.
  inversion Hall as [ | ? ? Ha Hall1]; subst.
  inversion Hall1 as [ | ? ? Hb Hall2]; subst.
  inversion Hall2 as [ | ? ? Hc Hall3]; subst.
  inversion Hall3 as [ | ? ? Hd _]; subst.
  inversion Hs as [ | ? ? Hs1 Hfa]; subst.
  inversion Hs1 as [ | ? ? Hs2 Hfb]; subst.
  inversion Hfa as [ | ? ? Hab Hfa1]; subst.
  inversion Hfb as [ | ? ? Hbc _]; subst.
  assert (H11 : Spec.tied 1 1) by (split; reflexivity).
  assert (H44 : Spec.tied 4 4) by (split; reflexivity).
  destruct Ha as [-> | ->], Hb as [-> | ->];
    try (exists 0, 1; do 2 eexists;
         split; [ lia | split; [ reflexivity | split; [ reflexivity | assumption ] ] ]);
    try (vm_compute in Hab; discriminate).
  destruct Hc as [-> | ->];
    try (exists 1, 2; do 2 eexists;
         split; [ lia | split; [ reflexivity | split; [ reflexivity | assumption ] ] ]);
    try (vm_compute in Hbc; discriminate).
Qed.

End Order_facts.

(** C2, as the code has it. A ranking [calculate_metric] returns is
    sorted by score, ascending when [ascending] is set and descending
    otherwise, NaN scores at the far end, and the descending ranking is
    the ascending one reversed. No order of tied genes is kept: where
    numpy's sort, which is not stable, leaves them is open, and since one
    direction is the reversal of the other, two genes that tie are not
    in input order in both. *)
Theorem calculate_metric_order :
  forall (lib : Libs) (df : DataFrame) (method pos neg : string)
         (classes : dict string) (ascending : bool)
         (ser_ind : list nat) (ser : Series),
    GSEA.calculate_metric lib df method pos neg classes ascending
    = Ok (ser_ind, ser) ->
    (if ascending then Spec.sorted_ascending (values ser)
     else Spec.sorted_descending (values ser)) /\
    GSEA.calculate_metric lib df method pos neg classes (negb ascending)
    = Ok (rev ser_ind, rev ser) /\
    ((exists p q x y,
         p < q /\ nth_error (values ser) p = Some x /\
         nth_error (values ser) q = Some y /\ Spec.tied x y) ->
     ~ (Spec.ties_keep_input_order ser_ind (values ser) /\
        Spec.ties_keep_input_order (rev ser_ind) (values (rev ser)))).
Proof.
  intros lib df method pos neg classes ascending ser_ind ser Heq.
  destruct (Metric_facts.calculate_metric_shape _ _ _ _ _ _ _ _ Heq) as [ser0 Hall].
  rewrite (Hall ascending) in Heq. rewrite (Hall (negb ascending)).
  pose proof (Order_facts.ranking_of_lengths lib ser0 ascending) as Hlen.
  injection Heq as Hr.
  assert (Hidx : fst (Spec.ranking_of lib ser0 ascending) = ser_ind)
    by (rewrite Hr; reflexivity).
  assert (Hser : snd (Spec.ranking_of lib ser0 ascending) = ser)
    by (rewrite Hr; reflexivity).
  clear Hr. rewrite Hidx, Hser in Hlen.
  split; [ | split ].
  - rewrite <- Hser. unfold Spec.ranking_of.
    pose proof (Metric_facts.enumerated_scores lib ser0) as Hsc.
    destruct ascending; simpl.
    + rewrite Hsc. apply Metric_facts.ranking_ascending.
    + unfold values in *. rewrite map_rev, Hsc.
      apply Metric_facts.ranking_descending.
  - rewrite <- Hidx, <- Hser. unfold Spec.ranking_of.
    destruct ascending; simpl; rewrite ?rev_involutive; reflexivity.
  - intros Htie.
    replace (values (rev ser)) with (rev (values ser))
      by (unfold values; rewrite map_rev; reflexivity).
    apply Order_facts.ties_one_way; assumption.
Qed.

Lemma calculate_metric_order_witness :
  Spec.sorted_descending [4; 1; 1; 1]%float /\
  GSEA.calculate_metric Fixture.lib Fixture.df_ties "diff_of_classes" "A" "B"
    Fixture.classes_ties true
  = Ok ([0; 1; 3; 2],
        [(CStr "a", 1); (CStr "b", 1); (CStr "d", 1); (CStr "c", 4)]%float).
Proof.
  assert (Heq :
    GSEA.calculate_metric Fixture.lib Fixture.df_ties "diff_of_classes" "A" "B"
      Fixture.classes_ties false
    = Ok ([2; 3; 1; 0],
          [(CStr "c", 4); (CStr "d", 1); (CStr "b", 1); (CStr "a", 1)]%float))
    by (vm_compute; reflexivity).
  destruct (calculate_metric_order Fixture.lib Fixture.df_ties
              "diff_of_classes" "A" "B" Fixture.classes_ties false _ _ Heq)
    as [Hsorted [Hrev _]].
  split; [ exact Hsorted | exact Hrev ].
Defined.

(** C2 as stated fails. With a sort that leaves equal values in input
    order, the descending ranking of four genes has the tied genes a, b
    and d (input positions 0, 1 and 3) as d, b, a; and whatever the sort
    does with equal values, the tied genes of this frame are out of
    input order in the ascending or in the descending ranking. *)
Lemma calculate_metric_ties_reversed :
  (GSEA.calculate_metric Fixture.lib Fixture.df_ties "diff_of_classes" "A" "B"
     Fixture.classes_ties false
   = Ok ([2; 3; 1; 0],
         [(CStr "c", 4); (CStr "d", 1); (CStr "b", 1); (CStr "a", 1)]%float) /\
   ~ Spec.ties_keep_input_order [2; 3; 1; 0] [4; 1; 1; 1]%float) /\
  (forall (lib : Libs) (idx_up idx_down : list nat) (ser_up ser_down : Series),
      GSEA.calculate_metric lib Fixture.df_ties "diff_of_classes" "A" "B"
        Fixture.classes_ties true = Ok (idx_up, ser_up) ->
      GSEA.calculate_metric lib Fixture.df_ties "diff_of_classes" "A" "B"
        Fixture.classes_ties false = Ok (idx_down, ser_down) ->
      ~ (Spec.ties_keep_input_order idx_up (values ser_up) /\
         Spec.ties_keep_input_order idx_down (values ser_down))).
Proof.
  split.
  - split.
    + vm_compute. reflexivity.
    + intros H.
      assert (Hlt : 3 < 1).
      { apply (H 1 2 3 1 1%float 1%float); try reflexivity.
        - lia.
        - split; reflexivity. }
      lia.
  - intros lib idx_up idx_down ser_up ser_down Hup Hdown.
    destruct (Metric_more.calculate_metric_ok_inv _ _ _ _ _ _ _ _ Hup)
      as [m [Hm [Hpos [Hneg Hr]]]].
    assert (Hmetric : m = DiffOfClasses) by (vm_compute in Hm; congruence).
    subst m.
    rewrite (Metric_facts.calculate_metric_ranking _ _ _ _ _ _ false _ Hm Hpos Hneg)
      in Hdown.
    assert (Hscores : Spec.scores lib DiffOfClasses Fixture.df_ties
                        Fixture.classes_ties "A" "B"
                      = [(CStr "a", 1); (CStr "b", 1); (CStr "c", 4);
                         (CStr "d", 1)]%float).
    { destruct lib as [lg tie [ | ]]; vm_compute; reflexivity. }
    rewrite Hscores in Hr, Hdown.
    remember [(CStr "a", 1); (CStr "b", 1); (CStr "c", 4); (CStr "d", 1)]%float
      as ser eqn:Eser.
    pose proof (Order_facts.ranking_of_lengths lib ser true) as Hlen.
    pose proof (Metric_more.ranking_of_perm lib ser true) as [_ Hperm].
    pose proof (Metric_more.ranking_of_sorted lib ser true) as Hsorted.
    assert (Hrev : Spec.ranking_of lib ser false
                   = (rev (fst (Spec.ranking_of lib ser true)),
                      rev (snd (Spec.ranking_of lib ser true))))
      by reflexivity.
    rewrite Hrev in Hdown. rewrite <- Hr in Hdown, Hlen, Hperm, Hsorted.
    cbn [fst snd] in Hdown, Hlen, Hperm, Hsorted.
    injection Hdown as <- <-.
    replace (values (rev ser_up)) with (rev (values ser_up))
      by (unfold values; rewrite map_rev; reflexivity).
    apply Order_facts.ties_one_way; [ exact Hlen | ].
    apply Order_facts.four_values_tie.
    + unfold values. rewrite length_map, (Permutation_length Hperm), Eser.
      reflexivity.
    + unfold values. apply Forall_map.
      apply (Permutation_Forall (Permutation_sym Hperm)).
      rewrite Eser.
      repeat (apply Forall_cons; [ cbn [snd]; auto | ]). apply Forall_nil.
    + exact Hsorted.
Qed.

(** C8. Both constructors store [max(permutation_num, 0)]: a negative
    number of permutations becomes 0, and nothing is raised. *)
Theorem permutation_num_clamped :
  forall (GeneSets : Type) (p : Z)
         (data : GSEA.RawFrame) (rnk : Series) (gene_sets : GeneSets)
         (classes : GSEA.classes_arg) (min_size max_size : Z) (weight : float)
         (permutation_type method : string) (ascending : bool) (threads seed : Z),
    GSEA.permutation_num
      (GSEA.init data gene_sets classes min_size max_size p weight
         permutation_type method ascending threads seed) = Z.max p 0 /\
    Prerank.permutation_num
      (Prerank.init rnk gene_sets min_size max_size p weight ascending threads seed)
    = Z.max p 0 /\
    (0 <= Z.max p 0)%Z.
Proof.
  intros. simpl.
  destruct (Z.gtb_spec p 0); repeat split; lia.
Qed.

Lemma run_metric_rejects (method : string) :
  ~ In (lower method) (map fst Spec.metric_names) ->
  GSEA.run_metric method = Raise (MethodNotSupported (lower method)).
Proof.
  unfold GSEA.run_metric, str_in, Spec.metric_names, Spec.recognized. simpl.
  intros Hnot.
  repeat match goal with
         | |- context [String.eqb ?a ?b] =>
             destruct (String.eqb_spec a b) as [Heq | ?]; simpl;
             [ exfalso; apply Hnot; rewrite Heq; tauto | ]
         end.
  reflexivity.
Qed.

(** C6, as the code has it. For a method name that is none of the six
    names of the table nor one of the short forms s2n and abs_s2n,
    [calculate_metric] raises [LookupError] and returns no ranking; and
    for a name whose lower-case form is none of these, [run] is aborted
    by its own check of the method, whatever the data and the classes. *)
Theorem unsupported_metric_raises :
  forall (method : string),
    (~ In method (map fst Spec.metric_names) ->
     forall (lib : Libs) (df : DataFrame) (pos neg : string)
            (classes : dict string) (ascending : bool),
       GSEA.calculate_metric lib df method pos neg classes ascending
       = Raise (LookupError method)) /\
    (~ In (lower method) (map fst Spec.metric_names) ->
     forall (Summary GeneSets : Type) (ext : Externals Summary GeneSets)
            (self : GSEA.t GeneSets),
       GSEA.method self = method ->
       GSEA.run ext self = Raise (MethodNotSupported (lower method))).
Proof.
  intros method. split.
  - intros Hnot lib df pos neg classes ascending.
    apply Metric_facts.metric_of_name_None in Hnot.
    unfold GSEA.calculate_metric. rewrite Hnot. reflexivity.
  - intros Hnot Summary GeneSets ext self Hself.
    unfold GSEA.run. rewrite Hself, (run_metric_rejects method Hnot). reflexivity.
Qed.

Lemma unsupported_metric_raises_witness :
  GSEA.calculate_metric Fixture.lib Fixture.df_ties "pearson" "A" "B"
    Fixture.classes_ties false = Raise (LookupError "pearson") /\
  GSEA.run (Fixture.ext []) (Fixture.gsea_dict Fixture.dict_AB "Pearson")
  = Raise (MethodNotSupported "pearson").
Proof.
  assert (Hnot : ~ In "pearson"%string (map fst Spec.metric_names)).
  { simpl. intros H. repeat destruct H as [H | H]; try discriminate H. exact H. }
  split.
  - apply (proj1 (unsupported_metric_raises "pearson") Hnot).
  - apply (proj2 (unsupported_metric_raises "Pearson") Hnot). reflexivity.
Defined.

(** C6 as stated fails: T_TEST is none of the names [calculate_metric]
    takes, and [calculate_metric] raises on it, but [run] reads the name
    in lower case and a phenotype run with it goes through. *)
Lemma run_accepts_upper_case :
  ~ In "T_TEST"%string (map fst Spec.metric_names) /\
  GSEA.calculate_metric Fixture.lib Fixture.df_ties "T_TEST" "A" "B"
    Fixture.classes_ties false = Raise (LookupError "T_TEST") /\
  GSEA.method Fixture.gsea_upper = "T_TEST"%string /\
  GSEA.run_metric "T_TEST" = Ok Ttest /\
  exists gsum, GSEA.run (Fixture.ext []) Fixture.gsea_upper = Ok gsum.
Proof.
  split.
  { simpl. intros H. repeat destruct H as [H | H]; try discriminate H. exact H. }
  split; [ vm_compute; reflexivity | ].
  split; [ reflexivity | ].
  split; [ vm_compute; reflexivity | ].
  eexists. vm_compute. reflexivity.
Qed.

(** * [load_classes]: counts, order and failures *)
Module Classes_facts.

Import GSEA.
Local Open Scope list_scope.

Lemma keys_dict_set {V : Type} (d : dict V) (k : string) (v : V) :
  map fst (dict_set d k v)
  = if in_dec string_dec k (map fst d) then map fst d else map fst d ++ [k].
Proof.
  induction d as [ | [k0 v0] d IH]; simpl.
  - reflexivity.
  - destruct (String.eqb_spec k0 k) as [-> | Hne]; simpl.
    + destruct (string_dec k k); [ reflexivity | congruence ].
    + rewrite IH. destruct (string_dec k0 k); [ congruence | ].
      destruct (in_dec string_dec k (map fst d)); reflexivity.
Qed.

Lemma first_seen_ext (xs s1 s2 : list string) :
  (forall y, In y s1 <-> In y s2) -> first_seen s1 xs = first_seen s2 xs.
Proof.
  revert s1 s2. induction xs as [ | x xs IH]; intros s1 s2 Heq; simpl.
  - reflexivity.
  - destruct (in_dec string_dec x s1) as [H1 | H1],
             (in_dec string_dec x s2) as [H2 | H2].
    + apply IH, Heq.
    + exfalso. apply H2, Heq, H1.
    + exfalso. apply H1, Heq, H2.
    + f_equal. apply IH. intros y. simpl. rewrite (Heq y). tauto.
Qed.

Lemma first_seen_fresh (xs seen : list string) (y : string) :
  In y (first_seen seen xs) -> ~ In y seen /\ In y xs.
Proof.
  revert seen. induction xs as [ | x xs IH]; intros seen; simpl.
  - contradiction.
  - destruct (in_dec string_dec x seen) as [Hx | Hx]; simpl.
    + intros H. destruct (IH _ H). tauto.
    + intros [<- | H]; [ tauto | ].
      destruct (IH _ H) as [Hn Hin]. simpl in Hn. tauto.
Qed.

Lemma first_seen_NoDup (xs seen : list string) : NoDup (first_seen seen xs).
Proof.
  revert seen. induction xs as [ | x xs IH]; intros seen; simpl.
  - constructor.
  - destruct (in_dec string_dec x seen); [ apply IH | ].
    constructor; [ | apply IH ].
    intros H. apply first_seen_fresh in H. simpl in H. tauto.
Qed.

Lemma first_seen_complete (xs seen : list string) (y : string) :
  In y xs -> ~ In y seen -> In y (first_seen seen xs).
Proof.
  revert seen. induction xs as [ | x xs IH]; intros seen; simpl.
  - contradiction.
  - intros Hin Hns.
    destruct (in_dec string_dec x seen) as [Hx | Hx].
    + destruct Hin as [-> | Hin]; [ contradiction | apply IH; assumption ].
    + destruct (string_dec x y) as [-> | Hne]; [ left; reflexivity | ].
      right. destruct Hin as [-> | Hin]; [ congruence | ].
      apply IH; [ exact Hin | ]. simpl. tauto.
Qed.

(** The keys of a counter: the distinct elements in order of first
    occurrence. *)
Lemma fold_count_keys (xs : list string) (c : dict nat) :
  map fst (fold_left count_step xs c)
  = map fst c ++ first_seen (map fst c) xs.
Proof.
  revert c. induction xs as [ | x xs IH]; intros c; simpl.
  - rewrite app_nil_r. reflexivity.
  - rewrite IH. unfold count_step. rewrite keys_dict_set.
    destruct (in_dec string_dec x (map fst c)) as [Hx | Hx].
    + reflexivity.
    + rewrite <- app_assoc. simpl. do 2 f_equal.
      apply first_seen_ext. intros y. rewrite in_app_iff. simpl. tauto.
Qed.

Lemma Counter_keys (xs : list string) :
  map fst (Counter xs) = first_seen [] xs.
Proof. apply (fold_count_keys xs []). Qed.

Lemma fold_count_get (xs : list string) (c : dict nat) (k : string) :
  dict_get (fold_left count_step xs c) k
  = if (count_occ string_dec xs k =? 0)%nat then dict_get c k
    else Some (counter_get c k + count_occ string_dec xs k).
Proof.
  revert c. induction xs as [ | x xs IH]; intros c; simpl.
  - reflexivity.
  - rewrite IH. unfold count_step, counter_get. rewrite Py_facts.dict_get_set.
    destruct (string_dec x k) as [-> | Hne].
    + rewrite String.eqb_refl. simpl.
      destruct (count_occ string_dec xs k =? 0)%nat eqn:E.
      * apply Nat.eqb_eq in E. rewrite E. f_equal. lia.
      * f_equal. lia.
    + destruct (String.eqb_spec x k) as [-> | _]; [ congruence | reflexivity ].
Qed.

Lemma dict_get_In {V : Type} (d : dict V) (k : string) (v : V) :
  dict_get d k = Some v -> In (k, v) d.
Proof.
  induction d as [ | [k0 v0] d IH]; simpl.
  - discriminate.
  - destruct (String.eqb_spec k0 k) as [-> | Hne].
    + intros [= ->]. left. reflexivity.
    + intros H. right. apply IH, H.
Qed.

Lemma In_dict_get {V : Type} (d : dict V) (k : string) (v : V) :
  NoDup (map fst d) -> In (k, v) d -> dict_get d k = Some v.
Proof.
  induction d as [ | [k0 v0] d IH]; simpl; intros Hnd Hin.
  - contradiction.
  - inversion Hnd as [ | ? ? Hk0 Hnd']; subst.
    destruct Hin as [[= -> ->] | Hin].
    + rewrite String.eqb_refl. reflexivity.
    + destruct (String.eqb_spec k0 k) as [-> | Hne].
      * exfalso. apply Hk0. apply in_map_iff. exists (k, v). split; [ reflexivity | exact Hin ].
      * apply IH; assumption.
Qed.

(** The items of a counter: every element with its number of
    occurrences. *)
Lemma Counter_items (xs : list string) (c : string) (n : nat) :
  In (c, n) (Counter xs) <-> In c xs /\ n = count_occ string_dec xs c.
Proof.
  assert (Hget : dict_get (Counter xs) c
                 = if (count_occ string_dec xs c =? 0)%nat then None
                   else Some (count_occ string_dec xs c))
    by apply (fold_count_get xs [] c).
  split.
  - intros Hin.
    assert (Hnd : NoDup (map fst (Counter xs)))
      by (rewrite Counter_keys; apply first_seen_NoDup).
    rewrite (In_dict_get _ _ _ Hnd Hin) in Hget.
    destruct (count_occ string_dec xs c =? 0)%nat eqn:E; [ discriminate | ].
    injection Hget as ->. split; [ | reflexivity ].
    apply Nat.eqb_neq in E. apply (count_occ_In string_dec). lia.
  - intros [Hin ->]. apply dict_get_In. rewrite Hget.
    apply (count_occ_In string_dec) in Hin.
    destruct (Nat.eqb_spec (count_occ string_dec xs c) 0); [ lia | reflexivity ].
Qed.

Lemma check_sizes_ok (items : list (string * nat)) :
  Forall (fun cv => 3 <= snd cv) items -> check_sizes items = Ok (map fst items).
Proof.
  intros H. unfold check_sizes. apply Py_facts.mapM_ok.
  apply Forall_impl with (2 := H). intros [c v] Hv. simpl in *.
  destruct (Nat.ltb_spec v 3); [ lia | reflexivity ].
Qed.

Lemma check_sizes_raise (items : list (string * nat)) :
  Exists (fun cv => snd cv < 3) items ->
  exists c v, In (c, v) items /\ v < 3 /\
              check_sizes items = Raise (GroupTooSmall c v).
Proof.
  unfold check_sizes.
  induction items as [ | [c v] items IH]; intros Hex.
  - inversion Hex.
  - simpl. destruct (Nat.ltb_spec v 3) as [Hlt | Hge].
    + exists c, v. simpl. auto.
    + assert (Hex' : Exists (fun cv => snd cv < 3) items).
      { inversion Hex as [? ? Hh | ? ? Ht]; subst; [ simpl in Hh; lia | exact Ht ]. }
      destruct (IH Hex') as [c' [v' [Hin [Hlt Heq]]]].
      exists c', v'. simpl. rewrite Heq. auto.
Qed.

Lemma check_sizes_inv (items : list (string * nat)) (s : list string) :
  check_sizes items = Ok s ->
  s = map fst items /\ Forall (fun cv => 3 <= snd cv) items.
Proof.
  intros Hok.
  destruct (Forall_Exists_dec (fun cv : string * nat => 3 <= snd cv)
              (fun cv => le_dec 3 (snd cv)) items) as [Hall | Hex].
  - rewrite (check_sizes_ok _ Hall) in Hok. injection Hok as <-. auto.
  - exfalso.
    assert (Hex' : Exists (fun cv : string * nat => snd cv < 3) items).
    { apply Exists_impl with (2 := Hex). intros cv. simpl. lia. }
    destruct (check_sizes_raise _ Hex') as [c [v [_ [_ Heq]]]]. congruence.
Qed.

Lemma occurs_first_cons (xs : list string) (x a b : string) :
  x <> a -> x <> b -> Spec.occurs_first xs a b -> Spec.occurs_first (x :: xs) a b.
Proof.
  intros Ha Hb [before [after [-> [Hna Hnb]]]].
  exists (x :: before), after.
  split; [ reflexivity | split; simpl; tauto ].
Qed.

Lemma StronglySorted_weaken {A : Type} (R R' : A -> A -> Prop) (l : list A) :
  (forall a b, In a l -> In b l -> R a b -> R' a b) ->
  StronglySorted R l -> StronglySorted R' l.
Proof.
  intros Himp Hs. induction Hs as [ | x l Hl IH Hx].
  - constructor.
  - constructor.
    + apply IH. intros a b Ha Hb. apply Himp; right; assumption.
    + rewrite Forall_forall in *. intros y Hy.
      apply Himp; [ left; reflexivity | right; exact Hy | apply Hx, Hy ].
Qed.

(** The keys of a counter stand in the order of their first
    occurrence. *)
Lemma first_seen_sorted (xs seen : list string) :
  StronglySorted (Spec.occurs_first xs) (first_seen seen xs).
Proof.
  revert seen. induction xs as [ | x xs IH]; intros seen; simpl.
  - constructor.
  - destruct (in_dec string_dec x seen) as [Hx | Hx].
    + apply StronglySorted_weaken with (2 := IH seen).
      intros a b Ha Hb. apply first_seen_fresh in Ha, Hb.
      apply occurs_first_cons; intros ->; tauto.
    + constructor.
      * apply StronglySorted_weaken with (2 := IH (x :: seen)).
        intros a b Ha Hb. apply first_seen_fresh in Ha, Hb. simpl in Ha, Hb.
        apply occurs_first_cons; intros ->; tauto.
      * apply Forall_forall. intros y _. exists [], xs. simpl. auto.
Qed.

Lemma StronglySorted_fst {A B : Type} (R : A -> A -> Prop) (l : list (A * B)) :
  StronglySorted R (map fst l) ->
  StronglySorted (fun a b => R (fst a) (fst b)) l.
Proof.
  induction l as [ | x l IH]; simpl; intros Hs.
  - constructor.
  - inversion Hs as [ | ? ? Hl Hx]; subst. constructor.
    + apply IH, Hl.
    + rewrite Forall_forall in *. intros y Hy. apply Hx, in_map, Hy.
Qed.

Lemma by_count_items (d : dict string) (c : string) (n : nat) :
  In (c, n) (Spec.by_count d) <-> In c (dict_values d) /\ n = Spec.group_size d c.
Proof.
  unfold Spec.by_count, Spec.group_size. rewrite <- Counter_items. split.
  - apply Permutation_in, Sort_facts.sorted_perm.
  - apply Permutation_in, Permutation_sym, Sort_facts.sorted_perm.
Qed.

Lemma by_count_NoDup (d : dict string) : NoDup (map fst (Spec.by_count d)).
Proof.
  apply (Permutation_NoDup (l := map fst (Counter (dict_values d)))).
  - apply Permutation_map, Permutation_sym, Sort_facts.sorted_perm.
  - rewrite Counter_keys. apply first_seen_NoDup.
Qed.

Lemma by_count_sorted (d : dict string) :
  StronglySorted (fun a b : string * nat => snd a <= snd b) (Spec.by_count d).
Proof.
  apply Sorted_StronglySorted.
  - intros a b c Hab Hbc. lia.
  - apply Sorted_ind with (R := ascending_by (fun a b : string * nat => (snd a <? snd b)%nat)).
    + constructor.
    + intros a l _ IH Hhd. constructor; [ exact IH | ].
      destruct Hhd as [ | b l Hab]; constructor.
      unfold ascending_by in Hab. apply Nat.ltb_ge in Hab. exact Hab.
    + apply Sort_facts.sorted_Sorted.
      intros a b Hab. apply Nat.ltb_lt in Hab. apply Nat.ltb_ge. lia.
Qed.

Lemma by_count_stable (d : dict string) :
  StronglySorted
    (fun a b : string * nat =>
       snd a < snd b \/ Spec.occurs_first (dict_values d) (fst a) (fst b))
    (Spec.by_count d).
Proof.
  apply StronglySorted_weaken
    with (R := stably (fun a b : string * nat => (snd a <? snd b)%nat)
                 (fun a b => Spec.occurs_first (dict_values d) (fst a) (fst b))).
  - intros a b _ _ [H | H]; [ left; apply Nat.ltb_lt, H | right; exact H ].
  - apply Sort_facts.sorted_stable, StronglySorted_fst.
    rewrite Counter_keys. apply first_seen_sorted.
Qed.

(** What the dict branch of [load_classes] computes. *)
Lemma load_classes_dict (parser : cls_source -> result (string * string * list string))
    (d : dict string) :
  load_classes parser (ClsDict d)
  = bind (check_sizes (Spec.by_count d))
      (fun s => bind (getitem s 0)
                  (fun pos => bind (getitem s 1)
                                (fun neg => Ok (pos, neg, None)))).
Proof. reflexivity. Qed.

End Classes_facts.

(** C5, as the code has it. When some class of a class dict has fewer
    than 3 samples, [load_classes] raises the group-size exception for a
    class with fewer than 3 samples, and a run that got past its checks
    of the configuration is aborted by it, whatever the expression data:
    nothing is loaded or scored before. For a label vector or a class
    file [load_classes] makes no check of its own: an exception of
    [gsea_cls_parser] is raised again and aborts the run at the same
    point, and what the parser returns is taken as it is. The number of
    classes of a dict is not checked. *)
Theorem small_group_aborts :
  (forall (d : dict string) (c : string),
      In c (dict_values d) ->
      Spec.group_size d c < 3 ->
      exists c' v,
        In c' (dict_values d) /\ v = Spec.group_size d c' /\ v < 3 /\
        (forall parser,
           GSEA.load_classes parser (GSEA.ClsDict d) = Raise (GroupTooSmall c' v)) /\
        (forall (Summary GeneSets : Type) (ext : Externals Summary GeneSets)
                (self : GSEA.t GeneSets) (m : Metric),
           GSEA.classes self = GSEA.ClsDict d ->
           GSEA.run_metric (GSEA.method self) = Ok m ->
           str_in (GSEA.permutation_type self) ["phenotype"; "gene_set"]%string = true ->
           (GSEA.min_size self <= GSEA.max_size self)%Z ->
           GSEA.run ext self = Raise (GroupTooSmall c' v))) /\
  (forall (Summary GeneSets : Type) (ext : Externals Summary GeneSets)
          (self : GSEA.t GeneSets) (source : cls_source),
      GSEA.classes self = GSEA.ClsOther source ->
      (forall e : exn,
          gsea_cls_parser ext source = Raise e ->
          GSEA.load_classes (gsea_cls_parser ext) (GSEA.ClsOther source) = Raise e /\
          (forall m : Metric,
              GSEA.run_metric (GSEA.method self) = Ok m ->
              str_in (GSEA.permutation_type self) ["phenotype"; "gene_set"]%string
              = true ->
              (GSEA.min_size self <= GSEA.max_size self)%Z ->
              GSEA.run ext self = Raise e)) /\
      (forall (pos neg : string) (cls_vector : list string),
          gsea_cls_parser ext source = Ok (pos, neg, cls_vector) ->
          GSEA.load_classes (gsea_cls_parser ext) (GSEA.ClsOther source)
          = Ok (pos, neg, Some cls_vector))).
Proof.
  split.
  - intros d c Hin Hsmall.
    assert (Hex : Exists (fun cv : string * nat => snd cv < 3) (Spec.by_count d)).
    { apply Exists_exists. exists (c, Spec.group_size d c). split.
      - apply Classes_facts.by_count_items. auto.
      - exact Hsmall. }
    destruct (Classes_facts.check_sizes_raise _ Hex) as [c' [v [Hitem [Hv Hraise]]]].
    apply Classes_facts.by_count_items in Hitem. destruct Hitem as [Hin' Hcount].
    assert (Hload : forall parser,
               GSEA.load_classes parser (GSEA.ClsDict d) = Raise (GroupTooSmall c' v)).
    { intros parser. rewrite Classes_facts.load_classes_dict, Hraise. reflexivity. }
    exists c', v. repeat split; try assumption.
    intros Summary GeneSets ext self m Hcls Hm Hpt Hsz.
    apply Z.leb_le in Hsz.
    unfold GSEA.run. rewrite Hm, Hpt, Hsz, Hcls. cbn [bind assert].
    rewrite Hload. reflexivity.
  - intros Summary GeneSets ext self source Hcls. split.
    + intros e He.
      assert (Hload : GSEA.load_classes (gsea_cls_parser ext) (GSEA.ClsOther source)
                      = Raise e).
      { unfold GSEA.load_classes. rewrite He. reflexivity. }
      split; [ exact Hload | ].
      intros m Hm Hpt Hsz. apply Z.leb_le in Hsz.
      unfold GSEA.run. rewrite Hm, Hpt, Hsz, Hcls. cbn [bind assert].
      rewrite Hload. reflexivity.
    + intros pos neg cls_vector Hok.
      unfold GSEA.load_classes. rewrite Hok. reflexivity.
Qed.

Lemma small_group_aborts_witness :
  (In "B"%string (dict_values Fixture.dict_small) /\
   Spec.group_size Fixture.dict_small "B" < 3 /\
   exists c' v,
     v < 3 /\
     GSEA.run (Fixture.ext []) (Fixture.gsea_dict Fixture.dict_small "t_test")
     = Raise (GroupTooSmall c' v)) /\
  GSEA.run (Fixture.ext []) Fixture.gsea_cls_file = Raise ParserError.
Proof.
  assert (Hin : In "B"%string (dict_values Fixture.dict_small))
    by (simpl; tauto).
  assert (Hsmall : Spec.group_size Fixture.dict_small "B" < 3)
    by (vm_compute; lia).
  split.
  - split; [ exact Hin | ]. split; [ exact Hsmall | ].
    destruct (proj1 small_group_aborts Fixture.dict_small "B"%string Hin Hsmall)
      as [c' [v [_ [_ [Hv [_ Hrun]]]]]].
    exists c', v. split; [ exact Hv | ].
    apply (Hrun string unit (Fixture.ext [])
             (Fixture.gsea_dict Fixture.dict_small "t_test") Ttest).
    + reflexivity.
    + reflexivity.
    + reflexivity.
    + simpl. lia.
  - refine (proj2 (proj1 (proj2 small_group_aborts string unit (Fixture.ext [])
                            Fixture.gsea_cls_file (ClsFile "classes.cls") eq_refl)
                     ParserError eq_refl)
              Ttest _ _ _).
    + reflexivity.
    + reflexivity.
    + simpl. lia.
Defined.

(** C5 as stated fails: a dict with three classes, none with fewer than
    3 samples, is accepted, and the two smallest classes become the
    phenotypes. *)
Lemma three_classes_accepted :
  first_seen [] (dict_values Fixture.dict_ABC) = ["A"; "B"; "C"]%string /\
  (forall c, In c (dict_values Fixture.dict_ABC) ->
             3 <= Spec.group_size Fixture.dict_ABC c) /\
  forall parser,
    GSEA.load_classes parser (GSEA.ClsDict Fixture.dict_ABC)
    = Ok ("A"%string, "B"%string, None).
Proof.
  split; [ reflexivity | ]. split.
  - intros c Hc. simpl in Hc.
    repeat destruct Hc as [<- | Hc]; try contradiction; vm_compute; lia.
  - intros parser. reflexivity.
Qed.

(** C9, as the code has it. From a class dict, [load_classes] takes as
    positive phenotype a class with the fewest samples and as negative
    phenotype a class with the fewest samples among the others; when the
    two have as many samples, the positive one is the class that occurs
    first in the dict. *)
Theorem load_classes_by_count :
  forall (parser : cls_source -> result (string * string * list string))
         (d : dict string) (pos neg : string) (cls_vector : option (list string)),
    GSEA.load_classes parser (GSEA.ClsDict d) = Ok (pos, neg, cls_vector) ->
    cls_vector = None /\
    pos <> neg /\
    In pos (dict_values d) /\ In neg (dict_values d) /\
    3 <= Spec.group_size d pos /\
    Spec.group_size d pos <= Spec.group_size d neg /\
    (forall c, In c (dict_values d) -> c <> pos ->
               Spec.group_size d neg <= Spec.group_size d c) /\
    (Spec.group_size d pos = Spec.group_size d neg ->
     Spec.occurs_first (dict_values d) pos neg).
Proof.
  intros parser d pos neg cls_vector.
  rewrite Classes_facts.load_classes_dict.
  destruct (GSEA.check_sizes (Spec.by_count d)) as [s | e] eqn:Hcs; simpl;
    [ | discriminate ].
  apply Classes_facts.check_sizes_inv in Hcs. destruct Hcs as [-> Hge].
  pose proof (Classes_facts.by_count_items d) as Hitems.
  pose proof (Classes_facts.by_count_NoDup d) as Hnd.
  pose proof (Classes_facts.by_count_sorted d) as Hsorted.
  pose proof (Classes_facts.by_count_stable d) as Hstable.
  destruct (Spec.by_count d) as [ | [p np] [ | [n nn] others]]; simpl;
    try discriminate.
  intros H. injection H as <- <- <-.
  assert (Hp : In p (dict_values d) /\ np = Spec.group_size d p)
    by (apply Hitems; left; reflexivity).
  assert (Hn : In n (dict_values d) /\ nn = Spec.group_size d n)
    by (apply Hitems; right; left; reflexivity).
  destruct Hp as [Hpin Hpn], Hn as [Hnin Hnn].
  inversion Hnd as [ | ? ? Hpnot _]; subst.
  inversion Hge as [ | ? ? Hp3 _]; subst. simpl in Hp3.
  inversion Hsorted as [ | ? ? Hs' Hpall]; subst.
  inversion Hs' as [ | ? ? _ Hnall]; subst.
  inversion Hpall as [ | ? ? Hpn' _]; subst. simpl in Hpn'.
  inversion Hstable as [ | ? ? _ Hpst]; subst.
  inversion Hpst as [ | ? ? Hst _]; subst. simpl in Hst.
  split; [ reflexivity | ].
  split; [ intros ->; apply Hpnot; left; reflexivity | ].
  repeat split; try assumption.
  - intros c Hc Hcp.
    assert (Hitem : In (c, Spec.group_size d c)
                      ((p, Spec.group_size d p) :: (n, Spec.group_size d n) :: others))
      by (apply Hitems; auto).
    destruct Hitem as [[= ->] | [[= -> ] | Hitem]].
    + congruence.
    + lia.
    + rewrite Forall_forall in Hnall. apply (Hnall _ Hitem).
  - intros Heq. destruct Hst as [Hlt | Hfirst]; [ lia | exact Hfirst ].
Qed.

Lemma load_classes_by_count_witness :
  Spec.group_size Fixture.dict_ABC "A" <= Spec.group_size Fixture.dict_ABC "B" /\
  Spec.occurs_first (dict_values Fixture.dict_ABC) "A" "B".
Proof.
  assert (Hload : GSEA.load_classes Fixture.cls_parser (GSEA.ClsDict Fixture.dict_ABC)
                  = Ok ("A"%string, "B"%string, None))
    by reflexivity.
  destruct (load_classes_by_count Fixture.cls_parser Fixture.dict_ABC _ _ _ Hload)
    as [_ [_ [_ [_ [_ [Hle [_ Hfirst]]]]]]].
  split; [ exact Hle | apply Hfirst; reflexivity ].
Defined.

(** C9 as stated fails: two class dicts with the same group sizes, three
    samples of A and three of B, give opposite phenotypes: the class
    that occurs first is the positive one. *)
Lemma equal_sizes_follow_label_order :
  (forall c, Spec.group_size Fixture.dict_AB c = Spec.group_size Fixture.dict_BA c) /\
  (forall parser,
     GSEA.load_classes parser (GSEA.ClsDict Fixture.dict_AB)
     = Ok ("A"%string, "B"%string, None)) /\
  (forall parser,
     GSEA.load_classes parser (GSEA.ClsDict Fixture.dict_BA)
     = Ok ("B"%string, "A"%string, None)).
Proof.
  split.
  - intros c. unfold Spec.group_size.
    destruct (string_dec "A" c) as [<- | HA]; [ reflexivity | ].
    destruct (string_dec "B" c) as [<- | HB]; [ reflexivity | ].
    assert (H1 : ~ In c (dict_values Fixture.dict_AB))
      by (simpl; intros H; repeat destruct H as [H | H]; congruence).
    assert (H2 : ~ In c (dict_values Fixture.dict_BA))
      by (simpl; intros H; repeat destruct H as [H | H]; congruence).
    apply (count_occ_not_In string_dec) in H1, H2. congruence.
  - split; intros parser; reflexivity.
Qed.

(** * [load_data]: what is kept and what is returned *)
Module Load_facts.

Import GSEA.
Local Open Scope list_scope.

Lemma keep_In {A : Type} (mask : list bool) (l : list A) (x : A) :
  In x (keep mask l) -> In x l.
Proof.
  unfold keep. intros H. apply in_map_iff in H.
  destruct H as [[b y] [<- H]]. apply filter_In in H. destruct H as [H _].
  apply in_combine_r in H. exact H.
Qed.

(** Selecting with the mask a predicate gives is filtering by it. *)
Lemma keep_map_filter {A : Type} (p : A -> bool) (l : list A) :
  keep (map p l) l = filter p l.
Proof.
  unfold keep. induction l as [ | x l IH]; simpl.
  - reflexivity.
  - destruct (p x); simpl; rewrite IH; reflexivity.
Qed.

Lemma transpose_In {A : Type} (n : nat) (cols : list (list A)) (row : list A) (x : A) :
  In row (transpose n cols) -> In x row -> exists col, In col cols /\ In x col.
Proof.
  revert row. induction cols as [ | c cs IH]; simpl; intros row Hrow Hx.
  - apply repeat_spec in Hrow. subst. contradiction.
  - unfold zip_with in Hrow. apply in_map_iff in Hrow.
    destruct Hrow as [[y row'] [<- Hin]]. simpl in Hx.
    destruct Hx as [<- | Hx].
    + exists c. split; [ left; reflexivity | ]. apply in_combine_l in Hin. exact Hin.
    + apply in_combine_r in Hin. destruct (IH _ Hin Hx) as [col [Hc Hxc]].
      exists col. split; [ right; exact Hc | exact Hxc ].
Qed.

Lemma select_number_In (cols : list (string * column)) (name : string)
    (vals : list float) :
  In (name, vals) (select_number cols) -> In (name, NumCol vals) cols.
Proof.
  unfold select_number. intros H. apply in_flat_map in H.
  destruct H as [[nm col] [Hin H]]. simpl in H.
  destruct col as [v | v]; simpl in H; [ | contradiction ].
  destruct H as [[= <- <-] | []]. exact Hin.
Qed.

Lemma has_null_false_clean (f : RawFrame) :
  has_null f = false -> Spec.numbers_clean f.
Proof.
  unfold has_null, all_columns. simpl. intros H name vals Hin.
  apply orb_false_iff in H. destruct H as [_ H].
  apply Forall_forall. intros x Hx.
  destruct (is_nan x) eqn:E; [ | reflexivity ].
  assert (Hex : existsb (fun c => existsb isnull (cells c)) (map snd (rest f)) = true).
  { apply existsb_exists. exists (NumCol vals). split.
    - apply in_map_iff. exists (name, NumCol vals). auto.
    - apply existsb_exists. exists (CNum x). split; [ | exact E ].
      simpl. apply in_map, Hx. }
  congruence.
Qed.

(** A filled cell holds no NaN. *)
Lemma number_of_fill_cell (c : cell) : is_nan (number_of (fill_cell c)) = false.
Proof.
  unfold fill_cell. destruct c as [s | x | ]; simpl; try reflexivity.
  destruct (is_nan x) eqn:E; [ reflexivity | exact E ].
Qed.

Lemma fill_col_clean (col : column) (vals : list float) :
  fill_col col = NumCol vals -> Forall (fun x => is_nan x = false) vals.
Proof.
  destruct col as [v | v]; unfold fill_col.
  - intros H. injection H as <-.
    apply Forall_forall. intros x Hx. apply in_map_iff in Hx.
    destruct Hx as [y [<- _]].
    destruct (is_nan y) eqn:E; [ reflexivity | exact E ].
  - cbv zeta.
    assert (Hall : Forall (fun c => is_nan (number_of c) = false) (map fill_cell v)).
    { apply Forall_map, Forall_forall. intros y _. apply number_of_fill_cell. }
    destruct (map fill_cell v) as [ | c filled]; [ discriminate | ].
    destruct (forallb is_number (c :: filled)); [ | discriminate ].
    intros H. injection H as <-.
    change (Forall (fun x => is_nan x = false) (map number_of (c :: filled))).
    apply Forall_map. exact Hall.
Qed.

Lemma fillna0_clean (f : RawFrame) : Spec.numbers_clean (fillna0 f).
Proof.
  intros name vals Hin. simpl in Hin. apply in_map_iff in Hin.
  destruct Hin as [[nm col] [Heq Hin]]. cbn [fst snd] in Heq.
  injection Heq as _ Heq.
  eapply fill_col_clean, Heq.
Qed.

Lemma prepared_clean (exprs : RawFrame) : Spec.numbers_clean (Spec.prepared exprs).
Proof.
  unfold Spec.prepared.
  match goal with
  | |- Spec.numbers_clean (if has_null ?f then _ else _) =>
      destruct (has_null f) eqn:E
  end.
  - apply fillna0_clean.
  - apply has_null_false_clean, E.
Qed.

Lemma In_tl {A : Type} (l : list A) (x : A) : In x (tl l) -> In x l.
Proof. destruct l; simpl; auto. Qed.

(** The cleaned frame holds no NaN. *)
Lemma clean_nan_free (exprs : RawFrame) (cls_vec : option (list string))
    (df : DataFrame) :
  clean exprs cls_vec = Ok df -> Spec.nan_free df.
Proof.
  unfold clean. fold (Spec.prepared exprs).
  destruct cls_vec as [cv | ]; [ | discriminate ].
  intros H. injection H as <-. unfold Spec.nan_free. simpl.
  apply Forall_forall. intros [g row] Hrow. simpl.
  apply in_combine_r in Hrow.
  apply Forall_forall. intros x Hx.
  destruct (transpose_In _ _ _ _ Hrow Hx) as [col [Hcol Hxc]].
  apply in_map_iff in Hcol. destruct Hcol as [[name vals] [<- Hin]].
  simpl in Hxc.
  assert (Hsel : In (name, vals) (select_number (rest (Spec.prepared exprs)))).
  { match type of Hin with
    | context [if ?b then _ else _] => destruct b
    end; [ apply In_tl, Hin | exact Hin ]. }
  apply select_number_In in Hsel.
  pose proof (prepared_clean exprs name vals Hsel) as Hclean.
  rewrite Forall_forall in Hclean. apply Hclean, Hxc.
Qed.

Lemma row_sums_std_sum (df : DataFrame) (classes : dict string) :
  row_sums df classes std
  = map (fun r => Spec.std_sum classes (columns df) (snd r)) (rows df).
Proof. reflexivity. Qed.

(** [load_data] is the cleaning, the filter on the sum of the group
    standard deviations, and the shift, in that order. *)
Lemma load_data_steps (exprs : RawFrame) (cls_vec : list string)
    (df : DataFrame) (cls_dict : dict string) :
  load_data exprs (Some cls_vec) = Ok (df, cls_dict) ->
  exists df0,
    clean exprs (Some cls_vec) = Ok df0 /\
    cls_dict = dict_of (combine (columns df0) cls_vec) /\
    columns df = columns df0 /\
    rows df
    = map (fun r => (fst r, Spec.shifted (snd r)))
        (filter (fun r => (0 <? Spec.std_sum cls_dict (columns df0) (snd r))%float)
           (rows df0)).
Proof.
  unfold load_data.
  destruct (clean exprs (Some cls_vec)) as [df0 | e]; simpl; [ | discriminate ].
  intros H. injection H as <- <-. exists df0.
  split; [ reflexivity | ]. split; [ reflexivity | ]. split; [ reflexivity | ].
  simpl. rewrite row_sums_std_sum, map_map.
  rewrite (keep_map_filter
             (fun r => (0 <? Spec.std_sum (dict_of (combine (columns df0) cls_vec))
                               (columns df0) (snd r))%float)).
  reflexivity.
Qed.

End Load_facts.

(** C10. The frame [load_data] returns holds no NaN: the missing values
    are filled with 0 before the numeric columns are selected, the filter
    only removes rows, and every value returned is a number, a filled 0
    included, plus [1e-08], which is never NaN. *)
Theorem load_data_nan_free :
  forall (exprs : GSEA.RawFrame) (cls_vec : option (list string))
         (df : DataFrame) (cls_dict : dict string),
    GSEA.load_data exprs cls_vec = Ok (df, cls_dict) ->
    Spec.nan_free df /\
    Forall (fun r =>
              Forall (fun y => exists x, is_nan x = false /\ y = (x + 1e-08)%float)
                (snd r))
      (rows df).
Proof.
  intros exprs [cls_vec | ] df cls_dict Hload.
  - destruct (Load_facts.load_data_steps _ _ _ _ Hload)
      as [df0 [Hclean [_ [_ Hrows]]]].
    apply Load_facts.clean_nan_free in Hclean.
    assert (Hshift :
      Forall (fun r =>
                Forall (fun y => exists x, is_nan x = false /\ y = (x + 1e-08)%float)
                  (snd r))
        (rows df)).
    { unfold Spec.nan_free in Hclean. rewrite Hrows.
      apply Forall_forall. intros r Hr. apply in_map_iff in Hr.
      destruct Hr as [r0 [<- Hr0]]. simpl.
      apply filter_In in Hr0. destruct Hr0 as [Hr0 _].
      rewrite Forall_forall in Hclean. specialize (Hclean _ Hr0).
      unfold Spec.shifted. apply Forall_forall. intros y Hy.
      apply in_map_iff in Hy. destruct Hy as [x [<- Hx]].
      exists x. split; [ | reflexivity ].
      rewrite Forall_forall in Hclean. apply Hclean, Hx. }
    split; [ | exact Hshift ].
    unfold Spec.nan_free. apply Forall_impl with (2 := Hshift).
    intros r Hr. apply Forall_impl with (2 := Hr).
    intros y [x [Hx ->]].
    apply F64_facts.add_finite_not_nan; [ apply F64_facts.epsilon_finite | exact Hx ].
  - unfold GSEA.load_data, GSEA.clean in Hload. simpl in Hload. discriminate.
Qed.

Lemma load_data_nan_free_witness :
  GSEA.load_data Fixture.raw_missing (Some Fixture.cls_tiny)
  = Ok (Fixture.df_missing, Fixture.dict_AB) /\
  Spec.nan_free Fixture.df_missing.
Proof.
  assert (Hload : GSEA.load_data Fixture.raw_missing (Some Fixture.cls_tiny)
                  = Ok (Fixture.df_missing, Fixture.dict_AB))
    by (vm_compute; reflexivity).
  split; [ exact Hload | ].
  exact (proj1 (load_data_nan_free Fixture.raw_missing (Some Fixture.cls_tiny)
                  Fixture.df_missing Fixture.dict_AB Hload)).
Defined.

(** C7, as the code has it. [load_data] keeps the genes whose group
    standard deviations, taken on the values before the shift, sum to a
    positive number, in their order, and returns each of them with
    [1e-08] added to every value. *)
Theorem load_data_filters_then_shifts :
  forall (exprs : GSEA.RawFrame) (cls_vec : list string)
         (df : DataFrame) (cls_dict : dict string),
    GSEA.load_data exprs (Some cls_vec) = Ok (df, cls_dict) ->
    exists df0,
      GSEA.clean exprs (Some cls_vec) = Ok df0 /\
      cls_dict = dict_of (combine (columns df0) cls_vec) /\
      columns df = columns df0 /\
      rows df
      = map (fun r => (fst r, map (fun x => (x + 1e-08)%float) (snd r)))
          (filter (fun r => (0 <? Spec.std_sum cls_dict (columns df0) (snd r))%float)
             (rows df0)).
Proof.
  intros exprs cls_vec df cls_dict Hload.
  exact (Load_facts.load_data_steps _ _ _ _ Hload).
Qed.

Lemma load_data_filters_then_shifts_witness :
  exists df0,
    GSEA.clean Fixture.raw_tiny (Some Fixture.cls_tiny) = Ok df0 /\
    columns Fixture.df_tiny = columns df0.
Proof.
  assert (Hload : GSEA.load_data Fixture.raw_tiny (Some Fixture.cls_tiny)
                  = Ok (Fixture.df_tiny,
                        dict_of (combine (columns Fixture.df_tiny) Fixture.cls_tiny)))
    by (vm_compute; reflexivity).
  destruct (load_data_filters_then_shifts Fixture.raw_tiny Fixture.cls_tiny _ _ Hload)
    as [df0 [Hclean [_ [Hcols _]]]].
  exists df0. split; [ exact Hclean | exact Hcols ].
Defined.

(** C7 as stated fails: [load_data] returns the gene g1, whose values
    0, 0, 1e-30 have a positive standard deviation, with every value
    equal to 1e-08: in the frame handed on, its group standard deviations
    sum to zero. *)
Lemma load_data_returns_flat_gene :
  GSEA.load_data Fixture.raw_tiny (Some Fixture.cls_tiny)
  = Ok (Fixture.df_tiny, Fixture.dict_AB) /\
  In (CStr "g1", [1e-08; 1e-08; 1e-08; 1e-08; 1e-08; 1e-08]%float)
    (rows Fixture.df_tiny) /\
  Spec.std_sum Fixture.dict_AB (columns Fixture.df_tiny)
    [1e-08; 1e-08; 1e-08; 1e-08; 1e-08; 1e-08]%float = 0%float.
Proof.
  split; [ vm_compute; reflexivity | ].
  split; [ left; reflexivity | vm_compute; reflexivity ].
Qed.

(** C4, as the code has it. [calculate_metric] makes no check of the
    standard deviations: with a name it takes and both groups present it
    returns a ranking, and a gene for which the term of standard
    deviations the metric divides by is zero gets the result of that
    division, NaN or an infinity, without an error. *)
Theorem zero_std_is_silent :
  forall (lib : Libs) (df : DataFrame) (method pos neg : string)
         (classes : dict string) (ascending : bool) (m : Metric),
    In (method, m) Spec.metric_names ->
    In pos (group_keys classes (columns df)) ->
    In neg (group_keys classes (columns df)) ->
    exists ser_ind ser,
      GSEA.calculate_metric lib df method pos neg classes ascending
      = Ok (ser_ind, ser) /\
      Forall2
        (fun i gs =>
           forall row d,
             nth_error (rows df) i = Some (fst gs, row) ->
             Spec.std_denominator m
               (std (group_values classes (columns df) pos row))
               (std (group_values classes (columns df) neg row))
               (F64.of_nat (count_occ string_dec (dict_values classes) pos))
               (F64.of_nat (count_occ string_dec (dict_values classes) neg))
             = Some d ->
             is_zero d = true ->
             F64.finite (snd gs) = false)
        ser_ind ser.
Proof.
  intros lib df method pos neg classes ascending m Hm Hpos Hneg.
  apply Metric_facts.metric_of_name_spec in Hm.
  rewrite (Metric_facts.calculate_metric_ranking lib df method pos neg classes
             ascending m Hm Hpos Hneg).
  pose proof (Metric_facts.ranking_entries lib
                (Spec.scores lib m df classes pos neg) ascending) as Hent.
  destruct (Spec.ranking_of lib (Spec.scores lib m df classes pos neg) ascending)
    as [ser_ind ser].
  exists ser_ind, ser. split; [ reflexivity | ].
  simpl in Hent. apply Forall2_impl with (2 := Hent).
  intros i [g x] Hnth row d Hrow Hden Hzero. simpl in *.
  unfold Spec.scores in Hnth. rewrite nth_error_map, Hrow in Hnth.
  simpl in Hnth. injection Hnth as <-.
  unfold Spec.gene_score.
  destruct m; simpl in *; try discriminate; injection Hden as <-.
  - apply F64_facts.div_zero_not_finite, Hzero.
  - apply F64_facts.abs_not_finite, F64_facts.div_zero_not_finite, Hzero.
  - apply F64_facts.div_zero_not_finite, Hzero.
Qed.

Lemma zero_std_is_silent_witness :
  exists ser_ind ser,
    GSEA.calculate_metric Fixture.lib Fixture.df_tiny "signal_to_noise" "A" "B"
      Fixture.dict_AB false = Ok (ser_ind, ser).
Proof.
  assert (Hm : In ("signal_to_noise"%string, Signal2Noise) Spec.metric_names)
    by (simpl; tauto).
  assert (Hpos : In "A"%string (group_keys Fixture.dict_AB (columns Fixture.df_tiny)))
    by (vm_compute; tauto).
  assert (Hneg : In "B"%string (group_keys Fixture.dict_AB (columns Fixture.df_tiny)))
    by (vm_compute; tauto).
  destruct (zero_std_is_silent Fixture.lib Fixture.df_tiny "signal_to_noise" "A" "B"
              Fixture.dict_AB false Signal2Noise Hm Hpos Hneg)
    as [ser_ind [ser [Heq _]]].
  exists ser_ind, ser. exact Heq.
Defined.

(** C4 as stated fails: on the frame [load_data] returned, the gene g1 is
    retained with group standard deviations that sum to zero, and the
    signal to noise ratio is computed all the same: the ranking is
    returned with NaN for g1. *)
Lemma zero_std_returns_nan :
  Spec.std_sum Fixture.dict_AB (columns Fixture.df_tiny)
    [1e-08; 1e-08; 1e-08; 1e-08; 1e-08; 1e-08]%float = 0%float /\
  GSEA.calculate_metric Fixture.lib Fixture.df_tiny "signal_to_noise" "A" "B"
    Fixture.dict_AB false
  = Ok ([0; 1], [(CStr "g1", nan); (CStr "g2", (-1.3188130791298665)%float)]).
Proof.
  split; vm_compute; reflexivity.
Qed.

(** * The worker pool: the table does not depend on the schedule *)
Module Pool_facts.

Import Native.
Local Open Scope list_scope.

Lemma task_eqb_eq (a b : task) : task_eqb a b = true <-> a = b.
Proof.
  destruct a as [g k], b as [g' k']. unfold task_eqb. simpl.
  rewrite andb_true_iff, !Nat.eqb_eq. split.
  - intros [-> ->]. reflexivity.
  - intros [= -> ->]. auto.
Qed.

(** Dealing loses no cell, as long as there is a worker. *)
Lemma deal_complete (cells : list task) (workers : list (list task)) (c : task) :
  workers <> [] ->
  In c (List.concat workers) \/ In c cells ->
  In c (List.concat (deal workers cells)).
Proof.
  revert workers. induction cells as [ | x cells IH]; intros workers Hne Hin; simpl.
  - destruct Hin as [Hin | []]. exact Hin.
  - destruct workers as [ | w ws]; [ congruence | ].
    apply IH.
    + destruct ws; discriminate.
    + rewrite concat_app. simpl. rewrite in_app_iff, app_nil_r. simpl.
      simpl in Hin. rewrite in_app_iff in Hin.
      destruct Hin as [[Hw | Hws] | [Hx | Hc]]; auto.
Qed.

Lemma assign_complete (thread_count : nat) (cells : list task) (c : task) :
  In c cells -> In c (List.concat (assign thread_count cells)).
Proof.
  intros Hin. unfold assign. apply deal_complete; [ | right; exact Hin ].
  destruct (Nat.max thread_count 1) eqn:E; [ lia | discriminate ].
Qed.

(** A step moves one cell from a queue to the table. *)
Lemma take_spec (w : nat) (qs qs' : list (list task)) (c x : task) :
  take w qs = Some (c, qs') ->
  In x (List.concat qs) -> x = c \/ In x (List.concat qs').
Proof.
  revert w qs'. induction qs as [ | q qs IH]; intros w qs' Htake Hin.
  - destruct w; discriminate.
  - destruct w as [ | w], q as [ | c0 q]; simpl in Htake.
    + discriminate.
    + injection Htake as <- <-. simpl in *.
      destruct Hin as [-> | Hin]; auto.
    + destruct (take w qs) as [[c1 qs1] | ] eqn:E; [ | discriminate ].
      injection Htake as <- <-. simpl in *. apply (IH _ _ E Hin).
    + destruct (take w qs) as [[c1 qs1] | ] eqn:E; [ | discriminate ].
      injection Htake as <- <-. simpl in *.
      destruct Hin as [Hx | Hin]; [ auto | ].
      rewrite in_app_iff in *.
      destruct Hin as [Hq | Hqs]; [ auto | ].
      destruct (IH _ _ E Hqs); auto.
Qed.

Lemma step_sound (f : task -> float) (cells : list task) (p : pool) (w : nat) :
  sound f cells p -> sound f cells (step f p w).
Proof.
  intros [Hval Hall]. unfold step.
  destruct (take w (queues p)) as [[c qs] | ] eqn:E; [ | split; assumption ].
  split; simpl.
  - intros c' x [[= <- <-] | Hin]; [ reflexivity | apply Hval, Hin ].
  - intros c' Hc'. destruct (Hall c' Hc') as [Hq | Ht]; [ | auto ].
    destruct (take_spec _ _ _ _ _ E Hq) as [-> | Hq']; simpl; auto.
Qed.

Lemma schedule_sound (f : task -> float) (cells : list task) (schedule : list nat)
    (p : pool) :
  sound f cells p -> sound f cells (fold_left (step f) schedule p).
Proof.
  revert p. induction schedule as [ | w schedule IH]; intros p Hp; simpl.
  - exact Hp.
  - apply IH, step_sound, Hp.
Qed.

Lemma lookup_sound (f : task -> float) (tbl : list (task * float)) (c : task) :
  (forall c' x, In (c', x) tbl -> x = f c') ->
  In c (map fst tbl) ->
  lookup tbl c = f c.
Proof.
  induction tbl as [ | [c0 x0] tbl IH]; simpl; intros Hval Hin.
  - contradiction.
  - destruct (task_eqb c0 c) eqn:E.
    + apply task_eqb_eq in E. subst. apply Hval. left. reflexivity.
    + apply IH.
      * intros c' x H. apply Hval. right. exact H.
      * destruct Hin as [-> | Hin]; [ | exact Hin ].
        assert (Hrefl : task_eqb c c = true) by (apply task_eqb_eq; reflexivity).
        congruence.
Qed.

(** Whatever the number of workers and the schedule, the table holds
    for every cell the score of that cell. *)
Lemma run_pool_lookup (f : task -> float) (thread_count : nat)
    (schedule : list nat) (cells : list task) (c : task) :
  In c cells ->
  lookup (run_pool f thread_count schedule cells) c = f c.
Proof.
  intros Hin. unfold run_pool.
  assert (Hinit : sound f cells {| queues := assign thread_count cells; table := [] |}).
  { split; simpl.
    - intros c' x [].
    - intros c' Hc'. left. apply assign_complete, Hc'. }
  pose proof (schedule_sound f cells schedule _ Hinit) as [Hval Hall].
  set (p := fold_left (step f) schedule _) in *.
  unfold join. apply lookup_sound.
  - intros c' x Hx. apply in_app_iff in Hx. destruct Hx as [Hx | Hx].
    + apply in_map_iff in Hx. destruct Hx as [c0 [[= <- <-] _]]. reflexivity.
    + apply Hval, Hx.
  - rewrite map_app, map_map, in_app_iff. simpl. rewrite map_id.
    apply Hall, Hin.
Qed.

(** The merged null scores of a gene set are the scores of its cells by
    permutation index. *)
Lemma null_scores_pool (f : task -> float) (thread_count : nat)
    (schedule : list nat) (nsets nperm g : nat) :
  g < nsets ->
  null_scores (run_pool f thread_count schedule (cells_of nsets nperm)) nperm g
  = map (fun k => f (g, k)) (seq 0 nperm).
Proof.
  intros Hg. unfold null_scores. apply map_ext_in. intros k Hk.
  apply run_pool_lookup. unfold cells_of. apply in_prod; [ | exact Hk ].
  apply in_seq. lia.
Qed.

Lemma combine_seq_lt {B : Type} (l : list B) (i : nat) (x : B) :
  In (i, x) (combine (seq 0 (List.length l)) l) -> i < List.length l.
Proof.
  intros H. apply in_combine_l in H. apply in_seq in H. lia.
Qed.

End Pool_facts.

(** * The kernels do not depend on the schedule or on the thread count *)
Module Kernel_facts.

Import Native.
Local Open Scope list_scope.

Lemma bind_ext {A B : Type} (r : result A) (k1 k2 : A -> result B) :
  (forall a, k1 a = k2 a) -> bind r k1 = bind r k2.
Proof.
  intros H. destruct r; simpl; [ apply H | reflexivity ].
Qed.

Lemma prerank_rs_schedule_free {Summary : Type} (E : Engine Summary)
    (schedule : list nat) (genes : list cell) (vals : list float)
    (gmt : dict (list string)) (weight : float)
    (min_size max_size permutation_num thread_count seed : Z) :
  prerank_rs E schedule genes vals gmt weight min_size max_size permutation_num
    thread_count seed
  = prerank_rs E [] genes vals gmt weight min_size max_size permutation_num 1 seed.
Proof.
  unfold prerank_rs. do 3 f_equal.
  apply map_ext_in. intros [g s] Hin. apply Pool_facts.combine_seq_lt in Hin.
  f_equal. rewrite !Pool_facts.null_scores_pool by exact Hin. reflexivity.
Qed.

Lemma gsea_rs_schedule_free {Summary : Type} (E : Engine Summary)
    (schedule : list nat) (genes : list cell) (data : list (list float))
    (gmt : dict (list string)) (group : list bool) (method : Metric) (weight : float)
    (min_size max_size permutation_num thread_count seed : Z) :
  gsea_rs E schedule genes data gmt group method weight min_size max_size
    permutation_num thread_count seed
  = gsea_rs E [] genes data gmt group method weight min_size max_size
      permutation_num 1 seed.
Proof.
  unfold gsea_rs. do 3 f_equal.
  apply map_ext_in. intros [g s] Hin. apply Pool_facts.combine_seq_lt in Hin.
  f_equal. rewrite !Pool_facts.null_scores_pool by exact Hin. reflexivity.
Qed.

End Kernel_facts.

(** C3. With the native kernels as they are specified, the pipeline is
    deterministic in the seed: two runs of [GSEA.run], or of
    [Prerank.run], on the same inputs and seed return the same result
    whatever the schedules of the worker pool and whatever the two thread
    counts, equal or not. *)
Theorem run_independent_of_threads :
  forall (Summary GeneSets : Type) (E : Native.Engine Summary)
         (lib : Libs)
         (gsea_cls_parser : cls_source -> result (string * string * list string))
         (load_ranking : Series -> bool -> result Series)
         (load_gmt : list cell -> GeneSets -> result (dict (list string)))
         (schedule1 schedule2 : list nat) (threads1 threads2 : Z),
    (forall self : GSEA.t GeneSets,
       GSEA.run
         (Native.externals E schedule1 lib gsea_cls_parser load_ranking load_gmt)
         (GSEA.with_threads self threads1)
       = GSEA.run
           (Native.externals E schedule2 lib gsea_cls_parser load_ranking load_gmt)
           (GSEA.with_threads self threads2)) /\
    (forall self : Prerank.t GeneSets,
       Prerank.run
         (Native.externals E schedule1 lib gsea_cls_parser load_ranking load_gmt)
         (Prerank.with_threads self threads1)
       = Prerank.run
           (Native.externals E schedule2 lib gsea_cls_parser load_ranking load_gmt)
           (Prerank.with_threads self threads2)).
Proof.
  intros Summary GeneSets E lib parser ranker loader schedule1 schedule2
    threads1 threads2.
  split; intros self.
  - unfold GSEA.run, Native.externals. cbn [GSEA.with_threads GSEA.method
      GSEA.permutation_type GSEA.min_size GSEA.max_size GSEA.classes GSEA.data
      GSEA.gene_sets GSEA.ascending GSEA.weight GSEA.permutation_num GSEA.threads
      GSEA.seed libs gsea_cls_parser load_gmt prerank_rs gsea_rs].
    apply Kernel_facts.bind_ext. intros method.
    apply Kernel_facts.bind_ext. intros _.
    apply Kernel_facts.bind_ext. intros _.
    apply Kernel_facts.bind_ext. intros [[pheno_pos pheno_neg] cls_vector].
    apply Kernel_facts.bind_ext. intros [dat cls_dict].
    apply Kernel_facts.bind_ext. intros _.
    apply Kernel_facts.bind_ext. intros gmt.
    destruct (String.eqb (GSEA.permutation_type self) "gene_set").
    + apply Kernel_facts.bind_ext. intros [idx dat2].
      rewrite (Kernel_facts.prerank_rs_schedule_free E schedule1).
      rewrite (Kernel_facts.prerank_rs_schedule_free E schedule2).
      reflexivity.
    + destruct cls_vector as [cls_vector | ]; [ | reflexivity ].
      rewrite (Kernel_facts.gsea_rs_schedule_free E schedule1).
      rewrite (Kernel_facts.gsea_rs_schedule_free E schedule2).
      reflexivity.
  - unfold Prerank.run, Prerank.load_ranking, Native.externals.
    cbn [Prerank.with_threads
      Prerank.rnk Prerank.ascending Prerank.min_size Prerank.max_size
      Prerank.gene_sets Prerank.weight Prerank.permutation_num Prerank.threads
      Prerank.seed _load_ranking load_gmt prerank_rs].
    apply Kernel_facts.bind_ext. intros _.
    apply Kernel_facts.bind_ext. intros dat2.
    apply Kernel_facts.bind_ext. intros _.
    apply Kernel_facts.bind_ext. intros gmt.
    rewrite (Kernel_facts.prerank_rs_schedule_free E schedule1).
    rewrite (Kernel_facts.prerank_rs_schedule_free E schedule2).
    reflexivity.
Qed.

(** * The order of binary64 is transitive *)


(** * Further properties of the code *)

(** X1. A ranking [calculate_metric] returns is sorted throughout, not
    only between neighbours: of two positions, the later one never holds
    a score that numpy's order puts before the earlier one (ascending),
    or after it (descending). When neither score is NaN this is [<=]
    between them, so the first gene of a descending ranking without NaN
    has the largest score. *)
Theorem ranking_sorted_throughout :
  forall (lib : Libs) (df : DataFrame) (method pos neg : string)
         (classes : dict string) (ascending : bool)
         (ser_ind : list nat) (ser : Series) (p q : nat) (x y : float),
    GSEA.calculate_metric lib df method pos neg classes ascending
    = Ok (ser_ind, ser) ->
    p < q ->
    nth_error (values ser) p = Some x ->
    nth_error (values ser) q = Some y ->
    (if ascending then F64.np_lt y x = false else F64.np_lt x y = false) /\
    (is_nan x = false -> is_nan y = false ->
     if ascending then (x <=? y)%float = true else (y <=? x)%float = true).
Proof.
  intros lib df method pos neg classes ascending ser_ind ser p q x y
    Heq Hpq Hx Hy.
  destruct (Metric_more.calculate_metric_ok_inv _ _ _ _ _ _ _ _ Heq)
    as [m [_ [_ [_ Hr]]]].
  pose proof (Metric_more.ranking_of_sorted lib
                (Spec.scores lib m df classes pos neg) ascending) as Hss.
  rewrite <- Hr in Hss. simpl in Hss.
  pose proof (Metric_facts.StronglySorted_nth _ _ Hss p q x y Hpq Hx Hy) as H.
  destruct ascending; unfold Props.np_le in H.
  - split; [ exact H | ]. intros _ Hny.
    apply F64_facts.np_lt_false_leb; assumption.
  - split; [ exact H | ]. intros Hnx _.
    apply F64_facts.np_lt_false_leb; assumption.
Qed.

Lemma ranking_sorted_throughout_witness :
  (1 <=? 4)%float = true.
Proof.
  assert (Heq :
    GSEA.calculate_metric Fixture.lib Fixture.df_ties "diff_of_classes" "A" "B"
      Fixture.classes_ties false
    = Ok ([2; 3; 1; 0],
          [(CStr "c", 4); (CStr "d", 1); (CStr "b", 1); (CStr "a", 1)]%float))
    by (vm_compute; reflexivity).
  assert (Hpq : 0 < 3) by lia.
  exact (proj2 (ranking_sorted_throughout Fixture.lib Fixture.df_ties
                  "diff_of_classes" "A" "B" Fixture.classes_ties false
                  _ _ 0 3 4%float 1%float Heq Hpq eq_refl eq_refl)
           eq_refl eq_refl).
Defined.

(** X2. With a method name it takes, [calculate_metric] raises
    [KeyError] for a phenotype that is the class of no column: for the
    positive one first, and for the negative one when the positive one
    is there. *)
Theorem calculate_metric_missing_class :
  forall (lib : Libs) (df : DataFrame) (method pos neg : string)
         (classes : dict string) (ascending : bool) (m : Metric),
    In (method, m) Spec.metric_names ->
    (~ In pos (group_keys classes (columns df)) ->
     GSEA.calculate_metric lib df method pos neg classes ascending
     = Raise (KeyError pos)) /\
    (In pos (group_keys classes (columns df)) ->
     ~ In neg (group_keys classes (columns df)) ->
     GSEA.calculate_metric lib df method pos neg classes ascending
     = Raise (KeyError neg)).
Proof.
  intros lib df method pos neg classes ascending m Hm.
  apply Metric_facts.metric_of_name_spec in Hm.
  exact (Metric_more.calculate_metric_keyerror lib df method pos neg classes
           ascending m Hm).
Qed.

Lemma calculate_metric_missing_class_witness :
  GSEA.calculate_metric Fixture.lib Fixture.df_ties "t_test" "A" "C"
    Fixture.classes_ties false = Raise (KeyError "C").
Proof.
  assert (Hm : In ("t_test"%string, Ttest) Spec.metric_names)
    by (simpl; tauto).
  assert (Hpos : In "A"%string
                   (group_keys Fixture.classes_ties (columns Fixture.df_ties)))
    by (vm_compute; tauto).
  assert (Hneg : ~ In "C"%string
                     (group_keys Fixture.classes_ties (columns Fixture.df_ties))).
  { vm_compute. intros H. repeat destruct H as [H | H]; try discriminate H. exact H. }
  exact (proj2 (calculate_metric_missing_class Fixture.lib Fixture.df_ties
                  "t_test" "A" "C" Fixture.classes_ties false Ttest Hm)
           Hpos Hneg).
Defined.

(** X3. Ranking loses and invents no gene: the ranking returned has as
    many entries as the frame has rows, its labels are the labels of the
    frame in another order, and the positions returned with it are the
    positions of the rows, each once. *)
Theorem ranking_keeps_genes :
  forall (lib : Libs) (df : DataFrame) (method pos neg : string)
         (classes : dict string) (ascending : bool)
         (ser_ind : list nat) (ser : Series),
    GSEA.calculate_metric lib df method pos neg classes ascending
    = Ok (ser_ind, ser) ->
    List.length ser = List.length (rows df) /\
    Permutation (map fst ser) (map fst (rows df)) /\
    Permutation ser_ind (seq 0 (List.length (rows df))) /\
    NoDup ser_ind.
Proof.
  intros lib df method pos neg classes ascending ser_ind ser Heq.
  destruct (Metric_more.calculate_metric_ok_inv _ _ _ _ _ _ _ _ Heq)
    as [m [_ [_ [_ Hr]]]].
  destruct (Metric_more.ranking_of_perm lib
              (Spec.scores lib m df classes pos neg) ascending) as [Hidx Hser].
  rewrite <- Hr in Hidx, Hser. simpl in Hidx, Hser.
  assert (Hlen : List.length (Spec.scores lib m df classes pos neg)
                 = List.length (rows df))
    by (unfold Spec.scores; apply length_map).
  assert (Hlab : map fst (Spec.scores lib m df classes pos neg) = map fst (rows df))
    by (unfold Spec.scores; rewrite map_map; reflexivity).
  rewrite Hlen in Hidx.
  split; [ rewrite (Permutation_length Hser); exact Hlen | ].
  split; [ rewrite <- Hlab; apply Permutation_map, Hser | ].
  split; [ exact Hidx | ].
  apply (Permutation_NoDup (Permutation_sym Hidx)), seq_NoDup.
Qed.

Lemma ranking_keeps_genes_witness :
  Permutation [CStr "c"; CStr "d"; CStr "b"; CStr "a"]
    (map fst (rows Fixture.df_ties)).
Proof.
  assert (Heq :
    GSEA.calculate_metric Fixture.lib Fixture.df_ties "diff_of_classes" "A" "B"
      Fixture.classes_ties false
    = Ok ([2; 3; 1; 0],
          [(CStr "c", 4); (CStr "d", 1); (CStr "b", 1); (CStr "a", 1)]%float))
    by (vm_compute; reflexivity).
  exact (proj1 (proj2 (ranking_keeps_genes Fixture.lib Fixture.df_ties
                         "diff_of_classes" "A" "B" Fixture.classes_ties false
                         _ _ Heq))).
Defined.

(** X4. With the method abs_signal_to_noise (or abs_s2n) no gene is
    ranked with a score below zero: every score is NaN or at least 0. *)
Theorem abs_scores_not_negative :
  forall (lib : Libs) (df : DataFrame) (method pos neg : string)
         (classes : dict string) (ascending : bool)
         (ser_ind : list nat) (ser : Series),
    In (method, AbsSignal2Noise) Spec.metric_names ->
    GSEA.calculate_metric lib df method pos neg classes ascending
    = Ok (ser_ind, ser) ->
    Forall (fun gs => is_nan (snd gs) = true \/ (0 <=? snd gs)%float = true) ser.
Proof.
  intros lib df method pos neg classes ascending ser_ind ser Hm Heq.
  apply Metric_facts.metric_of_name_spec in Hm.
  destruct (Metric_more.calculate_metric_ok_inv _ _ _ _ _ _ _ _ Heq)
    as [m [Hm' [_ [_ Hr]]]].
  assert (m = AbsSignal2Noise) by congruence. subst m.
  destruct (Metric_more.ranking_of_perm lib
              (Spec.scores lib AbsSignal2Noise df classes pos neg) ascending)
    as [_ Hser].
  rewrite <- Hr in Hser. simpl in Hser.
  apply (Permutation_Forall (Permutation_sym Hser)).
  unfold Spec.scores. apply Forall_forall. intros gs Hin.
  apply in_map_iff in Hin. destruct Hin as [r [<- _]]. simpl.
  unfold Spec.gene_score, Spec.metric_formula.
  apply F64_order.abs_not_negative.
Qed.

Lemma abs_scores_not_negative_witness :
  exists ser_ind ser,
    GSEA.calculate_metric Fixture.lib Fixture.df_tiny "abs_s2n" "A" "B"
      Fixture.dict_AB false = Ok (ser_ind, ser) /\
    Forall (fun gs => is_nan (snd gs) = true \/ (0 <=? snd gs)%float = true) ser.
Proof.
  assert (Hm : In ("abs_s2n"%string, AbsSignal2Noise) Spec.metric_names)
    by (simpl; tauto).
  assert (Heq :
    GSEA.calculate_metric Fixture.lib Fixture.df_tiny "abs_s2n" "A" "B"
      Fixture.dict_AB false
    = Ok ([0; 1], [(CStr "g1", nan); (CStr "g2", 1.3188130791298665%float)]))
    by (vm_compute; reflexivity).
  eexists. eexists. split; [ exact Heq | ].
  exact (abs_scores_not_negative Fixture.lib Fixture.df_tiny "abs_s2n" "A" "B"
           Fixture.dict_AB false _ _ Hm Heq).
Defined.

(** * More about [run] and [load_classes] *)
Module Run_more.

Import GSEA.
Local Open Scope string_scope.
Local Open Scope list_scope.

Lemma load_data_None (exprs : RawFrame) : load_data exprs None = Raise TypeError.
Proof. reflexivity. Qed.

(** The dict branch returns no class vector. *)
Lemma load_classes_dict_vector
    (parser : cls_source -> result (string * string * list string))
    (d : dict string) (pos neg : string) (cv : option (list string)) :
  load_classes parser (ClsDict d) = Ok (pos, neg, cv) -> cv = None.
Proof.
  rewrite Classes_facts.load_classes_dict.
  destruct (check_sizes (Spec.by_count d)) as [s | e]; simpl; [ | discriminate ].
  destruct (getitem s 0) as [p | e]; simpl; [ | discriminate ].
  destruct (getitem s 1) as [n | e]; simpl; [ | discriminate ].
  intros H. injection H as _ _ <-. reflexivity.
Qed.

(** [run] as far as the classes, when the configuration passes. *)
Lemma run_after_checks {Summary GeneSets : Type} (ext : Externals Summary GeneSets)
    (self : t GeneSets) (m : Metric) :
  run_metric (method self) = Ok m ->
  str_in (permutation_type self) ["phenotype"; "gene_set"] = true ->
  (min_size self <= max_size self)%Z ->
  run ext self
  = bind (load_classes (gsea_cls_parser ext) (classes self))
      (fun lc =>
         let '(pheno_pos, pheno_neg, cls_vector) := lc in
         bind (load_data (data self) cls_vector)
           (fun ld =>
              let '(dat, cls_dict) := ld in
              bind (assert (1 <? List.length (rows dat))%nat)
                (fun _ =>
                   bind (load_gmt ext (map fst (rows dat)) (gene_sets self))
                     (fun gmt =>
                        if String.eqb (permutation_type self) "gene_set" then
                          bind (calculate_metric (libs ext) dat (method self)
                                  pheno_pos pheno_neg cls_dict (ascending self))
                            (fun im =>
                               let '(idx, dat2) := im in
                               bind (prerank_rs ext (map fst dat2) (values dat2) gmt
                                       (weight self) (min_size self) (max_size self)
                                       (permutation_num self) (threads self) (seed self))
                                 (fun gsum =>
                                    match indices gsum with
                                    | [] => Raise IndexError
                                    | _ :: others =>
                                        Ok {| summaries := summaries gsum;
                                              rankings := rankings gsum;
                                              indices := idx :: others |}
                                    end))
                        else
                          match cls_vector with
                          | None => Raise TypeError
                          | Some cls_vector =>
                              gsea_rs ext (map fst (rows dat)) (map snd (rows dat)) gmt
                                (map (fun x => String.eqb x pheno_pos) cls_vector) m
                                (weight self) (min_size self) (max_size self)
                                (permutation_num self) (threads self) (seed self)
                          end)))).
Proof.
  intros Hm Hpt Hsz. apply Z.leb_le in Hsz.
  unfold run. rewrite Hm, Hpt, Hsz. reflexivity.
Qed.

(** A list of one repeated label has that label as its only key. *)
Lemma first_seen_constant (c : string) (xs : list string) :
  (forall x, In x xs -> x = c) -> first_seen [c] xs = [].
Proof.
  induction xs as [ | x xs IH]; intros Hall.
  - reflexivity.
  - change (first_seen [c] (x :: xs))
      with (if in_dec string_dec x [c] then first_seen [c] xs
            else x :: first_seen [x; c] xs).
    destruct (in_dec string_dec x [c]) as [_ | Hn].
    + apply IH. intros y Hy. apply Hall. right. exact Hy.
    + exfalso. apply Hn. left. symmetry. apply Hall. left. reflexivity.
Qed.

Lemma Counter_constant (c : string) (xs : list string) :
  (forall x, In x xs -> x = c) -> xs <> [] ->
  Counter xs = [(c, List.length xs)].
Proof.
  intros Hall Hne.
  destruct xs as [ | x xs]; [ congruence | ].
  assert (Hx : x = c) by (apply Hall; left; reflexivity). subst x.
  assert (Hkeys : map fst (Counter (c :: xs)) = [c]).
  { rewrite Classes_facts.Counter_keys. simpl.
    rewrite first_seen_constant; [ reflexivity | ].
    intros y Hy. apply Hall. right. exact Hy. }
  destruct (Counter (c :: xs)) as [ | [k n] [ | kn rest]] eqn:E;
    simpl in Hkeys; try discriminate.
  injection Hkeys as ->.
  assert (Hin : In (c, n) (Counter (c :: xs))) by (rewrite E; left; reflexivity).
  apply Classes_facts.Counter_items in Hin. destruct Hin as [_ ->].
  f_equal. f_equal.
  assert (Hcount : forall l, (forall x, In x l -> x = c) ->
                             count_occ string_dec l c = List.length l).
  { induction l as [ | y l IHl]; simpl; intros Hl; [ reflexivity | ].
    destruct (string_dec y c) as [_ | Hn].
    - f_equal. apply IHl. intros z Hz. apply Hl. right. exact Hz.
    - exfalso. apply Hn, Hl. left. reflexivity. }
  apply Hcount, Hall.
Qed.

End Run_more.

(** X5. A run whose classes are given as a dict never completes: the
    dict branch of [load_classes] returns no class vector, and
    [load_data] fails on it. When the configuration passes and the dict
    is accepted, the run ends in [TypeError], whatever the data. *)
Theorem dict_classes_never_complete :
  forall (Summary GeneSets : Type) (ext : Externals Summary GeneSets)
         (self : GSEA.t GeneSets) (d : dict string),
    GSEA.classes self = GSEA.ClsDict d ->
    (exists e, GSEA.run ext self = Raise e) /\
    (forall m pos neg cv,
       GSEA.run_metric (GSEA.method self) = Ok m ->
       str_in (GSEA.permutation_type self) ["phenotype"; "gene_set"]%string = true ->
       (GSEA.min_size self <= GSEA.max_size self)%Z ->
       GSEA.load_classes (gsea_cls_parser ext) (GSEA.ClsDict d) = Ok (pos, neg, cv) ->
       GSEA.run ext self = Raise TypeError).
Proof.
  intros Summary GeneSets ext self d Hcls.
  assert (Hmain : forall m,
             GSEA.run_metric (GSEA.method self) = Ok m ->
             str_in (GSEA.permutation_type self) ["phenotype"; "gene_set"]%string = true ->
             (GSEA.min_size self <= GSEA.max_size self)%Z ->
             GSEA.run ext self
             = bind (GSEA.load_classes (gsea_cls_parser ext) (GSEA.ClsDict d))
                 (fun _ => Raise TypeError)).
  { intros m Hm Hpt Hsz. rewrite (Run_more.run_after_checks ext self m Hm Hpt Hsz).
    rewrite Hcls.
    destruct (GSEA.load_classes (gsea_cls_parser ext) (GSEA.ClsDict d))
      as [[[pos neg] cv] | e] eqn:Hlc; simpl; [ | reflexivity ].
    apply Run_more.load_classes_dict_vector in Hlc. subst cv. reflexivity. }
  split.
  - destruct (GSEA.run_metric (GSEA.method self)) as [m | e] eqn:Hm.
    + destruct (str_in (GSEA.permutation_type self) ["phenotype"; "gene_set"]%string)
        eqn:Hpt.
      * destruct (Z.leb_spec (GSEA.min_size self) (GSEA.max_size self)) as [Hsz | Hsz].
        -- rewrite (Hmain m eq_refl eq_refl Hsz).
           destruct (GSEA.load_classes _ _) as [lc | e]; simpl; eauto.
        -- exists AssertionError. unfold GSEA.run. rewrite Hm, Hpt.
           apply Z.leb_gt in Hsz. rewrite Hsz. reflexivity.
      * exists AssertionError. unfold GSEA.run. rewrite Hm, Hpt. reflexivity.
    + exists e. unfold GSEA.run. rewrite Hm. reflexivity.
  - intros m pos neg cv Hm Hpt Hsz Hlc.
    rewrite (Hmain m Hm Hpt Hsz), Hlc. reflexivity.
Qed.

Lemma dict_classes_never_complete_witness :
  GSEA.run (Fixture.ext []) (Fixture.gsea_dict Fixture.dict_AB "t_test")
  = Raise TypeError.
Proof.
  apply (proj2 (dict_classes_never_complete string unit (Fixture.ext [])
                  (Fixture.gsea_dict Fixture.dict_AB "t_test") Fixture.dict_AB
                  eq_refl)
           Ttest "A"%string "B"%string None).
  - reflexivity.
  - reflexivity.
  - simpl. lia.
  - reflexivity.
Defined.

(** X6. After the method is accepted, [run] fails with [AssertionError]
    when the permutation type is neither phenotype nor gene_set, or when
    [min_size] exceeds [max_size]: before the classes and the data are
    looked at. *)
Theorem run_checks_configuration :
  forall (Summary GeneSets : Type) (ext : Externals Summary GeneSets)
         (self : GSEA.t GeneSets) (m : Metric),
    GSEA.run_metric (GSEA.method self) = Ok m ->
    str_in (GSEA.permutation_type self) ["phenotype"; "gene_set"]%string = false \/
    (GSEA.max_size self < GSEA.min_size self)%Z ->
    GSEA.run ext self = Raise AssertionError.
Proof.
  intros Summary GeneSets ext self m Hm Hbad.
  unfold GSEA.run. rewrite Hm. cbn [bind].
  destruct (str_in (GSEA.permutation_type self) ["phenotype"; "gene_set"]%string)
    eqn:Hpt; [ | reflexivity ].
  destruct Hbad as [Hbad | Hbad]; [ discriminate | ].
  apply Z.leb_gt in Hbad. rewrite Hbad. reflexivity.
Qed.

Lemma run_checks_configuration_witness :
  GSEA.run (Fixture.ext [])
    (GSEA.init Fixture.raw_tiny tt (GSEA.ClsOther (ClsList Fixture.cls_tiny))
       15 5 10 1 "phenotype" "t_test" false 1 123)
  = Raise AssertionError.
Proof.
  apply (run_checks_configuration string unit (Fixture.ext []) _ Ttest).
  - reflexivity.
  - right. simpl. lia.
Defined.

(** X7. A run whose loaded table has fewer than two genes stops with
    [AssertionError]: neither the gene sets nor a kernel are reached. *)
Theorem run_needs_two_genes :
  forall (Summary GeneSets : Type) (ext : Externals Summary GeneSets)
         (self : GSEA.t GeneSets) (m : Metric) (pos neg : string)
         (cv : option (list string)) (dat : DataFrame) (cls_dict : dict string),
    GSEA.run_metric (GSEA.method self) = Ok m ->
    str_in (GSEA.permutation_type self) ["phenotype"; "gene_set"]%string = true ->
    (GSEA.min_size self <= GSEA.max_size self)%Z ->
    GSEA.load_classes (gsea_cls_parser ext) (GSEA.classes self) = Ok (pos, neg, cv) ->
    GSEA.load_data (GSEA.data self) cv = Ok (dat, cls_dict) ->
    List.length (rows dat) <= 1 ->
    GSEA.run ext self = Raise AssertionError.
Proof.
  intros Summary GeneSets ext self m pos neg cv dat cls_dict Hm Hpt Hsz Hlc Hld Hlen.
  rewrite (Run_more.run_after_checks ext self m Hm Hpt Hsz), Hlc. cbn [bind].
  rewrite Hld. cbn [bind].
  destruct (Nat.ltb_spec 1 (List.length (rows dat))) as [H | _]; [ lia | ].
  reflexivity.
Qed.

Lemma run_needs_two_genes_witness :
  GSEA.run (Fixture.ext [])
    (GSEA.init Fixture.raw_flat tt (GSEA.ClsOther (ClsList Fixture.cls_tiny))
       1 500 10 1 "phenotype" "t_test" false 1 123)
  = Raise AssertionError.
Proof.
  apply (run_needs_two_genes string unit (Fixture.ext []) _ Ttest
           "A"%string "B"%string (Some Fixture.cls_tiny)
           {| columns := ["s1"; "s2"; "s3"; "s4"; "s5"; "s6"]%string;
              rows := [(CStr "g2",
                        [1.0000000099999999; 2.0000000099999999; 3.0000000099999999;
                         4.0000000099999999; 5.0000000099999999;
                         7.0000000099999999]%float)] |}
           Fixture.dict_AB).
  - reflexivity.
  - reflexivity.
  - simpl. lia.
  - reflexivity.
  - vm_compute. reflexivity.
  - simpl. lia.
Defined.

(** X8. [Prerank.run] checks the sizes first: when [min_size] exceeds
    [max_size] it fails with [AssertionError] before the ranking is
    loaded. Past that check an exception of [_load_ranking] ends the
    run, and a loaded ranking of fewer than two genes fails with
    [AssertionError]. In none of these cases are the gene sets or the
    kernel reached. *)
Theorem prerank_run_checks :
  forall (Summary GeneSets : Type) (ext : Externals Summary GeneSets)
         (self : Prerank.t GeneSets),
    ((Prerank.max_size self < Prerank.min_size self)%Z ->
     Prerank.run ext self = Raise AssertionError) /\
    ((Prerank.min_size self <= Prerank.max_size self)%Z ->
     forall e : exn,
       _load_ranking ext (Prerank.rnk self) (Prerank.ascending self) = Raise e ->
       Prerank.run ext self = Raise e) /\
    ((Prerank.min_size self <= Prerank.max_size self)%Z ->
     forall dat2 : Series,
       _load_ranking ext (Prerank.rnk self) (Prerank.ascending self) = Ok dat2 ->
       List.length dat2 <= 1 ->
       Prerank.run ext self = Raise AssertionError).
Proof.
  intros Summary GeneSets ext self. unfold Prerank.run, Prerank.load_ranking.
  split; [ | split ].
  - intros Hsz.
    destruct (Z.leb_spec (Prerank.min_size self) (Prerank.max_size self)) as [H | _];
      [ lia | reflexivity ].
  - intros Hsz e He. apply Z.leb_le in Hsz. rewrite Hsz, He. reflexivity.
  - intros Hsz dat2 Hdat Hlen. apply Z.leb_le in Hsz. rewrite Hsz, Hdat.
    cbn [assert bind].
    destruct (Nat.ltb_spec 1 (List.length dat2)) as [H | _]; [ lia | ].
    reflexivity.
Qed.

Lemma prerank_run_checks_witness :
  Prerank.run (Fixture.ext [])
    (Prerank.init [(CStr "g1", 4%float); (CStr "g2", 1%float)] tt 500 15 10 1
       false 4 123)
  = Raise AssertionError.
Proof.
  apply (proj1 (prerank_run_checks string unit (Fixture.ext [])
                  (Prerank.init [(CStr "g1", 4%float); (CStr "g2", 1%float)] tt
                     500 15 10 1 false 4 123))).
  simpl. lia.
Defined.

(** X9. A class dict with fewer than two classes is not told apart by a
    message of its own: an empty dict, and a dict whose samples all have
    the same class in three or more samples, make [load_classes] fail
    with [IndexError]. *)
Theorem load_classes_needs_two_classes :
  forall (parser : cls_source -> result (string * string * list string))
         (d : dict string) (c : string),
    (forall x, In x (dict_values d) -> x = c) ->
    d = [] \/ 3 <= List.length d ->
    GSEA.load_classes parser (GSEA.ClsDict d) = Raise IndexError.
Proof.
  intros parser d c Hall Hsize.
  rewrite Classes_facts.load_classes_dict.
  destruct d as [ | kv d'].
  - reflexivity.
  - destruct Hsize as [Hd | Hlen]; [ discriminate | ].
    unfold Spec.by_count.
    rewrite (Run_more.Counter_constant c (dict_values (kv :: d')) Hall)
      by discriminate.
    unfold dict_values. rewrite length_map.
    remember (List.length (kv :: d')) as n eqn:Hn. clear Hn.
    unfold GSEA.check_sizes. simpl.
    destruct (Nat.ltb_spec n 3) as [H | _]; [ lia | ].
    reflexivity.
Qed.

Lemma load_classes_needs_two_classes_witness :
  GSEA.load_classes Fixture.cls_parser
    (GSEA.ClsDict [("s1", "A"); ("s2", "A"); ("s3", "A")]%string)
  = Raise IndexError.
Proof.
  apply (load_classes_needs_two_classes Fixture.cls_parser _ "A"%string).
  - simpl. intros x H. repeat destruct H as [H | H]; try (symmetry; exact H).
    contradiction.
  - right. simpl. lia.
Defined.

(** * More about [load_data] *)
Module Load_more.

Import GSEA.
Local Open Scope list_scope.

(** ** The dict from column to class *)

Lemma fold_dict_set_other {V : Type} (items : list (string * V)) (d : dict V)
    (k : string) :
  ~ In k (map fst items) ->
  dict_get (fold_left (fun d kv => dict_set d (fst kv) (snd kv)) items d) k
  = dict_get d k.
Proof.
  revert d. induction items as [ | [k1 v1] items IH]; intros d Hnot; simpl.
  - reflexivity.
  - rewrite IH by (intros H; apply Hnot; right; exact H).
    rewrite Py_facts.dict_get_set. simpl.
    destruct (String.eqb_spec k1 k) as [-> | _]; [ | reflexivity ].
    exfalso. apply Hnot. left. reflexivity.
Qed.

Lemma fold_dict_set_get {V : Type} (items : list (string * V)) (d : dict V)
    (k : string) (v : V) :
  NoDup (map fst items) -> In (k, v) items ->
  dict_get (fold_left (fun d kv => dict_set d (fst kv) (snd kv)) items d) k
  = Some v.
Proof.
  revert d. induction items as [ | [k1 v1] items IH]; intros d Hnd Hin; simpl.
  - contradiction.
  - inversion Hnd as [ | ? ? Hk1 Hnd']; subst.
    destruct Hin as [[= -> ->] | Hin].
    + rewrite fold_dict_set_other by exact Hk1.
      rewrite Py_facts.dict_get_set, String.eqb_refl. reflexivity.
    + apply IH; assumption.
Qed.

(** A dict built from items with distinct keys gives back each item. *)
Lemma dict_of_get {V : Type} (items : list (string * V)) (k : string) (v : V) :
  NoDup (map fst items) -> In (k, v) items -> dict_get (dict_of items) k = Some v.
Proof. apply fold_dict_set_get. Qed.

Lemma dict_of_missing {V : Type} (items : list (string * V)) (k : string) :
  ~ In k (map fst items) -> dict_get (dict_of items) k = None.
Proof. intros H. unfold dict_of. rewrite fold_dict_set_other by exact H. reflexivity. Qed.

Lemma combine_nth_In {A B : Type} (l : list A) (t : list B) (i : nat) (a : A) (b : B) :
  nth_error l i = Some a -> nth_error t i = Some b -> In (a, b) (combine l t).
Proof.
  revert t i. induction l as [ | x l IH]; intros t i Ha Hb.
  - destruct i; discriminate.
  - destruct t as [ | y t]; [ destruct i; discriminate | ].
    destruct i as [ | i]; simpl in *.
    + injection Ha as <-. injection Hb as <-. left. reflexivity.
    + right. apply (IH t i); assumption.
Qed.

Lemma NoDup_combine_fst {A B : Type} (l : list A) (t : list B) :
  NoDup l -> NoDup (map fst (combine l t)).
Proof.
  revert t. induction l as [ | x l IH]; intros t Hnd; simpl.
  - constructor.
  - destruct t as [ | y t]; simpl; [ constructor | ].
    inversion Hnd as [ | ? ? Hx Hnd']; subst. constructor.
    + intros H. apply Hx. apply in_map_iff in H.
      destruct H as [[a b] [<- Hin]]. apply in_combine_l in Hin. exact Hin.
    + apply IH, Hnd'.
Qed.

Lemma combine_fst_short {A B : Type} (l : list A) (t : list B) (i : nat) (a : A) :
  NoDup l -> nth_error l i = Some a -> List.length t <= i ->
  ~ In a (map fst (combine l t)).
Proof.
  revert t i. induction l as [ | x l IH]; intros t i Hnd Ha Hlen H.
  - destruct i; discriminate.
  - inversion Hnd as [ | ? ? Hx Hnd']; subst.
    destruct t as [ | y t]; [ contradiction | ].
    destruct i as [ | i]; simpl in *; [ lia | ].
    destruct H as [-> | H].
    + apply Hx. eapply nth_error_In, Ha.
    + apply (IH t i Hnd' Ha); [ lia | exact H ].
Qed.

(** ** The index after the duplicates are dropped *)

Lemma keep_cons {A : Type} (b : bool) (mask : list bool) (x : A) (l : list A) :
  keep (b :: mask) (x :: l) = if b then x :: keep mask l else keep mask l.
Proof. unfold keep. simpl. destruct b; reflexivity. Qed.

Lemma keep_map {A B : Type} (f : A -> B) (mask : list bool) (l : list A) :
  keep mask (map f l) = map f (keep mask l).
Proof.
  revert mask. induction l as [ | x l IH]; intros mask.
  - destruct mask; reflexivity.
  - destruct mask as [ | b mask]; [ reflexivity | ].
    cbn [map]. rewrite !keep_cons, IH. destruct b; reflexivity.
Qed.

Lemma keep_Forall {A : Type} (P : A -> Prop) (mask : list bool) (l : list A) :
  Forall P l -> Forall P (keep mask l).
Proof.
  intros H. apply Forall_forall. intros x Hx.
  rewrite Forall_forall in H. apply H. eapply Load_facts.keep_In, Hx.
Qed.

Lemma keep_StronglySorted {A : Type} (R : A -> A -> Prop) (mask : list bool)
    (l : list A) :
  StronglySorted R l -> StronglySorted R (keep mask l).
Proof.
  intros Hs. revert mask. induction Hs as [ | x l Hl IH Hx]; intros mask.
  - destruct mask; constructor.
  - destruct mask as [ | b mask]; [ constructor | ].
    rewrite keep_cons. destruct b; [ | apply IH ].
    constructor; [ apply IH | apply keep_Forall, Hx ].
Qed.

Lemma combine_fst_StronglySorted {A B : Type} (R : A -> A -> Prop) (l : list A)
    (t : list B) :
  StronglySorted R l -> StronglySorted R (map fst (combine l t)).
Proof.
  intros Hs. revert t. induction Hs as [ | x l Hl IH Hx]; intros t; simpl.
  - constructor.
  - destruct t as [ | y t]; simpl; [ constructor | ].
    constructor; [ apply IH | ].
    apply Forall_forall. intros a Ha. apply in_map_iff in Ha.
    destruct Ha as [[a' b] [<- Hin]]. apply in_combine_l in Hin.
    rewrite Forall_forall in Hx. apply Hx, Hin.
Qed.

Lemma filter_fst_StronglySorted {A B : Type} (R : A -> A -> Prop)
    (p : A * B -> bool) (l : list (A * B)) :
  StronglySorted R (map fst l) -> StronglySorted R (map fst (filter p l)).
Proof.
  induction l as [ | x l IH]; simpl; intros Hs.
  - constructor.
  - inversion Hs as [ | ? ? Hl Hx]; subst.
    destruct (p x); simpl; [ | apply IH, Hl ].
    constructor; [ apply IH, Hl | ].
    apply Forall_forall. intros a Ha. apply in_map_iff in Ha.
    destruct Ha as [y [<- Hy]]. apply filter_In in Hy. destruct Hy as [Hy _].
    rewrite Forall_forall in Hx. apply Hx, in_map, Hy.
Qed.

(** What is kept of a column has no label equal to an earlier one, nor
    to one seen before. *)
Lemma duplicated_from_distinct (seen l : list cell) :
  Forall (fun c => existsb (cell_eqb c) seen = false)
    (keep (map negb (duplicated_from seen l)) l) /\
  Props.distinct_labels (keep (map negb (duplicated_from seen l)) l).
Proof.
  revert seen. induction l as [ | c l IH]; intros seen.
  - split; constructor.
  - cbn [duplicated_from map]. rewrite keep_cons.
    destruct (IH (c :: seen)) as [Hseen Hdist].
    assert (Hsplit : Forall (fun b => cell_eqb b c = false /\
                                      existsb (cell_eqb b) seen = false)
                       (keep (map negb (duplicated_from (c :: seen) l)) l)).
    { apply Forall_impl with (2 := Hseen). intros b Hb. simpl in Hb.
      apply orb_false_iff in Hb. exact Hb. }
    destruct (existsb (cell_eqb c) seen) eqn:E; simpl.
    + split; [ | exact Hdist ].
      apply Forall_impl with (2 := Hsplit). tauto.
    + split.
      * constructor; [ exact E | ].
        apply Forall_impl with (2 := Hsplit). tauto.
      * constructor; [ exact Hdist | ].
        apply Forall_impl with (2 := Hsplit). tauto.
Qed.

Lemma keep_all {A : Type} (flags : list bool) (l : list A) :
  existsb id flags = false -> List.length flags = List.length l ->
  keep (map negb flags) l = l.
Proof.
  revert l. induction flags as [ | b flags IH]; intros l Hex Hlen.
  - destruct l; [ reflexivity | discriminate ].
  - destruct l as [ | x l]; [ discriminate | ].
    simpl in Hex. apply orb_false_iff in Hex. destruct Hex as [Hb Hex].
    unfold id in Hb. subst b. cbn [map negb]. rewrite keep_cons.
    f_equal. apply IH; [ exact Hex | simpl in Hlen; lia ].
Qed.

Lemma duplicated_from_length (seen l : list cell) :
  List.length (duplicated_from seen l) = List.length l.
Proof.
  revert seen. induction l as [ | c l IH]; intros seen; simpl.
  - reflexivity.
  - rewrite IH. reflexivity.
Qed.

Lemma cells_keep_col (mask : list bool) (c : column) :
  cells (keep_col mask c) = keep mask (cells c).
Proof.
  destruct c as [vals | vals]; simpl; [ | reflexivity ].
  symmetry. apply keep_map.
Qed.

Lemma numbers_as_cells (l : list cell) :
  forallb is_number l = true -> map CNum (map number_of l) = l.
Proof.
  induction l as [ | c l IH]; simpl; intros H.
  - reflexivity.
  - apply andb_true_iff in H. destruct H as [Hc Hl].
    rewrite (IH Hl). destruct c; try discriminate. reflexivity.
Qed.

(** Whatever dtype the filled column gets, its cells are the filled
    cells. *)
Lemma cells_fill_col (c : column) : cells (fill_col c) = map fill_cell (cells c).
Proof.
  destruct c as [vals | vals]; unfold fill_col.
  - simpl. rewrite !map_map. apply map_ext. intros x. unfold fill_cell. simpl.
    destruct (is_nan x); reflexivity.
  - cbv zeta. cbn [cells].
    destruct (map fill_cell vals) as [ | c filled] eqn:E; [ reflexivity | ].
    destruct (forallb is_number (c :: filled)) eqn:En; [ | reflexivity ].
    cbn [cells]. apply numbers_as_cells, En.
Qed.

Lemma fill_cell_id (l : list cell) :
  Forall (fun c => isnull c = false) l -> map fill_cell l = l.
Proof.
  induction 1 as [ | c l Hc _ IH]; simpl.
  - reflexivity.
  - unfold fill_cell at 1. rewrite Hc, IH. reflexivity.
Qed.

(** The index of the prepared table: no label equal to an earlier one,
    when no gene name is missing. *)
Lemma prepared_index_distinct (exprs : RawFrame) :
  Forall (fun c => isnull c = false) (cells (snd (first exprs))) ->
  Props.distinct_labels (cells (snd (first (Spec.prepared exprs)))).
Proof.
  intros Hnn. unfold Spec.prepared.
  set (l := cells (snd (first exprs))) in *.
  set (f := if existsb id (duplicated l)
            then keep_rows (map negb (duplicated l)) exprs else exprs).
  assert (Hf : cells (snd (first f)) = keep (map negb (duplicated l)) l).
  { unfold f. destruct (existsb id (duplicated l)) eqn:E.
    - simpl. apply cells_keep_col.
    - symmetry. apply keep_all; [ exact E | apply duplicated_from_length ]. }
  assert (Hdist : Props.distinct_labels (cells (snd (first f)))).
  { rewrite Hf. apply (duplicated_from_distinct [] l). }
  assert (Hnn' : Forall (fun c => isnull c = false) (cells (snd (first f)))).
  { rewrite Hf. apply keep_Forall, Hnn. }
  destruct (has_null f).
  - simpl. rewrite cells_fill_col, cells_keep_col.
    rewrite fill_cell_id by (apply keep_Forall, Hnn').
    apply keep_StronglySorted, Hdist.
  - exact Hdist.
Qed.

Lemma clean_index (exprs : RawFrame) (cls_vec : list string) (df : DataFrame) :
  clean exprs (Some cls_vec) = Ok df ->
  exists t : list (list float),
    rows df = combine (cells (snd (first (Spec.prepared exprs)))) t.
Proof.
  unfold clean. fold (Spec.prepared exprs).
  intros H. injection H as <-. simpl. eexists. reflexivity.
Qed.

(** ** Columns without a class *)

Lemma group_keys_drop (classes : dict string) (cols : list string) :
  group_keys classes (filter (Props.classified classes) cols)
  = group_keys classes cols.
Proof.
  unfold group_keys. do 2 f_equal.
  induction cols as [ | c cols IH]; simpl.
  - reflexivity.
  - unfold Props.classified at 1.
    destruct (dict_get classes c) as [g | ] eqn:E; simpl.
    + rewrite E. simpl. f_equal. exact IH.
    + exact IH.
Qed.

Lemma combine_filter_cols (classes : dict string) (cols : list string)
    (row : list float) :
  List.length row = List.length cols ->
  combine (filter (Props.classified classes) cols)
    (map snd (filter (fun cv => Props.classified classes (fst cv)) (combine cols row)))
  = filter (fun cv => Props.classified classes (fst cv)) (combine cols row).
Proof.
  revert row. induction cols as [ | c cols IH]; intros row Hlen.
  - reflexivity.
  - destruct row as [ | x row]; [ discriminate | ].
    simpl in Hlen. simpl.
    destruct (Props.classified classes c); simpl; rewrite IH by lia; reflexivity.
Qed.

Lemma group_values_drop (classes : dict string) (cols : list string) (g : string)
    (row : list float) :
  List.length row = List.length cols ->
  group_values classes (filter (Props.classified classes) cols) g
    (map snd (filter (fun cv => Props.classified classes (fst cv)) (combine cols row)))
  = group_values classes cols g row.
Proof.
  intros Hlen. unfold group_values. rewrite combine_filter_cols by exact Hlen.
  f_equal. induction (combine cols row) as [ | [c x] l IH]; simpl.
  - reflexivity.
  - unfold Props.classified at 1. simpl.
    destruct (dict_get classes c) as [g' | ] eqn:E; simpl.
    + rewrite ?E. destruct (String.eqb g' g); simpl; rewrite IH; reflexivity.
    + exact IH.
Qed.

Lemma groupby_agg_drop (agg : list float -> float) (classes : dict string)
    (df : DataFrame) :
  Props.rectangular df ->
  groupby_agg agg (Props.drop_unclassified classes df) classes
  = groupby_agg agg df classes.
Proof.
  intros Hrect. unfold groupby_agg. simpl. rewrite group_keys_drop.
  apply map_ext. intros g. f_equal. rewrite map_map.
  apply map_ext_in. intros r Hr. simpl. do 2 f_equal.
  apply group_values_drop.
  unfold Props.rectangular in Hrect. rewrite Forall_forall in Hrect.
  apply Hrect, Hr.
Qed.

End Load_more.

(** X10. The dict [load_data] returns pairs the columns of the frame it
    returns with the labels of the class vector, position by position:
    when the column names are distinct, the column at position [i] has
    the class [cls_vec[i]], a column beyond the end of the class vector
    has none, and every key of the dict is a column of the frame. *)
Theorem load_data_cls_dict :
  forall (exprs : GSEA.RawFrame) (cls_vec : list string)
         (df : DataFrame) (cls_dict : dict string),
    GSEA.load_data exprs (Some cls_vec) = Ok (df, cls_dict) ->
    NoDup (columns df) ->
    (forall (i : nat) (c g : string),
        nth_error (columns df) i = Some c -> nth_error cls_vec i = Some g ->
        dict_get cls_dict c = Some g) /\
    (forall (i : nat) (c : string),
        nth_error (columns df) i = Some c -> List.length cls_vec <= i ->
        dict_get cls_dict c = None) /\
    (forall (c g : string),
        dict_get cls_dict c = Some g -> In c (columns df) /\ In g cls_vec).
Proof.
  intros exprs cls_vec df cls_dict Hload Hnd.
  destruct (Load_facts.load_data_steps _ _ _ _ Hload)
    as [df0 [_ [Hdict [Hcols _]]]].
  rewrite Hcols in *. subst cls_dict.
  split; [ | split ].
  - intros i c g Hc Hg. apply Load_more.dict_of_get.
    + apply Load_more.NoDup_combine_fst, Hnd.
    + eapply Load_more.combine_nth_In; eassumption.
  - intros i c Hc Hlen. apply Load_more.dict_of_missing.
    eapply Load_more.combine_fst_short; eassumption.
  - intros c g Hget.
    destruct (in_dec string_dec c (map fst (combine (columns df0) cls_vec)))
      as [Hin | Hnot].
    + apply in_map_iff in Hin. destruct Hin as [[c' g'] [Hfst Hin]].
      simpl in Hfst. subst c'.
      rewrite (Load_more.dict_of_get _ c g'
                 (Load_more.NoDup_combine_fst _ _ Hnd) Hin) in Hget.
      injection Hget as <-.
      split; [ eapply in_combine_l | eapply in_combine_r ]; exact Hin.
    + rewrite (Load_more.dict_of_missing _ c Hnot) in Hget. discriminate.
Qed.

Lemma load_data_cls_dict_witness :
  dict_get Fixture.dict_AB "s4" = Some "B"%string /\
  (forall c g : string,
      dict_get Fixture.dict_AB c = Some g ->
      In c (columns Fixture.df_tiny) /\ In g Fixture.cls_tiny).
Proof.
  assert (Hload : GSEA.load_data Fixture.raw_tiny (Some Fixture.cls_tiny)
                  = Ok (Fixture.df_tiny, Fixture.dict_AB))
    by (vm_compute; reflexivity).
  assert (Hnd : NoDup (columns Fixture.df_tiny)).
  { simpl. repeat constructor; simpl; intuition discriminate. }
  destruct (load_data_cls_dict Fixture.raw_tiny Fixture.cls_tiny
              Fixture.df_tiny Fixture.dict_AB Hload Hnd) as [Hpos [_ Hkeys]].
  split; [ | exact Hkeys ].
  apply (Hpos 3 "s4"%string "B"%string); reflexivity.
Defined.

(** X11. When no gene name of the input is missing, the genes of the
    frame [load_data] returns are pairwise different: of the rows with
    the same gene name only one is left. *)
Theorem load_data_distinct_genes :
  forall (exprs : GSEA.RawFrame) (cls_vec : list string)
         (df : DataFrame) (cls_dict : dict string),
    GSEA.load_data exprs (Some cls_vec) = Ok (df, cls_dict) ->
    Forall (fun c => GSEA.isnull c = false)
      (GSEA.cells (snd (GSEA.first exprs))) ->
    Props.distinct_labels (map fst (rows df)).
Proof.
  intros exprs cls_vec df cls_dict Hload Hnn.
  destruct (Load_facts.load_data_steps _ _ _ _ Hload)
    as [df0 [Hclean [_ [_ Hrows]]]].
  destruct (Load_more.clean_index _ _ _ Hclean) as [t Ht].
  rewrite Hrows, map_map. simpl.
  apply Load_more.filter_fst_StronglySorted.
  rewrite Ht. apply Load_more.combine_fst_StronglySorted.
  apply Load_more.prepared_index_distinct, Hnn.
Qed.

Lemma load_data_distinct_genes_witness :
  exists (df : DataFrame) (cls_dict : dict string),
    GSEA.load_data Fixture.raw_dup (Some Fixture.cls_tiny) = Ok (df, cls_dict) /\
    map fst (rows df) = [CStr "g1"; CStr "g2"] /\
    Props.distinct_labels (map fst (rows df)).
Proof.
  destruct (GSEA.load_data Fixture.raw_dup (Some Fixture.cls_tiny))
    as [[df cls_dict] | e] eqn:Hload; [ | vm_compute in Hload; discriminate ].
  exists df, cls_dict. split; [ reflexivity | ]. split.
  - vm_compute in Hload. injection Hload as <- _. reflexivity.
  - apply (load_data_distinct_genes Fixture.raw_dup Fixture.cls_tiny df cls_dict Hload).
    repeat constructor.
Defined.

(** X12. The samples the class dict does not name have no part in the
    ranking: [calculate_metric] returns the same on a frame and on the
    frame without the columns that have no class. *)
Theorem calculate_metric_ignores_unclassified :
  forall (lib : Libs) (df : DataFrame) (method pos neg : string)
         (classes : dict string) (ascending : bool),
    Props.rectangular df ->
    GSEA.calculate_metric lib (Props.drop_unclassified classes df)
      method pos neg classes ascending
    = GSEA.calculate_metric lib df method pos neg classes ascending.
Proof.
  intros lib df method pos neg classes ascending Hrect.
  unfold GSEA.calculate_metric.
  rewrite !(Load_more.groupby_agg_drop _ classes df Hrect).
  reflexivity.
Qed.

Lemma calculate_metric_ignores_unclassified_witness :
  columns (Props.drop_unclassified Fixture.dict_partial Fixture.df_tiny)
  = ["s1"; "s2"; "s4"; "s5"]%string /\
  GSEA.calculate_metric Fixture.lib
    (Props.drop_unclassified Fixture.dict_partial Fixture.df_tiny)
    "diff_of_classes" "A" "B" Fixture.dict_partial false
  = GSEA.calculate_metric Fixture.lib Fixture.df_tiny
      "diff_of_classes" "A" "B" Fixture.dict_partial false.
Proof.
  split; [ reflexivity | ].
  apply (calculate_metric_ignores_unclassified Fixture.lib Fixture.df_tiny).
  unfold Props.rectangular. simpl. repeat constructor.
Defined.

(** X13. In a [gene_set] run a method name that passes the check of
    [run] in lower case only is refused late: the classes, the data and
    the gene sets are loaded first, then [calculate_metric] raises
    [LookupError] and the kernel is not reached. *)
Theorem gene_set_run_refuses_late :
  forall (Summary GeneSets : Type) (ext : Externals Summary GeneSets)
         (self : GSEA.t GeneSets) (m : Metric) (pos neg : string)
         (cls_vector : option (list string)) (dat : DataFrame)
         (cls_dict : dict string) (gmt : dict (list string)),
    GSEA.run_metric (GSEA.method self) = Ok m ->
    GSEA.metric_of_name (GSEA.method self) = None ->
    GSEA.permutation_type self = "gene_set"%string ->
    (GSEA.min_size self <= GSEA.max_size self)%Z ->
    GSEA.load_classes (gsea_cls_parser ext) (GSEA.classes self)
    = Ok (pos, neg, cls_vector) ->
    GSEA.load_data (GSEA.data self) cls_vector = Ok (dat, cls_dict) ->
    1 < List.length (rows dat) ->
    load_gmt ext (map fst (rows dat)) (GSEA.gene_sets self) = Ok gmt ->
    GSEA.run ext self = Raise (LookupError (GSEA.method self)).
Proof.
  intros Summary GeneSets ext self m pos neg cls_vector dat cls_dict gmt
         Hm Hnone Hpt Hsz Hlc Hld Hrows Hgmt.
  rewrite (Run_more.run_after_checks ext self m Hm) by (try rewrite Hpt; auto).
  rewrite Hlc. cbn [bind]. rewrite Hld. cbn [bind].
  apply Nat.ltb_lt in Hrows. rewrite Hrows. cbn [bind assert].
  rewrite Hgmt. cbn [bind]. rewrite Hpt. cbn [String.eqb Ascii.eqb Bool.eqb].
  unfold GSEA.calculate_metric. rewrite Hnone. reflexivity.
Qed.

Lemma gene_set_run_refuses_late_witness :
  GSEA.run (Fixture.ext []) Fixture.gsea_gene_set_upper
  = Raise (LookupError "T_TEST").
Proof.
  apply (gene_set_run_refuses_late string unit (Fixture.ext [])
           Fixture.gsea_gene_set_upper Ttest "A"%string "B"%string
           (Some Fixture.cls_tiny) Fixture.df_tiny Fixture.dict_AB
           [("SET", ["g1"; "g2"])]%string).
  - reflexivity.
  - reflexivity.
  - reflexivity.
  - simpl. lia.
  - reflexivity.
  - vm_compute. reflexivity.
  - simpl. lia.
  - reflexivity.
Defined.

(** * The order of the genes of [load_data] *)
Module Load_shape.

Import GSEA.
Local Open Scope list_scope.

(** ** Subsequences *)

Lemma subsequence_refl {A : Type} (l : list A) : Props.subsequence l l.
Proof. induction l; constructor; assumption. Qed.

Lemma subsequence_nil {A : Type} (l : list A) : Props.subsequence [] l.
Proof. induction l; constructor; assumption. Qed.

Lemma subsequence_trans {A : Type} (l1 l2 l3 : list A) :
  Props.subsequence l1 l2 -> Props.subsequence l2 l3 -> Props.subsequence l1 l3.
Proof.
  intros H12 H23. revert l1 H12.
  induction H23 as [ | x l2 l3 _ IH | x l2 l3 _ IH]; intros l1 H12.
  - exact H12.
  - inversion H12 as [ | y l1' l2' H | y l1' l2' H]; subst.
    + constructor. apply IH, H.
    + apply Props.sub_skip. apply IH, H.
  - apply Props.sub_skip. apply IH, H12.
Qed.

Lemma subsequence_In {A : Type} (l1 l2 : list A) (x : A) :
  Props.subsequence l1 l2 -> In x l1 -> In x l2.
Proof.
  induction 1 as [ | y l1 l2 _ IH | y l1 l2 _ IH]; simpl; intros Hin.
  - exact Hin.
  - destruct Hin as [-> | Hin]; [ left; reflexivity | right; apply IH, Hin ].
  - right. apply IH, Hin.
Qed.

Lemma keep_subsequence {A : Type} (mask : list bool) (l : list A) :
  Props.subsequence (keep mask l) l.
Proof.
  revert mask. induction l as [ | x l IH]; intros mask.
  - destruct mask; constructor.
  - destruct mask as [ | b mask]; [ apply subsequence_nil | ].
    rewrite Load_more.keep_cons. destruct b; constructor; apply IH.
Qed.

Lemma combine_fst_subsequence {A B : Type} (l : list A) (t : list B) :
  Props.subsequence (map fst (combine l t)) l.
Proof.
  revert t. induction l as [ | x l IH]; intros t; simpl.
  - constructor.
  - destruct t as [ | y t]; simpl; [ apply subsequence_nil | ].
    constructor. apply IH.
Qed.

Lemma filter_fst_subsequence {A B : Type} (p : A * B -> bool) (l : list (A * B)) :
  Props.subsequence (map fst (filter p l)) (map fst l).
Proof.
  induction l as [ | x l IH]; simpl.
  - constructor.
  - destruct (p x); simpl; constructor; exact IH.
Qed.

Lemma prepared_index_subsequence (exprs : RawFrame) :
  Forall (fun c => isnull c = false) (cells (snd (first exprs))) ->
  Props.subsequence (cells (snd (first (Spec.prepared exprs))))
    (cells (snd (first exprs))).
Proof.
  intros Hnn. unfold Spec.prepared.
  set (l := cells (snd (first exprs))) in *.
  set (f := if existsb id (duplicated l)
            then keep_rows (map negb (duplicated l)) exprs else exprs).
  assert (Hf : cells (snd (first f)) = keep (map negb (duplicated l)) l).
  { unfold f. destruct (existsb id (duplicated l)) eqn:E.
    - simpl. apply Load_more.cells_keep_col.
    - symmetry. apply Load_more.keep_all;
        [ exact E | apply Load_more.duplicated_from_length ]. }
  assert (Hsub : Props.subsequence (cells (snd (first f))) l).
  { rewrite Hf. apply keep_subsequence. }
  assert (Hnn' : Forall (fun c => isnull c = false) (cells (snd (first f)))).
  { rewrite Hf. apply Load_more.keep_Forall, Hnn. }
  destruct (has_null f).
  - simpl. rewrite Load_more.cells_fill_col, Load_more.cells_keep_col.
    rewrite Load_more.fill_cell_id by (apply Load_more.keep_Forall, Hnn').
    eapply subsequence_trans; [ apply keep_subsequence | exact Hsub ].
  - exact Hsub.
Qed.

End Load_shape.

(** X15. When no gene name of the input is missing, the genes of the
    frame [load_data] returns are gene names of the input in the order
    of the input: rows are left out, never moved or renamed. *)
Theorem load_data_keeps_gene_order :
  forall (exprs : GSEA.RawFrame) (cls_vec : list string)
         (df : DataFrame) (cls_dict : dict string),
    GSEA.load_data exprs (Some cls_vec) = Ok (df, cls_dict) ->
    Forall (fun c => GSEA.isnull c = false)
      (GSEA.cells (snd (GSEA.first exprs))) ->
    Props.subsequence (map fst (rows df)) (GSEA.cells (snd (GSEA.first exprs))) /\
    (forall g : cell, In g (map fst (rows df)) ->
                      In g (GSEA.cells (snd (GSEA.first exprs)))).
Proof.
  intros exprs cls_vec df cls_dict Hload Hnn.
  assert (Hsub : Props.subsequence (map fst (rows df))
                   (GSEA.cells (snd (GSEA.first exprs)))).
  { destruct (Load_facts.load_data_steps _ _ _ _ Hload)
      as [df0 [Hclean [_ [_ Hrows]]]].
    destruct (Load_more.clean_index _ _ _ Hclean) as [t Ht].
    rewrite Hrows, map_map. simpl.
    eapply Load_shape.subsequence_trans;
      [ apply Load_shape.filter_fst_subsequence | ].
    rewrite Ht.
    eapply Load_shape.subsequence_trans;
      [ apply Load_shape.combine_fst_subsequence | ].
    apply Load_shape.prepared_index_subsequence, Hnn. }
  split; [ exact Hsub | ].
  intros g Hg. eapply Load_shape.subsequence_In; eassumption.
Qed.

Lemma load_data_keeps_gene_order_witness :
  Props.subsequence (map fst (rows Fixture.df_tiny)) [CStr "g1"; CStr "g2"].
Proof.
  assert (Hload : GSEA.load_data Fixture.raw_tiny (Some Fixture.cls_tiny)
                  = Ok (Fixture.df_tiny, Fixture.dict_AB))
    by (vm_compute; reflexivity).
  refine (proj1 (load_data_keeps_gene_order Fixture.raw_tiny Fixture.cls_tiny
                   Fixture.df_tiny Fixture.dict_AB Hload _)).
  repeat constructor.
Defined.

(** X16. The two places that read the method name agree: the metric
    [run] hands to the phenotype kernel for a name is the metric
    [calculate_metric] computes for its lower-case form, and [run]
    refuses exactly the names whose lower-case form [calculate_metric]
    refuses. So s2n means signal_to_noise in both, the second mention of
    s2n in [run] never decides, and every name [calculate_metric] takes
    is taken by [run] with the same meaning. *)
Theorem run_metric_agrees :
  forall method : string,
    GSEA.run_metric method
    = match GSEA.metric_of_name (lower method) with
      | Some m => Ok m
      | None => Raise (MethodNotSupported (lower method))
      end /\
    (forall m : Metric,
        GSEA.metric_of_name method = Some m -> GSEA.run_metric method = Ok m).
Proof.
  intros method.
  assert (Hlow : GSEA.run_metric method
                 = match GSEA.metric_of_name (lower method) with
                   | Some m => Ok m
                   | None => Raise (MethodNotSupported (lower method))
                   end).
  { unfold GSEA.run_metric, GSEA.metric_of_name, str_in.
    generalize (lower method) as l. intros l. cbn [existsb].
    repeat match goal with
           | |- context [String.eqb l ?b] => destruct (String.eqb l b)
           end; reflexivity. }
  split; [ exact Hlow | ].
  intros m Hm. apply Metric_facts.metric_of_name_spec in Hm.
  unfold Spec.metric_names, Spec.recognized in Hm. simpl in Hm.
  repeat destruct Hm as [Hm | Hm];
    try (injection Hm as <- <-; reflexivity); contradiction.
Qed.

Lemma run_metric_agrees_witness :
  GSEA.run_metric "abs_s2n" = Ok AbsSignal2Noise.
Proof.
  apply (proj2 (run_metric_agrees "abs_s2n") AbsSignal2Noise). reflexivity.
Defined.

(** X17. A [gene_set] run that returns has loaded at least two genes,
    and the first index list of its result is the index list that
    [calculate_metric] returned for them, a rearrangement of their
    positions: the first index list of the kernel is dropped for it,
    and the rest of the kernel's result is passed on. *)
Theorem gene_set_run_indices :
  forall (Summary GeneSets : Type) (ext : Externals Summary GeneSets)
         (self : GSEA.t GeneSets) (res : GSEAResult Summary),
    GSEA.permutation_type self = "gene_set"%string ->
    GSEA.run ext self = Ok res ->
    exists (pos neg : string) (cv : option (list string)) (dat : DataFrame)
           (cls_dict : dict string) (gmt : dict (list string))
           (idx : list nat) (dat2 : Series) (gsum : GSEAResult Summary)
           (first : list nat) (others : list (list nat)),
      GSEA.load_classes (gsea_cls_parser ext) (GSEA.classes self)
      = Ok (pos, neg, cv) /\
      GSEA.load_data (GSEA.data self) cv = Ok (dat, cls_dict) /\
      1 < List.length (rows dat) /\
      load_gmt ext (map fst (rows dat)) (GSEA.gene_sets self) = Ok gmt /\
      GSEA.calculate_metric (libs ext) dat (GSEA.method self) pos neg cls_dict
        (GSEA.ascending self) = Ok (idx, dat2) /\
      prerank_rs ext (map fst dat2) (values dat2) gmt (GSEA.weight self)
        (GSEA.min_size self) (GSEA.max_size self) (GSEA.permutation_num self)
        (GSEA.threads self) (GSEA.seed self) = Ok gsum /\
      indices gsum = first :: others /\
      res = {| summaries := summaries gsum;
               rankings := rankings gsum;
               indices := idx :: others |} /\
      Permutation idx (seq 0 (List.length (rows dat))).
Proof.
  intros Summary GeneSets ext self res Hpt Hrun.
  unfold GSEA.run in Hrun.
  destruct (GSEA.run_metric (GSEA.method self)) as [m | e];
    cbn [bind] in Hrun; [ | discriminate ].
  destruct (str_in (GSEA.permutation_type self) ["phenotype"; "gene_set"]%string);
    cbn [bind assert] in Hrun; [ | discriminate ].
  destruct (GSEA.min_size self <=? GSEA.max_size self)%Z;
    cbn [bind assert] in Hrun; [ | discriminate ].
  destruct (GSEA.load_classes (gsea_cls_parser ext) (GSEA.classes self))
    as [[[pos neg] cv] | e] eqn:Hlc; cbn [bind] in Hrun; [ | discriminate ].
  destruct (GSEA.load_data (GSEA.data self) cv) as [[dat cls_dict] | e] eqn:Hld;
    cbn [bind] in Hrun; [ | discriminate ].
  destruct (1 <? List.length (rows dat))%nat eqn:Hlen;
    cbn [bind assert] in Hrun; [ | discriminate ].
  destruct (load_gmt ext (map fst (rows dat)) (GSEA.gene_sets self)) as [gmt | e]
    eqn:Hgmt; cbn [bind] in Hrun; [ | discriminate ].
  rewrite Hpt in Hrun. cbn [String.eqb Ascii.eqb Bool.eqb] in Hrun.
  destruct (GSEA.calculate_metric (libs ext) dat (GSEA.method self) pos neg
              cls_dict (GSEA.ascending self)) as [[idx dat2] | e] eqn:Hcm;
    cbn [bind] in Hrun; [ | discriminate ].
  destruct (prerank_rs ext (map fst dat2) (values dat2) gmt (GSEA.weight self)
              (GSEA.min_size self) (GSEA.max_size self)
              (GSEA.permutation_num self) (GSEA.threads self) (GSEA.seed self))
    as [gsum | e] eqn:Hk; cbn [bind] in Hrun; [ | discriminate ].
  destruct (indices gsum) as [ | first others] eqn:Hind; [ discriminate | ].
  injection Hrun as <-.
  exists pos, neg, cv, dat, cls_dict, gmt, idx, dat2, gsum, first, others.
  split; [ first [ reflexivity | exact Hlc ] | ].
  split; [ first [ reflexivity | exact Hld ] | ].
  split; [ apply Nat.ltb_lt, Hlen | ].
  split; [ first [ reflexivity | exact Hgmt ] | ].
  split; [ first [ reflexivity | exact Hcm ] | ].
  split; [ first [ reflexivity | exact Hk ] | ].
  split; [ first [ reflexivity | exact Hind ] | ].
  split; [ reflexivity | ].
  destruct (Metric_more.calculate_metric_ok_inv _ _ _ _ _ _ _ _ Hcm)
    as [m' [_ [_ [_ Hr]]]].
  destruct (Metric_more.ranking_of_perm (libs ext)
              (Spec.scores (libs ext) m' dat cls_dict pos neg)
              (GSEA.ascending self)) as [Hidx _].
  rewrite <- Hr in Hidx. simpl in Hidx.
  unfold Spec.scores in Hidx. rewrite length_map in Hidx. exact Hidx.
Qed.

Lemma gene_set_run_indices_witness :
  exists (res gsum : GSEAResult string) (dat2 : Series),
    GSEA.run (Fixture.ext []) Fixture.gsea_gene_set = Ok res /\
    GSEA.calculate_metric Fixture.lib Fixture.df_tiny "diff_of_classes" "A" "B"
      Fixture.dict_AB true = Ok ([1; 0], dat2) /\
    prerank_rs (Fixture.ext []) (map fst dat2) (values dat2)
      [("SET", ["g1"; "g2"])]%string 1 1 500 10 4 123 = Ok gsum /\
    indices gsum = [[0; 1]] /\
    indices res = [[1; 0]].
Proof.
  destruct (GSEA.run (Fixture.ext []) Fixture.gsea_gene_set) as [res | e] eqn:Hrun;
    [ | vm_compute in Hrun; discriminate ].
  destruct (gene_set_run_indices string unit (Fixture.ext []) Fixture.gsea_gene_set
              res eq_refl Hrun)
    as [pos [neg [cv [dat [cls_dict [gmt [idx [dat2 [gsum [first [others
         [Hlc [Hld [_ [Hgmt [Hcm [Hk [Hind [Hres _]]]]]]]]]]]]]]]]]]].
  vm_compute in Hlc. injection Hlc as <- <- <-.
  vm_compute in Hld. injection Hld as <- <-.
  vm_compute in Hgmt. injection Hgmt as <-.
  exists res, gsum, dat2.
  split; [ reflexivity | ].
  assert (Hidx : idx = [1; 0]).
  { vm_compute in Hcm. injection Hcm as Hi _. symmetry. exact Hi. }
  subst idx.
  split; [ exact Hcm | ]. split; [ exact Hk | ].
  assert (Hfirst : first = [0; 1] /\ others = []).
  { vm_compute in Hcm. injection Hcm as <-.
    vm_compute in Hk. injection Hk as <-.
    vm_compute in Hind. injection Hind as <- <-. split; reflexivity. }
  destruct Hfirst as [-> ->].
  split; [ exact Hind | ]. rewrite Hres. reflexivity.
Defined.

(** * Facts about [Replot] *)
Module Replot_facts.

Import Replot.
Local Open Scope list_scope.
Local Open Scope string_scope.

Lemma append_nil_r_local (s : string) : s ++ EmptyString = s.
Proof. induction s as [ | c s IH]; simpl; [ reflexivity | rewrite IH; reflexivity ]. Qed.

Lemma split_not_nil (sep : ascii) (s : string) : split sep s <> [].
Proof.
  destruct s as [ | c s]; simpl; [ discriminate | ].
  destruct (Ascii.eqb c sep); [ discriminate | ].
  destruct (split sep s); discriminate.
Qed.

(** A string is one piece, or its first piece ends at its first
    separator. *)
Lemma split_first (sep : ascii) (s : string) :
  (occurs sep s = false /\ split sep s = [s]) \/
  (exists a r : string,
      s = a ++ String sep r /\ occurs sep a = false /\
      split sep s = a :: split sep r).
Proof.
  induction s as [ | c s IH]; simpl.
  - left. split; reflexivity.
  - destruct (Ascii.eqb_spec c sep) as [-> | Hc]; simpl.
    + right. exists EmptyString, s. repeat split; reflexivity.
    + destruct IH as [[Hocc Hs] | [a [r [Hs [Hocc Hsplit]]]]].
      * left. rewrite Hs. split; [ exact Hocc | reflexivity ].
      * right. exists (String c a), r. rewrite Hsplit. simpl.
        apply Ascii.eqb_neq in Hc. rewrite Hc. simpl.
        split; [ f_equal; exact Hs | ]. split; [ exact Hocc | reflexivity ].
Qed.

Lemma split_no_sep (sep : ascii) (s : string) :
  occurs sep s = false -> split sep s = [s].
Proof.
  induction s as [ | c s IH]; simpl; intros Hocc.
  - reflexivity.
  - apply orb_false_iff in Hocc. destruct Hocc as [Hc Hocc].
    rewrite Hc, (IH Hocc). reflexivity.
Qed.

Lemma split_app (sep : ascii) (a r : string) :
  occurs sep a = false -> split sep (a ++ String sep r) = a :: split sep r.
Proof.
  induction a as [ | c a IH]; simpl; intros Hocc.
  - rewrite Ascii.eqb_refl. reflexivity.
  - apply orb_false_iff in Hocc. destruct Hocc as [Hc Hocc].
    rewrite Hc, (IH Hocc). reflexivity.
Qed.

(** The second piece of a string: what stands between its first and its
    second separator. *)
Lemma split_second (sep : ascii) (s t : string) :
  nth_error (split sep s) 1 = Some t <->
  exists a rest : string,
    s = a ++ String sep (t ++ rest) /\
    occurs sep a = false /\ occurs sep t = false /\
    (rest = EmptyString \/ exists r, rest = String sep r).
Proof.
  split.
  - intros Hnth.
    destruct (split_first sep s) as [[_ Hs] | [a [r [Hs [Hocc Hsplit]]]]].
    + rewrite Hs in Hnth. discriminate.
    + rewrite Hsplit in Hnth. simpl in Hnth.
      destruct (split_first sep r) as [[Hr Hsr] | [b [r' [Hr [Hb Hsr]]]]].
      * rewrite Hsr in Hnth. simpl in Hnth. injection Hnth as <-.
        exists a, EmptyString. rewrite append_nil_r_local.
        split; [ exact Hs | ]. split; [ exact Hocc | ].
        split; [ exact Hr | left; reflexivity ].
      * rewrite Hsr in Hnth. simpl in Hnth. injection Hnth as <-.
        exists a, (String sep r').
        split; [ rewrite Hs, Hr; reflexivity | ]. split; [ exact Hocc | ].
        split; [ exact Hb | right; exists r'; reflexivity ].
  - intros [a [rest [-> [Ha [Ht Hrest]]]]].
    rewrite (split_app sep a _ Ha). simpl.
    destruct Hrest as [-> | [r ->]].
    + rewrite append_nil_r_local, (split_no_sep sep t Ht). reflexivity.
    + rewrite (split_app sep t _ Ht). reflexivity.
Qed.

End Replot_facts.

Module Replot_loop.

Import Replot.
Local Open Scope list_scope.
Local Open Scope string_scope.

Lemma find_append {A : Type} (p : A -> bool) (l1 l2 : list A) :
  find p (l1 ++ l2)%list
  = match find p l1 with
    | Some x => Some x
    | None => find p l2
    end.
Proof.
  induction l1 as [ | x l1 IH]; simpl; [ reflexivity | ].
  destruct (p x); [ reflexivity | exact IH ].
Qed.

(** The entry a dict holds for a key after a row of assignments: that of
    the last assignment to the key. *)
Lemma fold_dict_set_last {V : Type} (items : list (string * V)) (d : dict V)
    (k : string) :
  dict_get (fold_left (fun d kv => dict_set d (fst kv) (snd kv)) items d) k
  = match find (fun kv => String.eqb (fst kv) k) (rev items) with
    | Some kv => Some (snd kv)
    | None => dict_get d k
    end.
Proof.
  revert d. induction items as [ | [k1 v1] items IH]; intros d; simpl.
  - reflexivity.
  - rewrite IH, find_append.
    destruct (find (fun kv => String.eqb (fst kv) k) (rev items)) as [kv | ];
      [ reflexivity | ].
    simpl. rewrite Py_facts.dict_get_set.
    destruct (String.eqb k1 k); reflexivity.
Qed.

Section Loop.

Variable float_of_string : string -> option float.
Variable int_of_string : string -> option Z.

Let parse := parse_node float_of_string int_of_string.

(** A loop that ends has read every node. *)
Lemma parse_nodes_done (nodes : list node) (res res' : dict entry) :
  parse_nodes float_of_string int_of_string res nodes = Done res' ->
  exists entries : list (string * entry),
    Forall2 (fun n te => parse n = Done te) nodes entries /\
    res' = fold_left (fun d te => dict_set d (fst te) (snd te)) entries res.
Proof.
  revert res. induction nodes as [ | n nodes IH]; intros res; simpl.
  - intros H. injection H as <-. exists []. split; [ constructor | reflexivity ].
  - fold parse. destruct (parse n) as [te | e] eqn:Hn; simpl; [ | discriminate ].
    intros H. destruct (IH _ H) as [entries [Hall Hres]].
    exists (te :: entries). split; [ constructor; assumption | exact Hres ].
Qed.

(** A loop stops at the first node that fails. *)
Lemma parse_nodes_fail (before after : list node) (n : node) (e : error)
    (res : dict entry) :
  Forall (fun n' => exists te, parse n' = Done te) before ->
  parse n = Fail e ->
  parse_nodes float_of_string int_of_string res (before ++ n :: after) = Fail e.
Proof.
  intros Hbefore Hn. revert res.
  induction Hbefore as [ | n' before [te Hte] _ IH]; intros res; simpl; fold parse.
  - rewrite Hn. reflexivity.
  - rewrite Hte. simpl. apply IH.
Qed.

Lemma parse_node_no_geneset (n : node) :
  dict_get n "GENESET" = None -> parse n = Fail AttributeError.
Proof.
  intros H. unfold parse, parse_node, get_split. rewrite H. reflexivity.
Qed.

Lemma parse_node_no_hash (n : node) (g : string) :
  dict_get n "GENESET" = Some g -> occurs "#"%char g = false ->
  parse n = Fail IndexError.
Proof.
  intros H Hocc. unfold parse, parse_node, get_split. rewrite H. cbn [and_then].
  rewrite (Replot_facts.split_no_sep _ _ Hocc). reflexivity.
Qed.

Lemma parse_node_term (n : node) (t : string) (en : entry) :
  parse n = Done (t, en) ->
  exists g : string,
    dict_get n "GENESET" = Some g /\
    nth_error (split "#"%char g) 1 = Some t.
Proof.
  unfold parse, parse_node, get_split.
  destruct (dict_get n "GENESET") as [g | ]; cbn [and_then]; [ | discriminate ].
  destruct (nth_error (split "#"%char g) 1) as [t' | ] eqn:Hnth; [ | discriminate ].
  intros H. exists g. split; [ reflexivity | ].
  repeat match type of H with
         | and_then ?r _ = Done _ =>
             destruct r; cbn [and_then] in H; [ | discriminate ]
         end.
  injection H as -> _. exact Hnth.
Qed.

End Loop.

Lemma replace_length (old new : ascii) (s : string) :
  String.length (replace old new s) = String.length s.
Proof. induction s as [ | c s IH]; simpl; [ reflexivity | rewrite IH; reflexivity ]. Qed.

Lemma replace_occurs (old new : ascii) (s : string) :
  old <> new -> occurs old (replace old new s) = false.
Proof.
  intros Hne. induction s as [ | c s IH]; simpl; [ reflexivity | ].
  rewrite IH, orb_false_r.
  destruct (Ascii.eqb_spec c old) as [-> | Hc].
  - apply Ascii.eqb_neq. congruence.
  - apply Ascii.eqb_neq. exact Hc.
Qed.

Lemma replace_keeps_absent (old new c : ascii) (s : string) :
  c <> new -> occurs c s = false -> occurs c (replace old new s) = false.
Proof.
  intros Hne. induction s as [ | d s IH]; simpl; [ reflexivity | ].
  intros H. apply orb_false_iff in H. destruct H as [Hd Hs].
  rewrite (IH Hs), orb_false_r.
  destruct (Ascii.eqb d old); [ | exact Hd ].
  apply Ascii.eqb_neq. congruence.
Qed.

Lemma replace_absent (old new : ascii) (s : string) :
  occurs old s = false -> replace old new s = s.
Proof.
  induction s as [ | c s IH]; simpl; [ reflexivity | ].
  intros H. apply orb_false_iff in H. destruct H as [Hc Hs].
  rewrite Hc, (IH Hs). reflexivity.
Qed.

End Replot_loop.

(** X18. In the dict [gsea_edb_parser] returns every node of the file
    was read, and the entry of a term is that of the last node with this
    term: of several nodes for one gene set only the last one is kept,
    and a term of no node has no entry. *)
Theorem edb_parser_last_node_wins :
  forall (float_of_string : string -> option float)
         (int_of_string : string -> option Z)
         (nodes : list Replot.node) (res : dict Replot.entry),
    Replot.gsea_edb_parser float_of_string int_of_string nodes = Replot.Done res ->
    exists entries : list (string * Replot.entry),
      Forall2 (fun n te =>
                 Replot.parse_node float_of_string int_of_string n = Replot.Done te)
        nodes entries /\
      forall term : string,
        dict_get res term
        = option_map snd
            (find (fun te => String.eqb (fst te) term) (rev entries)).
Proof.
  intros float_of_string int_of_string nodes res Hdone.
  destruct (Replot_loop.parse_nodes_done _ _ _ _ _ Hdone) as [entries [Hall Hres]].
  exists entries. split; [ exact Hall | ].
  intros term. subst res. rewrite Replot_loop.fold_dict_set_last.
  destruct (find (fun te => String.eqb (fst te) term) (rev entries)); reflexivity.
Qed.

Lemma edb_parser_last_node_wins_witness :
  Replot.gsea_edb_parser
    (fun s => if String.eqb s "1" then Some 1%float else Some 2%float)
    (fun _ => Some 0%Z)
    [ [("GENESET", "db#SET"); ("ES_PROFILE", "1 1"); ("HIT_INDICES", "0");
       ("ES", "1"); ("NES", "1"); ("NP", "1"); ("FDR", "1"); ("FWER", "1")];
      [("GENESET", "db#SET"); ("ES_PROFILE", "1 1"); ("HIT_INDICES", "0");
       ("ES", "2"); ("NES", "2"); ("NP", "2"); ("FDR", "2"); ("FWER", "2")] ]%string
  = Replot.Done [("SET"%string, (2, 2, 2, 2, 2, [0%Z])%float)] /\
  dict_get [("SET"%string, (2, 2, 2, 2, 2, [0%Z])%float)] "SET"
  = Some (2, 2, 2, 2, 2, [0%Z])%float.
Proof.
  assert (Hdone :
    Replot.gsea_edb_parser
      (fun s => if String.eqb s "1" then Some 1%float else Some 2%float)
      (fun _ => Some 0%Z)
      [ [("GENESET", "db#SET"); ("ES_PROFILE", "1 1"); ("HIT_INDICES", "0");
         ("ES", "1"); ("NES", "1"); ("NP", "1"); ("FDR", "1"); ("FWER", "1")];
        [("GENESET", "db#SET"); ("ES_PROFILE", "1 1"); ("HIT_INDICES", "0");
         ("ES", "2"); ("NES", "2"); ("NP", "2"); ("FDR", "2"); ("FWER", "2")] ]%string
    = Replot.Done [("SET"%string, (2, 2, 2, 2, 2, [0%Z])%float)])
    by (vm_compute; reflexivity).
  split; [ exact Hdone | ].
  destruct (edb_parser_last_node_wins _ _ _ _ Hdone) as [entries [Hall Hlast]].
  refine (eq_trans (Hlast "SET"%string) _).
  inversion Hall as [ | n1 te1 ns1 es1 H1 Hall1 ]; subst.
  inversion Hall1 as [ | n2 te2 ns2 es2 H2 Hall2 ]; subst.
  inversion Hall2; subst.
  vm_compute in H1. injection H1 as <-.
  vm_compute in H2. injection H2 as <-.
  reflexivity.
Defined.

(** X19. [gsea_edb_parser] returns nothing of a file with a node it
    cannot read: at the first node that fails, after nodes that were
    read, the whole call fails with the exception of that node. For a
    node without a GENESET attribute this is [AttributeError], for one
    whose GENESET has no # it is [IndexError]. *)
Theorem edb_parser_fails_as_a_whole :
  forall (float_of_string : string -> option float)
         (int_of_string : string -> option Z)
         (before after : list Replot.node) (n : Replot.node),
    Forall (fun n' => exists te,
                Replot.parse_node float_of_string int_of_string n' = Replot.Done te)
      before ->
    (forall e : Replot.error,
        Replot.parse_node float_of_string int_of_string n = Replot.Fail e ->
        Replot.gsea_edb_parser float_of_string int_of_string (before ++ n :: after)
        = Replot.Fail e) /\
    (dict_get n "GENESET" = None ->
     Replot.gsea_edb_parser float_of_string int_of_string (before ++ n :: after)
     = Replot.Fail Replot.AttributeError) /\
    (forall g : string,
        dict_get n "GENESET" = Some g -> Replot.occurs "#" g = false ->
        Replot.gsea_edb_parser float_of_string int_of_string (before ++ n :: after)
        = Replot.Fail Replot.IndexError).
Proof.
  intros float_of_string int_of_string before after n Hbefore.
  assert (Hfail : forall e : Replot.error,
             Replot.parse_node float_of_string int_of_string n = Replot.Fail e ->
             Replot.gsea_edb_parser float_of_string int_of_string
               (before ++ n :: after) = Replot.Fail e).
  { intros e He. unfold Replot.gsea_edb_parser.
    apply Replot_loop.parse_nodes_fail; assumption. }
  split; [ exact Hfail | ]. split.
  - intros Hnone. apply Hfail. apply Replot_loop.parse_node_no_geneset, Hnone.
  - intros g Hg Hocc. apply Hfail.
    eapply Replot_loop.parse_node_no_hash; eassumption.
Qed.

Lemma edb_parser_fails_as_a_whole_witness :
  Replot.gsea_edb_parser (fun _ => Some 1%float) (fun _ => Some 0%Z)
    [ [("GENESET", "db#SET"); ("ES_PROFILE", "1 1"); ("HIT_INDICES", "0");
       ("ES", "1"); ("NES", "1"); ("NP", "1"); ("FDR", "1"); ("FWER", "1")];
      [("GENESET", "SET"); ("ES_PROFILE", "1 1"); ("HIT_INDICES", "0");
       ("ES", "1"); ("NES", "1"); ("NP", "1"); ("FDR", "1"); ("FWER", "1")] ]%string
  = Replot.Fail Replot.IndexError.
Proof.
  refine (proj2 (proj2 (edb_parser_fails_as_a_whole
                          (fun _ => Some 1%float) (fun _ => Some 0%Z)
                          [ [("GENESET", "db#SET"); ("ES_PROFILE", "1 1");
                             ("HIT_INDICES", "0"); ("ES", "1"); ("NES", "1");
                             ("NP", "1"); ("FDR", "1"); ("FWER", "1")] ]%string
                          [] _ _)) "SET"%string _ _).
  - constructor; [ | constructor ]. eexists. vm_compute. reflexivity.
  - reflexivity.
  - reflexivity.
Defined.

(** X20. The term a node is filed under is what stands between the
    first and the second # of its GENESET attribute: it holds no #, and
    what follows a second # is dropped. *)
Theorem edb_parser_term :
  forall (float_of_string : string -> option float)
         (int_of_string : string -> option Z)
         (n : Replot.node) (term : string) (en : Replot.entry),
    Replot.parse_node float_of_string int_of_string n = Replot.Done (term, en) ->
    Replot.occurs "#" term = false /\
    exists library rest : string,
      dict_get n "GENESET" = Some (library ++ String "#" (term ++ rest))%string /\
      Replot.occurs "#" library = false /\
      (rest = EmptyString \/ exists r, rest = String "#" r).
Proof.
  intros float_of_string int_of_string n term en Hdone.
  destruct (Replot_loop.parse_node_term _ _ _ _ _ Hdone) as [g [Hg Hnth]].
  apply Replot_facts.split_second in Hnth.
  destruct Hnth as [a [rest [-> [Ha [Ht Hrest]]]]].
  split; [ exact Ht | ].
  exists a, rest. split; [ exact Hg | ]. split; assumption.
Qed.

Lemma edb_parser_term_witness :
  Replot.occurs "#" "SET" = false.
Proof.
  refine (proj1 (edb_parser_term (fun _ => Some 1%float) (fun _ => Some 0%Z)
                   [("GENESET", "db#SET#x"); ("ES_PROFILE", "1 1");
                    ("HIT_INDICES", "0"); ("ES", "1"); ("NES", "1"); ("NP", "1");
                    ("FDR", "1"); ("FWER", "1")]%string
                   "SET"%string (1, 1, 1, 1, 1, [0%Z])%float _)).
  vm_compute. reflexivity.
Defined.

(** X21. The name of a figure holds the term without its / and : , each
    replaced by _ : the term keeps its length and every figure lies in
    the output directory itself. The replacement changes a term that
    holds one of the two characters only, and a term and its replaced
    form are drawn into the same file. *)
Theorem file_term_flat :
  forall outdir term format : string,
    Replot.occurs "/" (Replot.file_term term) = false /\
    Replot.occurs ":" (Replot.file_term term) = false /\
    String.length (Replot.file_term term) = String.length term /\
    (Replot.occurs "/" term = false -> Replot.occurs ":" term = false ->
     Replot.file_term term = term) /\
    Replot.outfile outdir (Replot.file_term term) format
    = Replot.outfile outdir term format.
Proof.
  intros outdir term format. unfold Replot.file_term.
  assert (Hslash : Replot.occurs "/"
                     (Replot.replace ":" "_" (Replot.replace "/" "_" term)) = false).
  { apply Replot_loop.replace_keeps_absent; [ discriminate | ].
    apply Replot_loop.replace_occurs. discriminate. }
  assert (Hcolon : Replot.occurs ":"
                     (Replot.replace ":" "_" (Replot.replace "/" "_" term)) = false).
  { apply Replot_loop.replace_occurs. discriminate. }
  split; [ exact Hslash | ]. split; [ exact Hcolon | ].
  split; [ rewrite !Replot_loop.replace_length; reflexivity | ].
  split.
  - intros H1 H2.
    rewrite (Replot_loop.replace_absent "/" "_" term H1).
    apply Replot_loop.replace_absent, H2.
  - unfold Replot.outfile, Replot.file_term.
    rewrite (Replot_loop.replace_absent "/" "_" _ Hslash).
    rewrite (Replot_loop.replace_absent ":" "_" _ Hcolon).
    reflexivity.
Qed.

Lemma file_term_flat_witness :
  Replot.file_term "KEGG_CELL_CYCLE" = "KEGG_CELL_CYCLE"%string.
Proof.
  apply (proj1 (proj2 (proj2 (proj2 (file_term_flat "out" "KEGG_CELL_CYCLE" "pdf")))));
    reflexivity.
Defined.
